(** * NNTools: the metadata producer [preprocessing/metadata.py]

    A shallow embedding of class [Metadata] and a verification of its
    file enumerator, variable selector, reweighting calculator,
    statistics calculator and JSON store.

    Conventions of the embedding.
    - Python floats and numpy's float32/float64 are embedded as exact
      rationals [Q]; the rounding of the floating-point operations is not
      modelled.  Histogram counts are integers, which float32 holds
      exactly below 2^24.
    - Array elements that may be non-finite are embedded as [fval].
    - Python dictionaries are [gmap]s where only lookups matter and
      association lists where the iteration order is observable.
    - Exceptions are the constructors of [exn]; a method that may raise
      returns a [result].
    - The collaborators [get_num_events], [root2array], [re.match] and
      numpy's random shuffle are parameters of the development. *)

From Stdlib Require Import QArith Qround Qabs Lqa.
From stdpp Require Import gmap strings list fin_maps sorting.

Local Open Scope Z_scope.
Set Warnings "-register-all".

(** * The embedding *)

(** ** Exceptions and results *)

Inductive exn : Type :=
  | RuntimeError (category : string)  (* 'Not enough events for cateogry %s' *)
  | ValueError
  | IndexError
  | KeyError
  | TypeError
  | AttributeError
  | ZeroDivisionError
  | IOError.

Inductive result (A : Type) : Type :=
  | Ok (a : A)
  | Raise (e : exn).
Arguments Ok {A} a.
Arguments Raise {A} e.

Global Instance result_ret : MRet result := λ A a, Ok a.

Global Instance result_bind : MBind result := λ A B f m,
  match m with
  | Ok a => f a
  | Raise e => Raise e
  end.

Definition is_ok {A} (r : result A) : bool :=
  match r with Ok _ => true | Raise _ => false end.

(** A loop whose body may raise. *)
Fixpoint foldlM {A B} (f : A → B → result A) (a : A) (l : list B) : result A :=
  match l with
  | [] => Ok a
  | b :: t => a' ← f a b; foldlM f a' t
  end.

(** Mapping a function that may raise over a list, left to right. *)
Definition mapM_result {A B} (f : A → result B) : list A → result (list B) :=
  fix go (l : list A) : result (list B) :=
    match l with
    | [] => Ok []
    | x :: t => y ← f x; ys ← go t; Ok (y :: ys)
    end.

(** Reading an attribute that may not exist yet, and using as a sequence
    an attribute that may be [None]. *)
Definition attribute {A} (a : option A) : result A :=
  match a with Some x => Ok x | None => Raise AttributeError end.

Definition sequence {A} (a : option (list A)) : result (list A) :=
  match a with Some l => Ok l | None => Raise TypeError end.

(** ** Python's builtins on numbers and lists *)

(** [x < y] *)
Definition Qlt_bool (x y : Q) : bool := negb (Qle_bool y x).

Definition qmin (x y : Q) : Q := if Qlt_bool y x then y else x.

Definition qmax (x y : Q) : Q := if Qlt_bool x y then y else x.

(** Python's builtin [min]/[max] over a sequence: the first extremal
    element; [ValueError] on an empty sequence. *)
Definition py_min (l : list Q) : result Q :=
  match l with
  | [] => Raise ValueError
  | x :: t => Ok (foldl qmin x t)
  end.

Definition py_max (l : list Q) : result Q :=
  match l with
  | [] => Raise ValueError
  | x :: t => Ok (foldl qmax x t)
  end.

(** Python's [sum] of a list of integers. *)
Definition py_sum (l : list Z) : Z := foldl Z.add 0 l.

(** [round(x)] of Python 2: halves away from zero. *)
Definition py_round (q : Q) : Z :=
  if Qle_bool 0 q then Qfloor (q + (1 # 2))%Q else - Qfloor (- q + (1 # 2))%Q.

(** [int(x)]: truncation towards zero. *)
Definition py_int (q : Q) : Z := Z.quot (Qnum q) (Zpos (Qden q)).

(** [l[-2:]] *)
Definition tail2 {A} (l : list A) : list A := drop (length l - 2)%nat l.

(** [l[:n]] *)
Definition slice_to {A} (n : Z) (l : list A) : list A :=
  if 0 <=? n then take (Z.to_nat n) l
  else take (Z.to_nat (Z.of_nat (length l) + n)) l.

(** [[l[i] for i in inds]] *)
Fixpoint pick {A} (l : list A) (inds : list nat) : result (list A) :=
  match inds with
  | [] => Ok []
  | i :: t =>
      match l !! i with
      | Some x => r ← pick l t; Ok (x :: r)
      | None => Raise IndexError
      end
  end.

(** [l.remove(x)]: removes the first occurrence, [ValueError] if absent. *)
Fixpoint list_remove (x : string) (l : list string) : result (list string) :=
  match l with
  | [] => Raise ValueError
  | y :: t => if String.eqb y x then Ok t else t' ← list_remove x t; Ok (y :: t')
  end.

(** [try: l.remove(x) except ValueError: pass] *)
Definition remove_if_present (l : list string) (x : string) : list string :=
  match list_remove x l with
  | Ok l' => l'
  | Raise _ => l
  end.

(** ** Strings and paths *)

(** [sub in s] *)
Fixpoint contains (sub s : string) : bool :=
  String.prefix sub s ||
  match s with
  | EmptyString => false
  | String _ s' => contains sub s'
  end.

(** [s.endswith(suffix)] *)
Definition endswith (suffix s : string) : bool :=
  (String.length suffix <=? String.length s)%nat &&
  String.eqb (String.substring (String.length s - String.length suffix)
                               (String.length suffix) s) suffix.

(** [s.startswith(p)] *)
Definition startswith (p s : string) : bool := String.prefix p s.

(** [os.path.join(a, b)] on a POSIX system. *)
Definition path_join (a b : string) : string :=
  if startswith "/" b then b
  else if String.eqb a "" || endswith "/" a then (a ++ b)%string
  else (a ++ "/" ++ b)%string.

(** ** Array elements

    The finite values are exact; the special values follow IEEE 754. *)

(** Array elements: IEEE special values next to the finite ones. *)
Inductive fval : Type :=
  | Fin (q : Q)
  | PInf
  | NInf
  | NaN.

Global Instance fval_inhabited : Inhabited fval := populate NaN.

Definition is_nan (x : fval) : bool := match x with NaN => true | _ => false end.

Definition feq (x y : fval) : bool :=
  match x, y with
  | Fin p, Fin q => Qeq_bool p q
  | PInf, PInf => true
  | NInf, NInf => true
  | _, _ => false
  end.

Definition fadd (x y : fval) : fval :=
  match x, y with
  | NaN, _ | _, NaN => NaN
  | PInf, NInf | NInf, PInf => NaN
  | PInf, _ | _, PInf => PInf
  | NInf, _ | _, NInf => NInf
  | Fin p, Fin q => Fin (p + q)
  end.

Definition fopp (x : fval) : fval :=
  match x with
  | Fin p => Fin (- p)
  | PInf => NInf
  | NInf => PInf
  | NaN => NaN
  end.

Definition fsub (x y : fval) : fval := fadd x (fopp y).

(** The sign of a value: [Some true] positive, [Some false] negative,
    [None] zero or NaN. *)
Definition fsign (x : fval) : option bool :=
  match x with
  | Fin p => if Qlt_bool 0 p then Some true else if Qlt_bool p 0 then Some false else None
  | PInf => Some true
  | NInf => Some false
  | NaN => None
  end.

Definition fmul (x y : fval) : fval :=
  match x, y with
  | Fin p, Fin q => Fin (p * q)
  | NaN, _ | _, NaN => NaN
  | _, _ =>
      match fsign x, fsign y with
      | Some s, Some t => if Bool.eqb s t then PInf else NInf
      | _, _ => NaN
      end
  end.

(** Division by a positive count. *)
Definition fdiv_count (x : fval) (n : nat) : fval :=
  match n with
  | O => NaN
  | S _ => match x with Fin p => Fin (p / inject_Z (Z.of_nat n)) | _ => x end
  end.

(** The square root, by numpy's [sqrt] on the finite non-negative values;
    the argument is passed in lowest terms. *)
Definition fsqrt (sqrt : Q → Q) (x : fval) : fval :=
  match x with
  | Fin p => if Qlt_bool p 0 then NaN else Fin (sqrt (Qred p))
  | PInf => PInf
  | NInf | NaN => NaN
  end.

(** The order of [np.sort]: NaN after everything else. *)
Definition fle (x y : fval) : bool :=
  match x, y with
  | _, NaN => true
  | NaN, _ => false
  | NInf, _ => true
  | _, NInf => false
  | _, PInf => true
  | PInf, _ => false
  | Fin p, Fin q => Qle_bool p q
  end.

(** [np.minimum] and [np.maximum]: NaN wins. *)
Definition fmin (x y : fval) : fval :=
  if is_nan x || is_nan y then NaN else if fle x y then x else y.

Definition fmax (x y : fval) : fval :=
  if is_nan x || is_nan y then NaN else if fle x y then y else x.

(** ** numpy

    [np.histogram] with an explicit sequence of bin edges computes the
    cumulative counts [#(a < e_0), ..., #(a < e_(n-1)), #(a <= e_n)] by
    [searchsorted] and differences them; its [range] argument is only used
    when [bins] is a number of bins, so with explicit edges the values
    outside [e_0, e_n] are not counted. *)

Definition count_if (p : Q → bool) (a : list Q) : Z :=
  Z.of_nat (length (List.filter p a)).

Fixpoint search_sorted_inclusive (a bins : list Q) : list Z :=
  match bins with
  | [] => []
  | [e] => [count_if (λ x, Qle_bool x e) a]
  | e :: rest => count_if (λ x, Qlt_bool x e) a :: search_sorted_inclusive a rest
  end.

Fixpoint np_diff (l : list Z) : list Z :=
  match l with
  | x :: (y :: _) as t => (y - x) :: np_diff t
  | _ => []
  end.

Fixpoint monotone (bins : list Q) : bool :=
  match bins with
  | x :: (y :: _) as t => Qle_bool x y && monotone t
  | _ => true
  end.

Definition np_histogram (a bins : list Q) : result (list Z) :=
  if monotone bins then Ok (np_diff (search_sorted_inclusive a bins))
  else Raise ValueError.

Fixpoint insert_sorted (x : fval) (l : list fval) : list fval :=
  match l with
  | [] => [x]
  | y :: t => if fle x y then x :: l else y :: insert_sorted x t
  end.

Definition np_sort (l : list fval) : list fval := foldr insert_sorted [] l.

(** [np.min(a)], [np.max(a)]: [ValueError] on an empty array. *)
Definition np_min (a : list fval) : result fval :=
  match a with
  | [] => Raise ValueError
  | x :: t => Ok (foldl fmin x t)
  end.

Definition np_max (a : list fval) : result fval :=
  match a with
  | [] => Raise ValueError
  | x :: t => Ok (foldl fmax x t)
  end.

(** [np.mean(a)] and [np.std(a)]; NaN on an empty array. *)
Definition np_mean (a : list fval) : fval :=
  fdiv_count (foldl fadd (Fin 0) a) (length a).

Definition np_std (sqrt : Q → Q) (a : list fval) : fval :=
  let m := np_mean a in
  fsqrt sqrt (np_mean ((λ x, fmul (fsub x m) (fsub x m)) <$> a)).

(** [np.percentile(a, q)] with linear interpolation: the two neighbours of
    the position [q/100 * (n - 1)] in the sorted array, weighted by the
    distance to it; NaN if the array is empty or holds a NaN. *)
Definition np_percentile (a : list fval) (q : Q) : fval :=
  let ap := np_sort a in
  let n := length a in
  if (n =? 0)%nat || existsb is_nan a then NaN
  else
    let index := (q / 100 * inject_Z (Z.of_nat (n - 1)))%Q in
    let below := Z.to_nat (Qfloor index) in
    let above := Nat.min (below + 1) (n - 1) in
    let weight_above := (index - inject_Z (Qfloor index))%Q in
    let weight_below := (1 - weight_above)%Q in
    fadd (fmul (ap !!! below) (Fin weight_below))
         (fmul (ap !!! above) (Fin weight_above)).

(** [int(round(x))] *)
Definition int_round (x : fval) : result Z :=
  match x with
  | Fin q => Ok (py_round q)
  | _ => Raise ValueError
  end.

(** [np.nan_to_num]: NaN becomes zero, an infinity the finite value of
    largest magnitude of its sign. *)
Definition nan_to_num (float_max : Q) (x : fval) : fval :=
  match x with
  | Fin p => Fin p
  | NaN => Fin 0
  | PInf => Fin float_max
  | NInf => Fin (- float_max)
  end.

(** The largest finite float32. *)
Definition float32_max : Q := inject_Z ((2 ^ 24 - 1) * 2 ^ 104).

(** A column read by [root2array] for one branch: a flat array, or an
    object array with one sequence per event. *)
Inductive ndarray : Type :=
  | Flat (values : list fval)
  | Ragged (rows : list (list fval)).

(** [np.concatenate(pieces)] *)
Fixpoint np_concatenate (pieces : list ndarray) : result ndarray :=
  match pieces with
  | [] => Raise ValueError
  | [p] => Ok p
  | p :: t =>
      r ← np_concatenate t;
      match p, r with
      | Flat a, Flat b => Ok (Flat (a ++ b))
      | Ragged a, Ragged b => Ok (Ragged (a ++ b))
      | _, _ => Raise TypeError
      end
  end.

(** ** Python values and JSON documents *)

(** The values an attribute of the object can hold.  [PyObject] stands for
    any object the encoder of [json] rejects, such as a numpy array. *)
Inductive pyval : Type :=
  | PyNone
  | PyBool (b : bool)
  | PyInt (z : Z)
  | PyFloat (x : fval)
  | PyStr (s : string)
  | PyList (l : list pyval)
  | PyTuple (l : list pyval)
  | PyDict (d : list (string * pyval))
  | PyObject.

(** The abstract syntax of a JSON text; the members of an object are in
    the order of the text. *)
Inductive json : Type :=
  | JNull
  | JBool (b : bool)
  | JInt (z : Z)
  | JFloat (x : fval)
  | JStr (s : string)
  | JArr (l : list json)
  | JObj (members : list (string * json)).

Section pyval_ind.
Context (P : pyval → Prop).
Context (HNone : P PyNone) (HBool : ∀ b, P (PyBool b)) (HInt : ∀ z, P (PyInt z))
        (HFloat : ∀ x, P (PyFloat x)) (HStr : ∀ s, P (PyStr s))
        (HList : ∀ l, Forall P l → P (PyList l))
        (HTuple : ∀ l, Forall P l → P (PyTuple l))
        (HDict : ∀ d, Forall (λ kv, P kv.2) d → P (PyDict d))
        (HObject : P PyObject).

(** Induction on values with the hypotheses for the elements. *)
Fixpoint pyval_nested_ind (v : pyval) : P v :=
  match v with
  | PyNone => HNone
  | PyBool b => HBool b
  | PyInt z => HInt z
  | PyFloat x => HFloat x
  | PyStr s => HStr s
  | PyList l =>
      HList l ((fix go l : Forall P l :=
                  match l with
                  | [] => @List.Forall_nil _ _
                  | x :: t => @List.Forall_cons _ P x t (pyval_nested_ind x) (go t)
                  end) l)
  | PyTuple l =>
      HTuple l ((fix go l : Forall P l :=
                   match l with
                   | [] => @List.Forall_nil _ _
                   | x :: t => @List.Forall_cons _ P x t (pyval_nested_ind x) (go t)
                   end) l)
  | PyDict d =>
      HDict d ((fix go d : Forall (λ kv, P kv.2) d :=
                  match d with
                  | [] => @List.Forall_nil _ _
                  | kv :: t => @List.Forall_cons _ (λ kv, P kv.2) kv t (pyval_nested_ind kv.2) (go t)
                  end) d)
  | PyObject => HObject
  end.
End pyval_ind.

(** Sorting the members of a dictionary by key, by insertion. *)
Fixpoint insert_by_key {A} (k : string) (x : A) (l : list (string * A)) : list (string * A) :=
  match l with
  | [] => [(k, x)]
  | (k', y) :: t =>
      if String.leb k k' then (k, x) :: l else (k', y) :: insert_by_key k x t
  end.

Definition sort_keys {A} (l : list (string * A)) : list (string * A) :=
  foldr (λ kv acc, insert_by_key kv.1 kv.2 acc) [] l.

(** The property holds of every element. *)
Fixpoint All {A} (P : A → Prop) (l : list A) : Prop :=
  match l with
  | [] => True
  | x :: t => P x ∧ All P t
  end.

(** [json.dump(v, sort_keys=True)] up to the concrete syntax: tuples are
    written as arrays, the members of every dictionary in key order. *)
Fixpoint dump (v : pyval) : result json :=
  match v with
  | PyNone => Ok JNull
  | PyBool b => Ok (JBool b)
  | PyInt z => Ok (JInt z)
  | PyFloat x => Ok (JFloat x)
  | PyStr s => Ok (JStr s)
  | PyList l | PyTuple l => js ← mapM_result dump l; Ok (JArr js)
  | PyDict d =>
      ms ← mapM_result (λ kv : string * pyval, j ← dump kv.2; Ok (kv.1, j)) d;
      Ok (JObj (sort_keys ms))
  | PyObject => Raise TypeError
  end.

(** [json.load]: arrays are read as lists, objects as dictionaries. *)
Fixpoint load (j : json) : pyval :=
  match j with
  | JNull => PyNone
  | JBool b => PyBool b
  | JInt z => PyInt z
  | JFloat x => PyFloat x
  | JStr s => PyStr s
  | JArr l => PyList (load <$> l)
  | JObj ms => PyDict (prod_map id load <$> ms)
  end.

Definition num_of (v : pyval) : option fval :=
  match v with
  | PyBool b => Some (Fin (if b then 1 else 0))
  | PyInt z => Some (Fin (inject_Z z))
  | PyFloat x => Some x
  | _ => None
  end.

(** [d.get(k)] *)
Fixpoint dict_get {A} (k : string) (d : list (string * A)) : option A :=
  match d with
  | [] => None
  | (k', x) :: t => if String.eqb k' k then Some x else dict_get k t
  end.

Fixpoint list_eqb {A B} (f : A → B → bool) (l : list A) (m : list B) : bool :=
  match l, m with
  | [], [] => true
  | x :: l', y :: m' => f x y && list_eqb f l' m'
  | _, _ => false
  end.

Fixpoint py_eq (v w : pyval) : bool :=
  match v with
  | PyNone => match w with PyNone => true | _ => false end
  | PyStr s => match w with PyStr t => String.eqb s t | _ => false end
  | PyList l => match w with PyList m => list_eqb py_eq l m | _ => false end
  | PyTuple l => match w with PyTuple m => list_eqb py_eq l m | _ => false end
  | PyDict d =>
      match w with
      | PyDict e =>
          (length d =? length e)%nat &&
          forallb (λ kv, match dict_get kv.1 e with
                         | Some y => py_eq kv.2 y
                         | None => false
                         end) d
      | _ => false
      end
  | PyObject => false
  | _ =>
      match num_of v, num_of w with
      | Some x, Some y => feq x y
      | _, _ => false
      end
  end.

(** ** The metadata object *)

(** One entry of [reweight_info]; the key ['class_wgt'] is only added by
    the second loop of [_prepare_reweight_info]. *)
Record reweight_entry : Type := {
  bin_edges : list Q;
  hist : list Q;
  raw_hist : list Q;
  class_wgt : option Q;
}.

(** One entry of [branches_info]. *)
Record branch_info : Type := {
  size : option Z;
  median : fval;
  upper : fval;
  min : fval;
  max : fval;
  mean : fval;
  std : fval;
}.

(** The attributes of a [Metadata] instance.  The list-valued options are
    embedded as lists.  Attributes that [__init__] sets to [None] or does
    not create are options.  [var_groups] is kept in the iteration order
    of the dictionary. *)
Record Metadata : Type := {
  _inputdir : string;
  treename : string;
  reweight_var : string;
  _reweight_events : Z;
  _reweight_bins : list Q;
  _metadata_events : Z;
  selection : option string;
  var_groups : list (string * (list string * option Z));
  var_blacklist : list string;
  var_no_transform_branches : option (list string);
  label_branches : list string;
  var_img : string;
  var_pos : list string;
  n_pixels : Z;
  img_ranges : list (list Q);
  inputfiles : option (list string);
  num_events : option (list Z);
  _total_events : option Z;
  _all_branches : option (list string);
  var_branches : option (list string);
  var_sizes : option (gmap string (option Z));
  reweight_info : option (gmap string reweight_entry);
  branches_info : option (gmap string branch_info);
}.

(** [Metadata.__init__] with the default values of the keyword arguments
    that are not listed. *)
Definition init (inputdir : string) (reweight_bins : list Q)
    (groups : list (string * (list string * option Z)))
    (blacklist label_list : list string) : Metadata :=
  {| _inputdir := inputdir;
     treename := "deepntuplizer/tree";
     reweight_var := "fj_pt";
     _reweight_events := 100000;
     _reweight_bins := reweight_bins;
     _metadata_events := 100000;
     selection := None;
     var_groups := groups;
     var_blacklist := blacklist;
     var_no_transform_branches := None;
     label_branches := label_list;
     var_img := "pfcand_ptrel";
     var_pos := ["pfcand_etarel"; "pfcand_phirel"];
     n_pixels := 64;
     img_ranges := [[-0.8; 0.8]; [-0.8; 0.8]]%Q;
     inputfiles := None;
     num_events := None;
     _total_events := None;
     _all_branches := None;
     var_branches := None;
     var_sizes := None;
     reweight_info := None;
     branches_info := None |}.

Definition set_filelist (self : Metadata) (files : list string) (counts : list Z)
    (total : Z) : Metadata :=
  {| _inputdir := self.(_inputdir);
     treename := self.(treename);
     reweight_var := self.(reweight_var);
     _reweight_events := self.(_reweight_events);
     _reweight_bins := self.(_reweight_bins);
     _metadata_events := self.(_metadata_events);
     selection := self.(selection);
     var_groups := self.(var_groups);
     var_blacklist := self.(var_blacklist);
     var_no_transform_branches := self.(var_no_transform_branches);
     label_branches := self.(label_branches);
     var_img := self.(var_img);
     var_pos := self.(var_pos);
     n_pixels := self.(n_pixels);
     img_ranges := self.(img_ranges);
     inputfiles := Some files;
     num_events := Some counts;
     _total_events := Some total;
     _all_branches := self.(_all_branches);
     var_branches := self.(var_branches);
     var_sizes := self.(var_sizes);
     reweight_info := self.(reweight_info);
     branches_info := self.(branches_info) |}.

Definition set_varlist (self : Metadata) (all_branches vars : list string)
    (sizes : gmap string (option Z)) : Metadata :=
  {| _inputdir := self.(_inputdir);
     treename := self.(treename);
     reweight_var := self.(reweight_var);
     _reweight_events := self.(_reweight_events);
     _reweight_bins := self.(_reweight_bins);
     _metadata_events := self.(_metadata_events);
     selection := self.(selection);
     var_groups := self.(var_groups);
     var_blacklist := self.(var_blacklist);
     var_no_transform_branches := self.(var_no_transform_branches);
     label_branches := self.(label_branches);
     var_img := self.(var_img);
     var_pos := self.(var_pos);
     n_pixels := self.(n_pixels);
     img_ranges := self.(img_ranges);
     inputfiles := self.(inputfiles);
     num_events := self.(num_events);
     _total_events := self.(_total_events);
     _all_branches := Some all_branches;
     var_branches := Some vars;
     var_sizes := Some sizes;
     reweight_info := self.(reweight_info);
     branches_info := self.(branches_info) |}.

Definition set_reweight_info (self : Metadata) (info : gmap string reweight_entry)
  : Metadata :=
  {| _inputdir := self.(_inputdir);
     treename := self.(treename);
     reweight_var := self.(reweight_var);
     _reweight_events := self.(_reweight_events);
     _reweight_bins := self.(_reweight_bins);
     _metadata_events := self.(_metadata_events);
     selection := self.(selection);
     var_groups := self.(var_groups);
     var_blacklist := self.(var_blacklist);
     var_no_transform_branches := self.(var_no_transform_branches);
     label_branches := self.(label_branches);
     var_img := self.(var_img);
     var_pos := self.(var_pos);
     n_pixels := self.(n_pixels);
     img_ranges := self.(img_ranges);
     inputfiles := self.(inputfiles);
     num_events := self.(num_events);
     _total_events := self.(_total_events);
     _all_branches := self.(_all_branches);
     var_branches := self.(var_branches);
     var_sizes := self.(var_sizes);
     reweight_info := Some info;
     branches_info := self.(branches_info) |}.

Definition set_branches_info (self : Metadata) (info : gmap string branch_info)
  : Metadata :=
  {| _inputdir := self.(_inputdir);
     treename := self.(treename);
     reweight_var := self.(reweight_var);
     _reweight_events := self.(_reweight_events);
     _reweight_bins := self.(_reweight_bins);
     _metadata_events := self.(_metadata_events);
     selection := self.(selection);
     var_groups := self.(var_groups);
     var_blacklist := self.(var_blacklist);
     var_no_transform_branches := self.(var_no_transform_branches);
     label_branches := self.(label_branches);
     var_img := self.(var_img);
     var_pos := self.(var_pos);
     n_pixels := self.(n_pixels);
     img_ranges := self.(img_ranges);
     inputfiles := self.(inputfiles);
     num_events := self.(num_events);
     _total_events := self.(_total_events);
     _all_branches := self.(_all_branches);
     var_branches := self.(var_branches);
     var_sizes := self.(var_sizes);
     reweight_info := self.(reweight_info);
     branches_info := Some info |}.

(** The attributes of the object as Python values. *)
Definition py_float (q : Q) : pyval := PyFloat (Fin q).

Definition py_strs (l : list string) : pyval := PyList (PyStr <$> l).

Definition py_floats (l : list Q) : pyval := PyList (py_float <$> l).

Definition py_option {A} (f : A → pyval) (o : option A) : pyval :=
  match o with Some x => f x | None => PyNone end.

(** A group rule [group_name: (regex, num)]. *)
Definition py_group (g : string * (list string * option Z)) : string * pyval :=
  (g.1, PyTuple [py_strs g.2.1; py_option PyInt g.2.2]).

Definition py_reweight_entry (e : reweight_entry) : pyval :=
  PyDict ([("bin_edges", py_floats e.(bin_edges));
           ("hist", py_floats e.(hist));
           ("raw_hist", py_floats e.(raw_hist))]
          ++ match e.(class_wgt) with
             | Some w => [("class_wgt", py_float w)]
             | None => []
             end).

Definition py_branch_info (b : branch_info) : pyval :=
  PyDict [("size", py_option PyInt b.(size));
          ("median", PyFloat b.(median));
          ("upper", PyFloat b.(upper));
          ("min", PyFloat b.(min));
          ("max", PyFloat b.(max));
          ("mean", PyFloat b.(mean));
          ("std", PyFloat b.(std))].

Definition py_map {A} (f : A → pyval) (m : gmap string A) : pyval :=
  PyDict (map_to_list (f <$> m)).

(** An attribute that exists only once it has been assigned. *)
Definition py_attribute {A} (name : string) (f : A → pyval) (o : option A)
  : list (string * pyval) :=
  match o with Some x => [(name, f x)] | None => [] end.

(** [self.__dict__] *)
Definition to_dict (self : Metadata) : gmap string pyval :=
  list_to_map
    ([("_inputdir", PyStr self.(_inputdir));
      ("treename", PyStr self.(treename));
      ("reweight_var", PyStr self.(reweight_var));
      ("_reweight_events", PyInt self.(_reweight_events));
      ("_reweight_bins", py_floats self.(_reweight_bins));
      ("_metadata_events", PyInt self.(_metadata_events));
      ("selection", py_option PyStr self.(selection));
      ("var_groups", PyDict (py_group <$> self.(var_groups)));
      ("var_blacklist", py_strs self.(var_blacklist));
      ("var_no_transform_branches", py_option py_strs self.(var_no_transform_branches));
      ("label_branches", py_strs self.(label_branches));
      ("var_img", PyStr self.(var_img));
      ("var_pos", py_strs self.(var_pos));
      ("n_pixels", PyInt self.(n_pixels));
      ("img_ranges", PyList (py_floats <$> self.(img_ranges)));
      ("inputfiles", py_option py_strs self.(inputfiles));
      ("num_events", py_option (λ l, PyList (PyInt <$> l)) self.(num_events))]
     ++ py_attribute "_total_events" PyInt self.(_total_events)
     ++ py_attribute "_all_branches" py_strs self.(_all_branches)
     ++ py_attribute "var_branches" py_strs self.(var_branches)
     ++ py_attribute "var_sizes" (py_map (py_option PyInt)) self.(var_sizes)
     ++ py_attribute "reweight_info" (py_map py_reweight_entry) self.(reweight_info)
     ++ py_attribute "branches_info" (py_map py_branch_info) self.(branches_info)).

(** ** Collaborators

    What the methods read from outside the object: the directory tree
    under the input directory, the record-count helper, the record reader
    and the regular-expression matcher, the permutation chosen by
    [np.random.shuffle], and two constants of numpy. *)

(** A directory with its sub-directories and its files. *)
Inductive dir : Type :=
  | Dir (name : string) (subdirs : list dir) (files : list string).

Definition dir_name (d : dir) : string := let 'Dir n _ _ := d in n.

(** [os.walk(top)]: top-down, one triple per directory. *)
Fixpoint os_walk (top : string) (d : dir) : list (string * list string * list string) :=
  let 'Dir _ subdirs files := d in
  (top, dir_name <$> subdirs, files)
    :: flat_map (λ s, os_walk (path_join top (dir_name s)) s) subdirs.

(** A record array: one row per event, fields read by name. *)
Definition row : Type := string → Q.

Record collaborators : Type := {
  (** the tree rooted at the input directory *)
  input_tree : dir;
  (** [helper.get_num_events(path, treename)]: a number or a falsy value *)
  get_num_events : string → string → option Z;
  (** the field names of [root2array(file, treename, stop=1)] *)
  root2array_columns : string → string → list string;
  (** [root2array(files, treename, selection, branches=[...], stop)] *)
  root2array_rec : list string → string → option string → list string → option Z → list row;
  (** [root2array(file, treename, selection, branches=var, stop)] *)
  root2array_col : string → string → option string → string → Z → ndarray;
  (** [re.match(regex, name)] is not [None] *)
  re_match : string → string → bool;
  (** the order in which [np.random.shuffle] leaves [arange(n)] *)
  shuffled : nat → list nat;
  (** [np.sqrt] on the finite non-negative values *)
  np_sqrt : Q → Q;
  (** [np.finfo(dtype).max] of the vector branches *)
  float_max : Q;
}.

(** ** File enumerator: [updateFilelist] *)

(** The truth value of what [get_num_events] returns. *)
Definition truthy (n : option Z) : option Z :=
  match n with
  | Some z => if z =? 0 then None else Some z
  | None => None
  end.

(** The inner loop [for f in filenames]. *)
Fixpoint scan_files (env : collaborators) (treename dp : string) (filenames : list string)
    (acc : list string * list Z) : list string * list Z :=
  match filenames with
  | [] => acc
  | f :: rest =>
      if negb (endswith ".root" f) then scan_files env treename dp rest acc
      else
        let fullpath := path_join dp f in
        match truthy (env.(get_num_events) fullpath treename) with
        | Some nevts => scan_files env treename dp rest (acc.1 ++ [fullpath], acc.2 ++ [nevts])
        | None => scan_files env treename dp rest acc
        end
  end.

(** The outer loop [for dp, dn, filenames in os.walk(...)]. *)
Fixpoint scan_dirs (env : collaborators) (treename : string) (test_sample : bool)
    (walk : list (string * list string * list string))
    (acc : list string * list Z) : list string * list Z :=
  match walk with
  | [] => acc
  | (dp, dn, filenames) :: rest =>
      if contains "failed" dp || contains "ignore" dp
      then scan_dirs env treename test_sample rest acc
      else if negb test_sample && contains "test_sample" dp
      then scan_dirs env treename test_sample rest acc
      else if test_sample && negb (contains "test_sample" dp)
      then scan_dirs env treename test_sample rest acc
      else scan_dirs env treename test_sample rest (scan_files env treename dp filenames acc)
  end.

(** [updateFilelist]: the object after the call; the returned pair is
    [(self.inputfiles, self.num_events)]. *)
Definition updateFilelist (env : collaborators) (self : Metadata) (test_sample : bool)
  : Metadata :=
  let '(files, counts) :=
    scan_dirs env self.(treename) test_sample
      (os_walk self.(_inputdir) env.(input_tree)) ([], []) in
  set_filelist self files counts (py_sum counts).

(** ** Variable selector: [_make_varlist] *)

(** The loop over the groups for one branch [k]: the size of the first
    group that has a pattern matching [k]. *)
Fixpoint first_matching_group (env : collaborators) (k : string)
    (groups : list (string * (list string * option Z))) : option (option Z) :=
  match groups with
  | [] => None
  | (_, (regexes, size)) :: rest =>
      if existsb (λ regex, env.(re_match) regex k) regexes then Some size
      else first_matching_group env k rest
  end.

(** The loop [for k in self._all_branches]. *)
Fixpoint select_branches (env : collaborators)
    (groups : list (string * (list string * option Z))) (branches : list string)
    (acc : list string * gmap string (option Z)) : list string * gmap string (option Z) :=
  match branches with
  | [] => acc
  | k :: rest =>
      match first_matching_group env k groups with
      | Some size => select_branches env groups rest (acc.1 ++ [k], <[k := size]> acc.2)
      | None => select_branches env groups rest acc
      end
  end.

(** [self.inputfiles[0]] *)
Definition first_inputfile (self : Metadata) : result string :=
  match self.(inputfiles) with
  | None => Raise TypeError
  | Some [] => Raise IndexError
  | Some (f :: _) => Ok f
  end.

Definition _make_varlist (env : collaborators) (self : Metadata) : result Metadata :=
  f ← first_inputfile self;
  let all_branches := env.(root2array_columns) f self.(treename) in
  let '(vars, sizes) := select_branches env self.(var_groups) all_branches ([], ∅) in
  let vars := foldl remove_if_present vars (self.(var_blacklist) ++ self.(label_branches)) in
  Ok (set_varlist self all_branches vars sizes).

(** ** Reweighting calculator: [_prepare_reweight_info] and [_make_weights] *)

(** [rec[self.reweight_var][rec[label] == 1]] *)
Definition select_label (rec : list row) (label var : string) : list Q :=
  (λ r : row, r var) <$> List.filter (λ r : row, Qeq_bool (r label) 1) rec.

(** The loop [for i in range(len(hist))].  [result[label]['hist']] is the
    view [hist[:]] of the array [hist], so the element read and the element
    written are the same cell of one buffer. *)
Definition reweight_step (ref_val : Q) (buf : list Q) (i : nat) : list Q :=
  match buf !! i with
  | Some c => if Qeq_bool c 0 then buf else <[i := (ref_val / c)%Q]> buf
  | None => buf
  end.

Definition reweight_loop (ref_val : Q) (hist : list Q) : list Q :=
  foldl (reweight_step ref_val) hist (seq 0 (length hist)).

(** The raw histogram of one label as float array. *)
Definition label_hist (self : Metadata) (rec : list row) (label : string)
  : result (list Q) :=
  let a := select_label rec label self.(reweight_var) in
  _ ← py_min self.(_reweight_bins);
  _ ← py_max self.(_reweight_bins);
  h ← np_histogram a self.(_reweight_bins);
  Ok (inject_Z <$> (h : list Z)).

(** [np.min([x for x in hist if x > 0])] *)
Definition ref_of (hist : list Q) : result Q :=
  py_min (List.filter (λ x, Qlt_bool 0 x) hist).

(** The body of the first loop, for one label. *)
Definition reweight_label (self : Metadata) (rec : list row)
    (st : gmap string Q * gmap string reweight_entry) (label : string)
  : result (gmap string Q * gmap string reweight_entry) :=
  let '(class_events, res) := st in
  hist ← label_hist self rec label;
  m ← py_min (tail2 hist);
  if Qlt_bool m 10 then Raise (RuntimeError label)
  else
    ref_val ← ref_of hist;
    Ok (<[label := ref_val]> class_events,
        <[label := {| bin_edges := self.(_reweight_bins);
                      hist := reweight_loop ref_val hist;
                      raw_hist := hist;
                      class_wgt := None |}]> res).

(** The body of the second loop.  An entry that already has its class
    weight has had its ['hist'] converted to a list, which has no
    [tolist]: a label listed twice raises [AttributeError]. *)
Definition class_weight (min_nevt : Q) (class_events : gmap string Q)
    (res : gmap string reweight_entry) (label : string)
  : result (gmap string reweight_entry) :=
  match class_events !! label, res !! label with
  | Some n, Some e =>
      match e.(class_wgt) with
      | Some _ => Raise AttributeError
      | None =>
          Ok (<[label := {| bin_edges := e.(bin_edges);
                            hist := e.(hist);
                            raw_hist := e.(raw_hist);
                            class_wgt := Some (min_nevt / n)%Q |}]> res)
      end
  | _, _ => Raise KeyError
  end.

Definition _prepare_reweight_info (self : Metadata) (rec : list row)
  : result (gmap string reweight_entry) :=
  '(class_events, res) ← foldlM (reweight_label self rec) (∅, ∅) self.(label_branches);
  min_nevt ← py_min ((map_to_list class_events).*2);
  foldlM (class_weight min_nevt class_events) res self.(label_branches).

(** The rows read for the reweighting histograms. *)
Definition reweight_sample (env : collaborators) (self : Metadata) : result (list row) :=
  let branches := self.(label_branches) ++ [self.(reweight_var)] in
  frac ← (if 0 <? self.(_reweight_events) then
            total ← attribute self.(_total_events);
            if total =? 0 then Raise ZeroDivisionError
            else Ok (inject_Z self.(_reweight_events) / inject_Z total)%Q
          else Ok 1%Q);
  files ← sequence self.(inputfiles);
  if Qlt_bool frac 1 then
    counts ← sequence self.(num_events);
    let pieces :=
      (λ fn_n : string * Z,
         env.(root2array_rec) [fn_n.1] self.(treename) self.(selection) branches
           (Some (py_int (frac * inject_Z fn_n.2)))) <$> zip files counts in
    match pieces with
    | [] => Raise ValueError
    | _ => Ok (concat pieces)
    end
  else
    Ok (env.(root2array_rec) files self.(treename) self.(selection) branches None).

(** [_make_weights]: the object after the call and how the call ended.
    The attribute is assigned once [_prepare_reweight_info] has
    returned. *)
Definition _make_weights (env : collaborators) (self : Metadata)
  : Metadata * result unit :=
  match reweight_sample env self with
  | Raise e => (self, Raise e)
  | Ok rec =>
      match _prepare_reweight_info self rec with
      | Raise e => (self, Raise e)
      | Ok info => (set_reweight_info self info, Ok ())
      end
  end.

(** ** Statistics calculator: [_make_infos] *)

(** The truth value of a configured size. *)
Definition size_given (var_size : option Z) : option Z :=
  match var_size with
  | Some z => if z =? 0 then None else Some z
  | None => None
  end.

(** The size of a vector branch and its flattened values. *)
Definition flatten_ragged (env : collaborators) (var_size : option Z)
    (rows : list (list fval)) : result (Z * list fval) :=
  size ← match size_given var_size with
         | Some z => Ok z
         | None =>
             let lengths := (λ row : list fval, Fin (inject_Z (Z.of_nat (length row)))) <$> rows in
             int_round (np_percentile lengths 95)
         end;
  match rows with
  | [] => Raise ValueError
  | _ => Ok (size, nan_to_num env.(float_max) <$> concat rows)
  end.

(** The statistics record of one branch, from the values read for it. *)
Definition make_info (env : collaborators) (var_size : option Z) (a : ndarray)
  : result branch_info :=
  sv ← match a with
       | Flat values => Ok (None, values)
       | Ragged rows => sv ← flatten_ragged env var_size rows; Ok (Some sv.1, sv.2)
       end;
  let values : list fval := sv.2 in
  lo ← np_min values;
  hi ← np_max values;
  Ok {| size := sv.1;
        median := np_percentile values 50;
        upper := np_percentile values 84;
        min := lo;
        max := hi;
        mean := np_mean values;
        std := np_std env.(np_sqrt) values |}.

(** The files sampled for the statistics and the fraction of each. *)
Definition infos_sample (env : collaborators) (self : Metadata)
  : result (option (list string) * option (list Z) * Q) :=
  if 0 <? self.(_metadata_events) then
    total ← attribute self.(_total_events);
    if total =? 0 then Raise ZeroDivisionError
    else
      files ← sequence self.(inputfiles);
      let nfiles := py_int (5 * inject_Z self.(_metadata_events) / inject_Z total
                            * inject_Z (Z.of_nat (length files)))%Q in
      let file_inds := slice_to nfiles (env.(shuffled) (length files)) in
      sampled ← pick files file_inds;
      sampled_counts ← match file_inds with
                       | [] => Ok []
                       | _ => counts ← sequence self.(num_events); pick counts file_inds
                       end;
      if py_sum sampled_counts =? 0 then Raise ZeroDivisionError
      else Ok (Some sampled, Some sampled_counts,
               (inject_Z self.(_metadata_events) / inject_Z (py_sum sampled_counts))%Q)
  else
    Ok (self.(inputfiles), self.(num_events), 1%Q).

(** The values read for one branch. *)
Definition read_branch (env : collaborators) (self : Metadata)
    (files : option (list string)) (counts : option (list Z)) (frac : Q) (var : string)
  : result ndarray :=
  files ← sequence files;
  counts ← sequence counts;
  np_concatenate
    ((λ fn_n : string * Z,
        env.(root2array_col) fn_n.1 self.(treename) self.(selection) var
          (py_int (frac * inject_Z fn_n.2))) <$> zip files counts).

(** The body of the loop for one branch. *)
Definition branch_info_of (env : collaborators) (self : Metadata)
    (files : option (list string)) (counts : option (list Z)) (frac : Q) (var : string)
  : result branch_info :=
  sizes ← attribute self.(var_sizes);
  var_size ← match sizes !! var with
             | Some s => Ok s
             | None => Raise KeyError
             end;
  a ← read_branch env self files counts frac var;
  make_info env var_size a.

(** The loop [for var in self.var_branches]; [self.branches_info] is
    filled in place, one branch after the other. *)
Fixpoint infos_loop (env : collaborators) (self : Metadata)
    (files : option (list string)) (counts : option (list Z)) (frac : Q)
    (infos : gmap string branch_info) (vars : list string) : Metadata * result unit :=
  match vars with
  | [] => (set_branches_info self infos, Ok ())
  | var :: rest =>
      match branch_info_of env self files counts frac var with
      | Raise e => (set_branches_info self infos, Raise e)
      | Ok info => infos_loop env self files counts frac (<[var := info]> infos) rest
      end
  end.

Definition _make_infos (env : collaborators) (self : Metadata) : Metadata * result unit :=
  match infos_sample env self with
  | Raise e => (self, Raise e)
  | Ok (files, counts, frac) =>
      match attribute self.(var_branches) with
      | Raise e => (set_branches_info self ∅, Raise e)
      | Ok vars => infos_loop env self files counts frac ∅ vars
      end
  end.

(** ** Metadata store: [writeMetadata], [loadMetadata], [produceMetadata] *)

(** What a path of the file system holds: a complete document, or the
    beginning of one whose encoding failed. *)
Inductive file : Type :=
  | Document (doc : json)
  | Truncated.

(** [writeMetadata] of an object with the attributes [attrs]: the file
    system after the call and how the call ended. *)
Definition writeMetadata (attrs : gmap string pyval) (filepath : string)
    (fs : gmap string file) : gmap string file * result unit :=
  match dump (PyDict (map_to_list attrs)) with
  | Ok doc => (<[filepath := Document doc]> fs, Ok ())
  | Raise e => (<[filepath := Truncated]> fs, Raise e)
  end.

(** The name follows the convention of the attributes that are not
    loaded. *)
Definition private (name : string) : bool := startswith "_" name.

(** The loop [for k in md] over the members of a dictionary. *)
Definition set_public (attrs : gmap string pyval) (kv : string * pyval)
  : gmap string pyval :=
  if private kv.1 then attrs else <[kv.1 := kv.2]> attrs.

(** [loadMetadata] into an object with the attributes [attrs].  A
    document that is not an object is rejected. *)
Definition loadMetadata (attrs : gmap string pyval) (filepath : string)
    (fs : gmap string file) : result (gmap string pyval) :=
  match fs !! filepath with
  | None => Raise IOError
  | Some Truncated => Raise ValueError
  | Some (Document doc) =>
      match load doc with
      | PyDict md => Ok (foldl set_public attrs md)
      | _ => Raise TypeError
      end
  end.

(** [produceMetadata]: the object and the file system after the call, and
    how the call ended. *)
Definition produceMetadata (env : collaborators) (self : Metadata) (filepath : string)
    (fs : gmap string file) : Metadata * gmap string file * result unit :=
  let self := updateFilelist env self false in
  match _make_varlist env self with
  | Raise e => (self, fs, Raise e)
  | Ok self =>
      match _make_weights env self with
      | (self, Raise e) => (self, fs, Raise e)
      | (self, Ok _) =>
          match _make_infos env self with
          | (self, Raise e) => (self, fs, Raise e)
          | (self, Ok _) =>
              let '(fs, r) := writeMetadata (to_dict self) filepath fs in
              (self, fs, r)
          end
      end
  end.

(** ** Vocabulary of the properties *)

(** The weight the loop leaves in a cell that held the count [c]. *)
Definition bin_weight (ref_val c : Q) : Q :=
  if Qeq_bool c 0 then c else (ref_val / c)%Q.

(** Both of the last two bins hold at least 10 events. *)
Definition tail_bins_ok (counts : list Q) : Prop :=
  counts ≠ [] ∧ ∀ c, c ∈ tail2 counts → (10 <= c)%Q.

(** One of the last two bins holds fewer than 10 events. *)
Definition tail_bins_low (counts : list Q) : Prop :=
  ∃ c, c ∈ tail2 counts ∧ (c < 10)%Q.

(** [r] is the smallest nonzero count of the histogram. *)
Definition is_reference_count (counts : list Q) (r : Q) : Prop :=
  r ∈ counts ∧ (0 < r)%Q ∧ ∀ c, c ∈ counts → (0 < c)%Q → (r <= c)%Q.

(** The label's histogram is computed and passes the tail-bin check. *)
Definition passes_tail_check (self : Metadata) (rec : list row) (label : string) : Prop :=
  ∃ counts, label_hist self rec label = Ok counts ∧ tail_bins_ok counts.

(** [r] is the reference count of [label]: the smallest nonzero count of
    its raw histogram. *)
Definition reference_count (self : Metadata) (rec : list row) (label : string) (r : Q) : Prop :=
  ∃ counts, label_hist self rec label = Ok counts ∧ is_reference_count counts r.

(** The entry of a label when the first loop is done. *)
Definition flat_entry (self : Metadata) (counts : list Q) (ref_val : Q) : reweight_entry :=
  {| bin_edges := self.(_reweight_bins);
     hist := reweight_loop ref_val counts;
     raw_hist := counts;
     class_wgt := None |}.

Definition with_class_wgt (w : Q) (e : reweight_entry) : reweight_entry :=
  {| bin_edges := e.(bin_edges);
     hist := e.(hist);
     raw_hist := e.(raw_hist);
     class_wgt := Some w |}.

(** The sum of a float array. *)
Definition qsum (l : list Q) : Q := foldr Qplus 0%Q l.

(** The sum of an integer array. *)
Definition zsum (l : list Z) : Z := foldr Z.add 0 l.

(** [lo <= v <= hi] *)
Definition in_range (lo hi v : Q) : bool := Qle_bool lo v && Qle_bool v hi.

(** A branch is selected by the group rules. *)
Definition matches_a_group (env : collaborators) (self : Metadata) (k : string) : bool :=
  match first_matching_group env k self.(var_groups) with
  | Some _ => true
  | None => false
  end.

(** The branch is neither blacklisted nor a label. *)
Definition kept (self : Metadata) (k : string) : bool :=
  negb (bool_decide (k ∈ self.(var_blacklist) ++ self.(label_branches))).

(** The members of every object of the document are in key order. *)
Fixpoint keys_sorted (j : json) : Prop :=
  match j with
  | JArr l => All keys_sorted l
  | JObj ms =>
      Sorted (λ k k', String.leb k k' = true) ms.*1 ∧
      All (λ kv : string * json, keys_sorted kv.2) ms
  | _ => True
  end.

(** The value with every tuple replaced by a list. *)
Fixpoint untuple (v : pyval) : pyval :=
  match v with
  | PyList l | PyTuple l => PyList (untuple <$> l)
  | PyDict d => PyDict (prod_map id untuple <$> d)
  | _ => v
  end.

(** What a value is read back as: tuples as lists, dictionaries in key
    order. *)
Fixpoint json_image (v : pyval) : pyval :=
  match v with
  | PyList l | PyTuple l => PyList (json_image <$> l)
  | PyDict d => PyDict (sort_keys (prod_map id json_image <$> d))
  | _ => v
  end.

(** A value the store can write and compare: dictionaries have distinct
    keys, no float is NaN, and there is no foreign object. *)
Fixpoint well_formed (v : pyval) : Prop :=
  match v with
  | PyFloat x => x ≠ NaN
  | PyList l | PyTuple l => All well_formed l
  | PyDict d => NoDup d.*1 ∧ All (λ kv : string * pyval, well_formed kv.2) d
  | PyObject => False
  | _ => True
  end.

(** The attribute [k] of an object after [loadMetadata]. *)
Definition loaded_attribute (target : gmap string pyval) (filepath : string)
    (fs : gmap string file) (k : string) : option pyval :=
  match loadMetadata target filepath fs with
  | Ok loaded => loaded !! k
  | Raise _ => None
  end.

(** The value is a finite zero. *)
Definition is_zero (x : fval) : Prop := ∃ q, x = Fin q ∧ (q == 0)%Q.

Definition is_finite (x : fval) : Prop := ∃ q, x = Fin q.

(** The lengths of the rows of a vector branch, as numpy sees them. *)
Definition row_lengths (rows : list (list fval)) : list fval :=
  (λ row : list fval, Fin (inject_Z (Z.of_nat (length row)))) <$> rows.

(** ** Example inputs *)

(** An event of class [label] with transverse momentum [pt]. *)
Definition event (label : string) (pt : Q) : row :=
  λ field, if String.eqb field label then 1%Q
           else if String.eqb field "fj_pt" then pt else 0%Q.

(** [n_i] events of class [label] in bin [i] of the edges [0, 1, 2, ...]. *)
Fixpoint events_in_bins (label : string) (lo : Z) (counts : list nat) : list row :=
  match counts with
  | [] => []
  | n :: t => repeat (event label (inject_Z lo + 0.5)%Q) n ++ events_in_bins label (lo + 1) t
  end.

Definition unit_bins : Metadata := init "data" [0; 1; 2; 3; 4]%Q [] [] ["A"].

Definition two_classes : Metadata := init "data" [0; 1; 2]%Q [] [] ["A"; "B"].

(** Forty events inside the bins [0, 1, 2, 3, 4], one above the last edge
    and one below the first edge. *)
Definition events_with_outliers : list row :=
  events_in_bins "A" 0 [10; 10; 10; 10]%nat ++ [event "A" 7; event "A" (-1)].

(** Rows of the given lengths. *)
Definition rows_of_lengths (lengths : list nat) : list (list fval) :=
  (λ n, repeat (Fin 1) n) <$> lengths.

(** A small schema and configuration: the blacklisted [fj_pt] and the
    label [label_b] both match the group pattern. *)
Definition example_selector : collaborators :=
  {| input_tree := Dir "data" [] ["a.root"];
     get_num_events := λ _ _, Some 10;
     root2array_columns := λ _ _, ["fj_pt"; "fj_eta"; "label_b"; "npv"];
     root2array_rec := λ _ _ _ _ _, [];
     root2array_col := λ _ _ _ _ _, Flat [];
     re_match := λ regex k, String.prefix regex k;
     shuffled := λ n, seq 0 n;
     np_sqrt := λ q, inject_Z (Z.sqrt (Qfloor q));
     float_max := float32_max |}.

Definition example_config : Metadata :=
  set_filelist
    (init "data" [0; 1; 2]%Q [("fj", (["fj_"; "label_"], None))]
          ["fj_pt"; "not_a_branch"] ["label_b"])
    ["data/a.root"] [10] 10.

Definition example_rows : list row :=
  events_in_bins "label_b" 0 [20; 30]%nat ++ events_in_bins "label_c" 0 [50; 60]%nat.

(** A square root to six decimal places. *)
Definition sqrt_6 (q : Q) : Q :=
  (inject_Z (Z.sqrt (Qfloor (q * 1000000000000))) / 1000000)%Q.

Definition example_run : collaborators :=
  {| input_tree := Dir "data" [Dir "failed" [] ["x.root"]] ["a.root"; "notes.txt"];
     get_num_events := λ _ _, Some 160;
     root2array_columns := λ _ _, ["fj_pt"; "fj_eta"; "pfcand_ptrel"; "label_b"; "label_c"];
     root2array_rec := λ _ _ _ _ _, example_rows;
     root2array_col := λ _ _ _ var _,
       if String.eqb var "pfcand_ptrel"
       then Ragged [[Fin 1; NaN]; [PInf; Fin 0.5; Fin 0.25]; []]
       else Flat [Fin 0.5; Fin (-1); Fin 2];
     re_match := λ regex k, String.prefix regex k;
     shuffled := λ n, seq 0 n;
     np_sqrt := sqrt_6;
     float_max := float32_max |}.

Definition example_object : Metadata :=
  init "data" [0; 1; 2]%Q
       [("fj", (["fj_"], None)); ("pfcand", (["pfcand_"], Some 2))]
       ["fj_pt"] ["label_b"; "label_c"].

(** The same input with too few events in the last bin of [label_c]. *)
Definition example_short_run : collaborators :=
  {| input_tree := example_run.(input_tree);
     get_num_events := example_run.(get_num_events);
     root2array_columns := example_run.(root2array_columns);
     root2array_rec := λ _ _ _ _ _,
       events_in_bins "label_b" 0 [20; 30]%nat ++ events_in_bins "label_c" 0 [50; 6]%nat;
     root2array_col := example_run.(root2array_col);
     re_match := example_run.(re_match);
     shuffled := example_run.(shuffled);
     np_sqrt := example_run.(np_sqrt);
     float_max := example_run.(float_max) |}.

(** The run of [produceMetadata] on the example, into an empty file
    system. *)
Definition example_produced : Metadata * gmap string file * result unit :=
  produceMetadata example_run example_object "md.json" ∅.

(** The example object after the selection and after the reweighting. *)
Definition example_selected : Metadata :=
  match _make_varlist example_run (updateFilelist example_run example_object false) with
  | Ok self => self
  | Raise _ => example_object
  end.

Definition example_weighted : Metadata := (_make_weights example_run example_selected).1.

(** The example object of the short run after the selection. *)
Definition example_short_selected : Metadata :=
  match _make_varlist example_short_run
          (updateFilelist example_short_run example_object false) with
  | Ok self => self
  | Raise _ => example_object
  end.

(** ** Vocabulary of the further properties *)

(** The files of one walked directory that the enumerator lists, with
    their event counts. *)
Definition listed_files (env : collaborators) (treename dp : string)
    (filenames : list string) : list (string * Z) :=
  omap (λ f, if endswith ".root" f
             then (λ n, (path_join dp f, n))
                    <$> truthy (env.(get_num_events) (path_join dp f) treename)
             else None) filenames.

(** The walked directory is scanned under the flag. *)
Definition dir_scanned (test_sample : bool) (dp : string) : bool :=
  negb (contains "failed" dp || contains "ignore" dp)
  && Bool.eqb (contains "test_sample" dp) test_sample.

(** The group is the first of [groups] with a pattern matching [k]. *)
Definition first_group_matching (env : collaborators) (k : string)
    (groups : list (string * (list string * option Z)))
    (g : string * (list string * option Z)) : Prop :=
  ∃ before after,
    groups = before ++ g :: after ∧
    (∃ regex, regex ∈ g.2.1 ∧ env.(re_match) regex k = true) ∧
    ∀ g' regex, g' ∈ before → regex ∈ g'.2.1 → env.(re_match) regex k = false.

(** An input directory without data files. *)
Definition example_no_data : collaborators :=
  {| input_tree := Dir "data" [Dir "ignore" [] ["old.root"]] ["notes.txt"];
     get_num_events := example_run.(get_num_events);
     root2array_columns := example_run.(root2array_columns);
     root2array_rec := example_run.(root2array_rec);
     root2array_col := example_run.(root2array_col);
     re_match := example_run.(re_match);
     shuffled := example_run.(shuffled);
     np_sqrt := example_run.(np_sqrt);
     float_max := example_run.(float_max) |}.

(** One input file of a million events, as [updateFilelist] records it. *)
Definition example_big_file : Metadata :=
  set_varlist
    (set_filelist
       (init "data" [0; 1; 2]%Q [("fj", (["fj_"], None))] [] ["label_b"])
       ["data/big.root"] [1000000] 1000000)
    ["fj_eta"] ["fj_eta"] {["fj_eta" := None]}.

(** The values a statistics record is computed from: the array itself, or
    the rows of a vector branch one after the other. *)
Definition values_read (a : ndarray) : list fval :=
  match a with
  | Flat values => values
  | Ragged rows => concat rows
  end.



(** The attributes [loadMetadata] leaves in a fresh object. *)
Definition reload (target : gmap string pyval) (filepath : string)
    (fs : gmap string file) : gmap string pyval :=
  match loadMetadata target filepath fs with
  | Ok loaded => loaded
  | Raise _ => target
  end.


(** The descriptor of the example run read back. *)
Definition example_reloaded : gmap string pyval :=
  reload ∅ "md.json" example_produced.1.2.



(** The invariants of a produced descriptor: the file and count lists are
    parallel and not empty, the total is the sum of the counts, every
    selected variable has a declared size and a statistics record, and
    every label a reweighting entry with a class weight. *)
Definition complete_descriptor (self : Metadata) : Prop :=
  ∃ files counts vars sizes weights infos,
    self.(inputfiles) = Some files ∧ self.(num_events) = Some counts ∧
    self.(_total_events) = Some (py_sum counts) ∧
    self.(var_branches) = Some vars ∧ self.(var_sizes) = Some sizes ∧
    self.(reweight_info) = Some weights ∧ self.(branches_info) = Some infos ∧
    files ≠ [] ∧ length files = length counts ∧
    (∀ var, var ∈ vars → is_Some (sizes !! var)) ∧
    (∀ var, var ∈ vars ↔ is_Some (infos !! var)) ∧
    (∀ l, l ∈ self.(label_branches) ↔ is_Some (weights !! l)) ∧
    (∀ l e, weights !! l = Some e →
       is_Some e.(class_wgt) ∧ e.(bin_edges) = self.(_reweight_bins) ∧
       length e.(raw_hist) = length e.(hist)).

(** The attributes that [__init__] sets from its arguments. *)
Definition configuration (self : Metadata)
  : string * string * string * Z * list Q * Z * option string
    * list (string * (list string * option Z)) * list string * list string :=
  (self.(_inputdir), self.(treename), self.(reweight_var), self.(_reweight_events),
   self.(_reweight_bins), self.(_metadata_events), self.(selection), self.(var_groups),
   self.(var_blacklist), self.(label_branches)).

(** * Properties *)

(** ** The embedding on small inputs *)

Example np_histogram_edges :
  np_histogram [0; 1; 4; 4.5; -1; 2.5]%Q [0; 1; 2; 3; 4]%Q = Ok [1; 1; 1; 1].
Proof. reflexivity. Qed.

Example np_histogram_unsorted : np_histogram [1]%Q [0; 2; 1]%Q = Raise ValueError.
Proof. reflexivity. Qed.

Example np_percentile_lengths :
  np_percentile (row_lengths (rows_of_lengths [1; 2; 2; 3; 3; 3; 3; 3; 3; 10]%nat)) 95
    = Fin 6.8500.
Proof. reflexivity. Qed.

Example py_round_halves : (py_round 2.5, py_round (-2.5), py_round 6.85) = (3, -3, 7).
Proof. reflexivity. Qed.

Example np_min_nan : np_min [Fin 1; NaN; NInf] = Ok NaN.
Proof. reflexivity. Qed.

Example path_join_examples :
  (path_join "data" "a.root", path_join "data/" "a.root", path_join "data" "/a.root")
    = ("data/a.root", "data/a.root", "/a.root").
Proof. reflexivity. Qed.

Example os_walk_example :
  os_walk "data" (Dir "data" [Dir "failed" [] ["x.root"]] ["a.root"; "notes.txt"])
    = [("data", ["failed"], ["a.root"; "notes.txt"]); ("data/failed", [], ["x.root"])].
Proof. reflexivity. Qed.

Example updateFilelist_example :
  (updateFilelist example_run example_object false).(inputfiles) = Some ["data/a.root"] ∧
  (updateFilelist example_run example_object false).(num_events) = Some [160] ∧
  (updateFilelist example_run example_object true).(inputfiles) = Some [].
Proof. repeat split; reflexivity. Qed.

Example list_remove_first : remove_if_present ["a"; "b"; "a"] "a" = ["b"; "a"].
Proof. reflexivity. Qed.

Example dump_example :
  dump (PyDict [("b", PyTuple [PyInt 1; PyFloat (Fin 0.5)]); ("a", PyNone)])
    = Ok (JObj [("a", JNull); ("b", JArr [JInt 1; JFloat (Fin 0.5)])]).
Proof. reflexivity. Qed.

Example py_eq_examples :
  py_eq (PyInt 1) (PyFloat (Fin 1.0)) = true ∧
  py_eq (PyList [PyInt 1]) (PyTuple [PyInt 1]) = false ∧
  py_eq (PyDict [("a", PyInt 1); ("b", PyNone)]) (PyDict [("b", PyNone); ("a", PyInt 1)]) = true ∧
  py_eq (PyFloat NaN) (PyFloat NaN) = false.
Proof. repeat split; reflexivity. Qed.

Example duplicate_label_raises :
  _prepare_reweight_info (init "data" [0; 1; 2]%Q [] [] ["A"; "A"])
    (events_in_bins "A" 0 [20; 30]%nat) = Raise AttributeError.
Proof. vm_compute. reflexivity. Qed.

(** ** Rational comparisons *)

Lemma Qlt_bool_iff x y : Qlt_bool x y = true ↔ (x < y)%Q.
Proof.
  unfold Qlt_bool. rewrite negb_true_iff.
  split.
  - intros H. apply Qnot_le_lt. intros Hle.
    apply Qle_bool_iff in Hle. congruence.
  - intros H. destruct (Qle_bool y x) eqn:E; [|done].
    apply Qle_bool_iff in E. exfalso. by apply (Qlt_not_le x y).
Qed.

(** ** Results *)

Lemma bind_Ok {A B} (f : A → result B) (m : result A) (b : B) :
  m ≫= f = Ok b ↔ ∃ a, m = Ok a ∧ f a = Ok b.
Proof.
  destruct m as [a|e]; unfold mbind, result_bind; cbn; split.
  - intros H. by exists a.
  - by intros (a' & [= <-] & H).
  - intros [=].
  - by intros (a' & [=] & H).
Qed.

Lemma bind_Raise {A B} (f : A → result B) (m : result A) (e : exn) :
  m ≫= f = Raise e ↔ m = Raise e ∨ ∃ a, m = Ok a ∧ f a = Raise e.
Proof.
  destruct m as [a|e']; unfold mbind, result_bind; cbn; split.
  - intros H. right. by exists a.
  - by intros [[=] | (a' & [= <-] & H)].
  - intros [= ->]. by left.
  - by intros [[= ->] | (a' & [=] & H)].
Qed.

(** ** Python's [min] *)

Lemma qmin_cases x y : (qmin x y = x ∧ (x <= y)%Q) ∨ (qmin x y = y ∧ (y < x)%Q).
Proof.
  unfold qmin. destruct (Qlt_bool y x) eqn:E.
  - right. split; [done|]. by apply Qlt_bool_iff.
  - left. split; [done|]. apply Qnot_lt_le. intros H.
    apply Qlt_bool_iff in H. congruence.
Qed.

Lemma foldl_qmin_spec (t : list Q) (x : Q) :
  (foldl qmin x t = x ∨ foldl qmin x t ∈ t) ∧
  (foldl qmin x t <= x)%Q ∧
  ∀ y, y ∈ t → (foldl qmin x t <= y)%Q.
Proof.
  revert x. induction t as [|z t IH]; intros x; simpl.
  - split; [by left|]. split; [apply Qle_refl|]. intros y Hy. by apply elem_of_nil in Hy.
  - destruct (IH (qmin x z)) as (Hin & Hle & Hall).
    destruct (qmin_cases x z) as [[Hq Hxz] | [Hq Hzx]]; rewrite Hq in *.
    + split; [destruct Hin; [by left | right; by apply elem_of_cons; right]|].
      split; [done|].
      intros y [->|Hy]%elem_of_cons; [by eapply Qle_trans | by apply Hall].
    + split; [right; apply elem_of_cons; destruct Hin; [by left | by right]|].
      split; [eapply Qle_trans; [done | by apply Qlt_le_weak]|].
      intros y [->|Hy]%elem_of_cons; [done | by apply Hall].
Qed.

Lemma py_min_spec (l : list Q) (m : Q) :
  py_min l = Ok m → m ∈ l ∧ ∀ y, y ∈ l → (m <= y)%Q.
Proof.
  destruct l as [|x t]; [done|]. simpl. intros [= <-].
  destruct (foldl_qmin_spec t x) as (Hin & Hle & Hall).
  split.
  - apply elem_of_cons. destruct Hin as [-> | ?]; [by left | by right].
  - intros y [->|Hy]%elem_of_cons; [done | by apply Hall].
Qed.

Lemma py_min_is_Ok (l : list Q) : l ≠ [] → ∃ m, py_min l = Ok m.
Proof. destruct l; [done | eauto]. Qed.

Lemma py_min_Raise (l : list Q) e : py_min l = Raise e → l = [] ∧ e = ValueError.
Proof. destruct l; [by intros [= <-] | done]. Qed.

Lemma py_max_is_Ok (l : list Q) : l ≠ [] → ∃ m, py_max l = Ok m.
Proof. destruct l; [done | eauto]. Qed.

Lemma py_max_Raise (l : list Q) e : py_max l = Raise e → l = [] ∧ e = ValueError.
Proof. destruct l; [by intros [= <-] | done]. Qed.

(** ** The in-place loop *)

Lemma reweight_step_lookup ref_val buf k i :
  reweight_step ref_val buf k !! i =
    if decide (i = k) then bin_weight ref_val <$> buf !! i else buf !! i.
Proof.
  unfold reweight_step, bin_weight. case_decide as Hik.
  - subst i. destruct (buf !! k) as [c|] eqn:Hk; simpl.
    + destruct (Qeq_bool c 0); [done|].
      apply list_lookup_insert_eq. by eapply lookup_lt_Some.
    + done.
  - destruct (buf !! k) as [c|]; [|done].
    destruct (Qeq_bool c 0); [done|]. by apply list_lookup_insert_ne.
Qed.

Lemma reweight_foldl_lookup ref_val n : ∀ k buf i,
  foldl (reweight_step ref_val) buf (seq k n) !! i =
    if decide (k ≤ i < k + n)%nat then bin_weight ref_val <$> buf !! i else buf !! i.
Proof.
  induction n as [|n IH]; intros k buf i; simpl.
  - case_decide; [lia | done].
  - rewrite IH, reweight_step_lookup.
    repeat case_decide; try lia; done.
Qed.

Lemma reweight_loop_lookup ref_val hist i :
  reweight_loop ref_val hist !! i = bin_weight ref_val <$> hist !! i.
Proof.
  unfold reweight_loop. rewrite reweight_foldl_lookup.
  case_decide as H; [done|].
  rewrite lookup_ge_None_2; [done | lia].
Qed.

Lemma reweight_loop_fmap ref_val hist :
  reweight_loop ref_val hist = bin_weight ref_val <$> hist.
Proof.
  apply list_eq. intros i. by rewrite reweight_loop_lookup, list_lookup_fmap.
Qed.

(** ** Histograms *)

Lemma tail2_subseteq {A} (l : list A) (x : A) : x ∈ tail2 l → x ∈ l.
Proof.
  unfold tail2. intros H.
  rewrite <- (take_drop (length l - 2) l). apply elem_of_app. by right.
Qed.

Lemma tail2_nonempty {A} (l : list A) : l ≠ [] → tail2 l ≠ [].
Proof.
  unfold tail2. intros Hl Hd.
  apply (f_equal length) in Hd. rewrite length_drop in Hd. simpl in Hd.
  destruct l; [done | simpl in Hd; lia].
Qed.

Lemma tail2_nil_inv {A} (l : list A) : tail2 l = [] → l = [].
Proof. intros H. destruct (decide (length l = 0%nat)) as [E|E].
  - by destruct l.
  - exfalso. apply (tail2_nonempty l); [by intros -> | done].
Qed.

Lemma length_np_diff (l : list Z) : length (np_diff l) = (length l - 1)%nat.
Proof.
  induction l as [|x [|y t] IH]; [done | done |].
  change (np_diff (x :: y :: t)) with ((y - x) :: np_diff (y :: t)).
  simpl length in *. lia.
Qed.

Lemma length_search_sorted_inclusive (a bins : list Q) :
  length (search_sorted_inclusive a bins) = length bins.
Proof.
  induction bins as [|e [|e' t] IH]; [done | done |].
  change (search_sorted_inclusive a (e :: e' :: t))
    with (count_if (λ x, Qlt_bool x e) a :: search_sorted_inclusive a (e' :: t)).
  simpl length in *. lia.
Qed.

Lemma np_histogram_Raise a bins e : np_histogram a bins = Raise e → e = ValueError.
Proof. unfold np_histogram. destruct (monotone bins); [done | by intros [= <-]]. Qed.

Lemma np_histogram_length a bins h :
  np_histogram a bins = Ok h → length h = (length bins - 1)%nat.
Proof.
  unfold np_histogram. destruct (monotone bins); [|done].
  intros [= <-]. by rewrite length_np_diff, length_search_sorted_inclusive.
Qed.

Lemma np_histogram_is_Ok a a' bins h :
  np_histogram a bins = Ok h → ∃ h', np_histogram a' bins = Ok h'.
Proof.
  unfold np_histogram. destruct (monotone bins); [eauto | done].
Qed.

Section label_hist.
Context (self : Metadata) (rec : list row).

Lemma label_hist_Raise label e : label_hist self rec label = Raise e → e = ValueError.
Proof.
  unfold label_hist. intros H.
  apply bind_Raise in H as [H | (? & _ & H)]; [by apply py_min_Raise in H as [_ ->]|].
  apply bind_Raise in H as [H | (? & _ & H)]; [by apply py_max_Raise in H as [_ ->]|].
  apply bind_Raise in H as [H | (? & _ & H)]; [by apply np_histogram_Raise in H | done].
Qed.

Lemma label_hist_Ok label counts :
  label_hist self rec label = Ok counts ↔
  self.(_reweight_bins) ≠ [] ∧
  ∃ h, np_histogram (select_label rec label self.(reweight_var)) self.(_reweight_bins) = Ok h
       ∧ counts = inject_Z <$> h.
Proof.
  unfold label_hist. split.
  - intros H.
    apply bind_Ok in H as (lo & Hlo & H).
    apply bind_Ok in H as (hi & Hhi & H).
    apply bind_Ok in H as (h & Hh & [= <-]).
    split; [|eauto]. intros E. by rewrite E in Hlo.
  - intros (Hne & h & Hh & ->).
    destruct (py_min_is_Ok _ Hne) as [lo ->].
    destruct (py_max_is_Ok _ Hne) as [hi ->].
    cbn. by rewrite Hh.
Qed.

Lemma label_hist_length label counts :
  label_hist self rec label = Ok counts →
  length counts = (length self.(_reweight_bins) - 1)%nat.
Proof.
  intros (_ & h & Hh & ->)%label_hist_Ok.
  rewrite length_fmap. by eapply np_histogram_length.
Qed.

Lemma label_hist_uniform l l' counts :
  label_hist self rec l = Ok counts →
  ∃ counts', label_hist self rec l' = Ok counts' ∧ length counts' = length counts.
Proof.
  intros H. pose proof (label_hist_length _ _ H) as Hlen.
  apply label_hist_Ok in H as (Hne & h & Hh & ->).
  destruct (np_histogram_is_Ok _ (select_label rec l' self.(reweight_var)) _ _ Hh) as [h' Hh'].
  assert (label_hist self rec l' = Ok (inject_Z <$> h')) as H'.
  { apply label_hist_Ok. eauto. }
  eexists. split; [done|].
  rewrite (label_hist_length _ _ H'). by rewrite Hlen.
Qed.

End label_hist.

Lemma ref_of_spec counts r : ref_of counts = Ok r → is_reference_count counts r.
Proof.
  unfold ref_of. intros [Hin Hmin]%py_min_spec.
  apply list_elem_of_In, filter_In in Hin as [Hin Hpos].
  apply Qlt_bool_iff in Hpos.
  split; [by apply list_elem_of_In|]. split; [done|].
  intros c Hc Hcpos. apply Hmin.
  apply list_elem_of_In, filter_In. split; [by apply list_elem_of_In|].
  by apply Qlt_bool_iff.
Qed.

Lemma ref_of_is_Ok counts c : c ∈ counts → (0 < c)%Q → ∃ r, ref_of counts = Ok r.
Proof.
  intros Hc Hpos. apply py_min_is_Ok. intros E.
  assert (In c (List.filter (λ x, Qlt_bool 0 x) counts)) as Hin.
  { apply filter_In. split; [by apply list_elem_of_In | by apply Qlt_bool_iff]. }
  by rewrite E in Hin.
Qed.

Lemma ref_of_Raise counts e : ref_of counts = Raise e → e = ValueError.
Proof. by intros [_ ->]%py_min_Raise. Qed.

(** ** The first loop of [_prepare_reweight_info] *)

Lemma foldlM_cons {A B} (f : A → B → result A) (a : A) (b : B) (t : list B) :
  foldlM f a (b :: t) = f a b ≫= λ a', foldlM f a' t.
Proof. done. Qed.

Lemma result_bind_Ok {A B} (f : A → result B) (a : A) : Ok a ≫= f = f a.
Proof. done. Qed.

Section first_loop.
Context (self : Metadata) (rec : list row).

Lemma reweight_label_passes ce res label counts :
  label_hist self rec label = Ok counts → tail_bins_ok counts →
  ∃ r, ref_of counts = Ok r ∧
    reweight_label self rec (ce, res) label =
      Ok (<[label := r]> ce, <[label := flat_entry self counts r]> res).
Proof.
  intros Hh [Hne Htail]. unfold reweight_label. rewrite Hh. cbn.
  destruct (py_min_is_Ok _ (tail2_nonempty _ Hne)) as [m Hm].
  rewrite Hm. cbn.
  apply py_min_spec in Hm as [Hin _].
  pose proof (Htail _ Hin) as H10.
  destruct (Qlt_bool m 10) eqn:E.
  { apply Qlt_bool_iff in E. lra. }
  destruct (ref_of_is_Ok counts m) as [r Hr];
    [by apply tail2_subseteq | lra |].
  exists r. split; [done|]. by rewrite Hr.
Qed.

Lemma reweight_label_low ce res label counts :
  label_hist self rec label = Ok counts → tail_bins_low counts →
  reweight_label self rec (ce, res) label = Raise (RuntimeError label).
Proof.
  intros Hh (c & Hc & Hlow). unfold reweight_label. rewrite Hh. cbn.
  destruct (py_min_is_Ok (tail2 counts)) as [m Hm].
  { intros E. rewrite E in Hc. by apply elem_of_nil in Hc. }
  rewrite Hm. cbn.
  apply py_min_spec in Hm as [_ Hmin].
  pose proof (Hmin _ Hc) as Hle.
  destruct (Qlt_bool m 10) eqn:E; [done|].
  assert (¬ (m < 10)%Q) by (rewrite <- Qlt_bool_iff; congruence). lra.
Qed.

Lemma reweight_label_RuntimeError st label cat :
  reweight_label self rec st label = Raise (RuntimeError cat) →
  cat = label ∧ ∃ counts, label_hist self rec label = Ok counts ∧ tail_bins_low counts.
Proof.
  destruct st as [ce res]. unfold reweight_label. intros H.
  apply bind_Raise in H as [H | (counts & Hh & H)];
    [by apply label_hist_Raise in H|].
  apply bind_Raise in H as [H | (m & Hm & H)];
    [by apply py_min_Raise in H as [_ ?]|].
  destruct (Qlt_bool m 10) eqn:E.
  - injection H as <-. split; [done|]. exists counts. split; [done|].
    exists m. split; [by apply py_min_spec in Hm as [? _] | by apply Qlt_bool_iff].
  - apply bind_Raise in H as [H | (? & _ & H)]; [by apply ref_of_Raise in H | done].
Qed.

(** A histogram either passes the check, fails it, or is empty. *)
Lemma tail_bins_dec counts : counts ≠ [] → tail_bins_ok counts ∨ tail_bins_low counts.
Proof.
  intros Hne.
  destruct (py_min_is_Ok _ (tail2_nonempty _ Hne)) as [m Hm].
  apply py_min_spec in Hm as [Hin Hmin].
  destruct (Qlt_le_dec m 10) as [Hlt | Hge].
  - right. by exists m.
  - left. split; [done|]. intros c Hc. specialize (Hmin c Hc). lra.
Qed.

Lemma first_loop_Ok labels : ∀ ce res,
  (∀ l, l ∈ labels → passes_tail_check self rec l) →
  ∃ ce' res', foldlM (reweight_label self rec) (ce, res) labels = Ok (ce', res') ∧
    ∀ l, (l ∈ labels →
            ∃ counts r, label_hist self rec l = Ok counts ∧ ref_of counts = Ok r ∧
              ce' !! l = Some r ∧ res' !! l = Some (flat_entry self counts r)) ∧
         (l ∉ labels → ce' !! l = ce !! l ∧ res' !! l = res !! l).
Proof.
  induction labels as [|l0 t IH]; intros ce res Hall.
  - exists ce, res. split; [done|]. intros l. split; [by intros ?%elem_of_nil | done].
  - destruct (Hall l0) as (counts & Hh & Hok); [by left|].
    destruct (reweight_label_passes ce res l0 counts Hh Hok) as (r & Hr & Hstep).
    destruct (IH (<[l0 := r]> ce) (<[l0 := flat_entry self counts r]> res))
      as (ce' & res' & Hloop & Hspec).
    { intros l Hl. apply Hall. by right. }
    exists ce', res'. split.
    { by rewrite foldlM_cons, Hstep, result_bind_Ok. }
    intros l. destruct (Hspec l) as [Hin Hout]. split.
    + intros Hl. destruct (decide (l ∈ t)) as [Ht | Ht]; [by apply Hin|].
      apply elem_of_cons in Hl as [-> | Hl]; [|done].
      destruct (Hout Ht) as [-> ->].
      exists counts, r. by rewrite !lookup_insert_eq.
    + intros Hl. apply not_elem_of_cons in Hl as [Hne Hl].
      destruct (Hout Hl) as [-> ->].
      by rewrite !lookup_insert_ne.
Qed.

Lemma first_loop_RuntimeError labels : ∀ st cat,
  foldlM (reweight_label self rec) st labels = Raise (RuntimeError cat) →
  cat ∈ labels ∧ ∃ counts, label_hist self rec cat = Ok counts ∧ tail_bins_low counts.
Proof.
  induction labels as [|l0 t IH]; intros st cat; [done|].
  rewrite foldlM_cons. intros H. apply bind_Raise in H as [H | (st' & _ & H)].
  - apply reweight_label_RuntimeError in H as [-> H]. split; [by left | done].
  - destruct (IH _ _ H) as [Hin Hlow]. split; [by right | done].
Qed.

Lemma first_loop_low labels : ∀ st,
  (∀ l, l ∈ labels → ∃ counts, label_hist self rec l = Ok counts ∧ counts ≠ []) →
  (∃ l counts, l ∈ labels ∧ label_hist self rec l = Ok counts ∧ tail_bins_low counts) →
  ∃ cat, foldlM (reweight_label self rec) st labels = Raise (RuntimeError cat).
Proof.
  induction labels as [|l0 t IH]; intros [ce res] Hall (l & counts & Hl & Hh & Hlow).
  { by apply elem_of_nil in Hl. }
  destruct (Hall l0) as (c0 & Hh0 & Hne0); [by left|].
  destruct (tail_bins_dec c0 Hne0) as [Hok | Hlow0].
  - destruct (reweight_label_passes ce res l0 c0 Hh0 Hok) as (r & _ & Hstep).
    rewrite foldlM_cons, Hstep, result_bind_Ok. apply IH.
    + intros l' Hl'. apply Hall. by right.
    + apply elem_of_cons in Hl as [-> | Hl].
      * exfalso. rewrite Hh in Hh0. injection Hh0 as ->.
        destruct Hok as [_ Hok], Hlow as (c & Hc & Hlt).
        specialize (Hok c Hc). lra.
      * eauto.
  - exists l0. by rewrite foldlM_cons, (reweight_label_low ce res l0 c0 Hh0 Hlow0).
Qed.
End first_loop.

(** ** The second loop of [_prepare_reweight_info] *)

Section second_loop.
Context (min_nevt : Q) (ce : gmap string Q).

Lemma class_weight_Raise res label e :
  class_weight min_nevt ce res label = Raise e → e = KeyError ∨ e = AttributeError.
Proof.
  unfold class_weight.
  destruct (ce !! label); [destruct (res !! label) as [entry|]|];
    [destruct entry.(class_wgt)| |]; intros [= <-]; auto.
Qed.

Lemma class_weight_Ok (res : gmap string reweight_entry) label n e :
  ce !! label = Some n → res !! label = Some e → e.(class_wgt) = None →
  class_weight min_nevt ce res label =
    Ok (<[label := with_class_wgt (min_nevt / n) e]> res).
Proof. unfold class_weight. by intros -> -> ->. Qed.

Lemma second_loop_Raise labels : ∀ res e,
  foldlM (class_weight min_nevt ce) res labels = Raise e →
  e = KeyError ∨ e = AttributeError.
Proof.
  induction labels as [|l0 t IH]; intros res e; [done|].
  rewrite foldlM_cons. intros [H | (res' & _ & H)]%bind_Raise.
  - by eapply class_weight_Raise.
  - by eapply IH.
Qed.

Lemma second_loop_Ok labels : ∀ res : gmap string reweight_entry,
  NoDup labels →
  (∀ l, l ∈ labels →
     is_Some (ce !! l) ∧ ∃ e, res !! l = Some e ∧ e.(class_wgt) = None) →
  ∃ res', foldlM (class_weight min_nevt ce) res labels = Ok res' ∧
    ∀ l, (l ∈ labels → ∀ n e, ce !! l = Some n → res !! l = Some e →
            res' !! l = Some (with_class_wgt (min_nevt / n) e)) ∧
         (l ∉ labels → res' !! l = res !! l).
Proof.
  induction labels as [|l0 t IH]; intros res Hnd Hall.
  - exists res. split; [done|]. intros l. split; [by intros ?%elem_of_nil | done].
  - apply NoDup_cons in Hnd as [Hl0 Hnd].
    destruct (Hall l0) as [[n0 Hn0] (e0 & He0 & Hw0)]; [by left|].
    set (res1 := <[l0 := with_class_wgt (min_nevt / n0) e0]> res).
    destruct (IH res1 Hnd) as (res' & Hloop & Hspec).
    { intros l Hl. destruct (Hall l) as [? ?]; [by right|]. split; [done|].
      unfold res1. rewrite lookup_insert_ne; [done|]. by intros ->. }
    exists res'. split.
    { by rewrite foldlM_cons, (class_weight_Ok _ _ _ _ Hn0 He0 Hw0), result_bind_Ok. }
    intros l. destruct (Hspec l) as [Hin Hout]. split.
    + intros Hl n e Hn He. apply elem_of_cons in Hl as [-> | Hl].
      * rewrite (Hout Hl0). unfold res1. rewrite lookup_insert_eq. congruence.
      * apply (Hin Hl n e Hn). unfold res1. rewrite lookup_insert_ne; [done|].
        by intros ->.
    + intros Hl. apply not_elem_of_cons in Hl as [Hne Hl].
      rewrite (Hout Hl). unfold res1. by rewrite lookup_insert_ne.
Qed.
End second_loop.

(** ** The result of a run in which every label passes the check *)

Section reweight_info.
Context (self : Metadata) (rec : list row).

Lemma prepare_reweight_info_Ok :
  self.(label_branches) ≠ [] →
  NoDup self.(label_branches) →
  (∀ l, l ∈ self.(label_branches) → passes_tail_check self rec l) →
  ∃ res min_nevt,
    _prepare_reweight_info self rec = Ok res ∧
    (∃ l0 c0, l0 ∈ self.(label_branches) ∧ label_hist self rec l0 = Ok c0 ∧
              ref_of c0 = Ok min_nevt) ∧
    ∀ l, l ∈ self.(label_branches) →
      ∃ counts r, label_hist self rec l = Ok counts ∧ ref_of counts = Ok r ∧
        (min_nevt <= r)%Q ∧
        res !! l = Some (with_class_wgt (min_nevt / r) (flat_entry self counts r)).
Proof.
  intros Hne Hnd Hall.
  destruct (first_loop_Ok self rec _ ∅ ∅ Hall) as (ce & res1 & Hloop & Hspec).
  assert ((map_to_list ce).*2 ≠ []) as Hvals.
  { destruct self.(label_branches) as [|l0 t] eqn:E; [done|].
    destruct (Hspec l0) as [Hin _].
    destruct Hin as (c & r & _ & _ & Hce & _); [by left|].
    intros Hnil. apply fmap_nil_inv in Hnil.
    apply map_to_list_empty_iff in Hnil. by rewrite Hnil in Hce. }
  destruct (py_min_is_Ok _ Hvals) as [m Hm].
  destruct (second_loop_Ok m ce self.(label_branches) res1 Hnd) as (res & Hloop2 & Hspec2).
  { intros l Hl. destruct (Hspec l) as [Hin _].
    destruct (Hin Hl) as (c & r & _ & _ & -> & ->). eauto. }
  exists res, m. split.
  { unfold _prepare_reweight_info. rewrite Hloop, result_bind_Ok.
    by rewrite Hm, result_bind_Ok. }
  apply py_min_spec in Hm as [Hmin Hmle].
  split.
  - apply list_elem_of_fmap in Hmin as ([l0 v] & -> & Hl0).
    apply elem_of_map_to_list in Hl0. simpl.
    destruct (decide (l0 ∈ self.(label_branches))) as [Hin | Hout].
    + destruct (Hspec l0) as [H _].
      destruct (H Hin) as (c0 & r0 & Hh & Hr & Hce & _).
      exists l0, c0. rewrite Hl0 in Hce. injection Hce as ->. done.
    + destruct (Hspec l0) as [_ H]. destruct (H Hout) as [Hce _].
      by rewrite Hl0 in Hce.
  - intros l Hl. destruct (Hspec l) as [H _].
    destruct (H Hl) as (counts & r & Hh & Hr & Hce & Hres).
    exists counts, r. split; [done|]. split; [done|]. split.
    + apply Hmle. apply list_elem_of_fmap. exists (l, r). split; [done|].
      by apply elem_of_map_to_list.
    + destruct (Hspec2 l) as [H2 _]. by apply H2.
Qed.
End reweight_info.

(** ** Claims on the reweighting calculator *)





Lemma is_reference_count_unique counts r r' :
  is_reference_count counts r → is_reference_count counts r' → (r == r')%Q.
Proof.
  intros (Hin & Hpos & Hmin) (Hin' & Hpos' & Hmin').
  apply Qle_antisym; [by apply Hmin | by apply Hmin'].
Qed.

(** C2.  In a run over distinct labels where every label passes the
    tail-bin check, every label's class weight is the global minimum of the reference counts
    divided by the label's own reference count; it never exceeds 1 and is
    1 for a label whose reference count is the global minimum. *)
Theorem class_weights_balance (self : Metadata) (rec : list row) :
  self.(label_branches) ≠ [] →
  NoDup self.(label_branches) →
  (∀ l, l ∈ self.(label_branches) → passes_tail_check self rec l) →
  ∃ res min_nevt,
    _prepare_reweight_info self rec = Ok res ∧
    (∃ l0, l0 ∈ self.(label_branches) ∧ reference_count self rec l0 min_nevt) ∧
    (∀ l r, l ∈ self.(label_branches) → reference_count self rec l r → (min_nevt <= r)%Q) ∧
    ∀ l, l ∈ self.(label_branches) →
      ∃ e r w,
        res !! l = Some e ∧
        reference_count self rec l r ∧
        e.(class_wgt) = Some w ∧
        w = (min_nevt / r)%Q ∧
        (w <= 1)%Q ∧
        ((r == min_nevt)%Q → (w == 1)%Q).
Proof.
  intros Hne Hnd Hall.
  destruct (prepare_reweight_info_Ok self rec Hne Hnd Hall)
    as (res & m & Hres & (l0 & c0 & Hl0 & Hh0 & Hr0) & Hspec).
  exists res, m. split; [done|]. split.
  { exists l0. split; [done|]. exists c0. split; [done | by apply ref_of_spec]. }
  split.
  { intros l r Hl (counts & Hh & Href).
    destruct (Hspec l Hl) as (counts' & r' & Hh' & Hr' & Hle & _).
    rewrite Hh in Hh'. injection Hh' as <-.
    apply ref_of_spec in Hr'.
    rewrite (is_reference_count_unique _ _ _ Href Hr'). done. }
  intros l Hl.
  destruct (Hspec l Hl) as (counts & r & Hh & Hr & Hle & Hlook).
  pose proof (ref_of_spec _ _ Hr) as Href.
  exists (with_class_wgt (m / r) (flat_entry self counts r)), r, (m / r)%Q.
  split; [done|]. split; [by exists counts|]. split; [done|]. split; [done|].
  destruct Href as (_ & Hpos & _).
  split.
  - apply Qle_shift_div_r; [done | lra].
  - intros Heq. rewrite <- Heq. field. lra.
Qed.

(** The hypotheses of [class_weights_balance] hold for the classes [A] and
    [B] with the reference counts 20 and 50, whose class weights are 1.0
    and 0.4. *)
Lemma class_weights_balance_witness :
  ∃ res eA eB,
    _prepare_reweight_info two_classes
      (events_in_bins "A" 0 [20; 30]%nat ++ events_in_bins "B" 0 [50; 60]%nat) = Ok res ∧
    reference_count two_classes
      (events_in_bins "A" 0 [20; 30]%nat ++ events_in_bins "B" 0 [50; 60]%nat) "A" 20 ∧
    reference_count two_classes
      (events_in_bins "A" 0 [20; 30]%nat ++ events_in_bins "B" 0 [50; 60]%nat) "B" 50 ∧
    res !! "A" = Some eA ∧ res !! "B" = Some eB ∧
    (∃ w, eA.(class_wgt) = Some w ∧ (w == 1.0)%Q) ∧
    (∃ w, eB.(class_wgt) = Some w ∧ (w == 0.4)%Q).
Proof.
  set (rec := events_in_bins "A" 0 [20; 30]%nat ++ events_in_bins "B" 0 [50; 60]%nat).
  assert (label_hist two_classes rec "A" = Ok [20; 30]%Q) as HA by (vm_compute; reflexivity).
  assert (label_hist two_classes rec "B" = Ok [50; 60]%Q) as HB by (vm_compute; reflexivity).
  assert (∀ r, is_reference_count [20; 30]%Q r → r = 20%Q) as HrA.
  { intros r (Hin & Hpos & Hmin).
    apply list_elem_of_In in Hin. simpl in Hin.
    destruct Hin as [<- | [<- | []]]; [done|].
    specialize (Hmin 20%Q). exfalso.
    assert (30 <= 20)%Q; [apply Hmin; [by left | done] | lra]. }
  assert (∀ r, is_reference_count [50; 60]%Q r → r = 50%Q) as HrB.
  { intros r (Hin & Hpos & Hmin).
    apply list_elem_of_In in Hin. simpl in Hin.
    destruct Hin as [<- | [<- | []]]; [done|].
    specialize (Hmin 50%Q). exfalso.
    assert (60 <= 50)%Q; [apply Hmin; [by left | done] | lra]. }
  destruct (class_weights_balance two_classes rec) as (res & m & Hres & Hm & Hmin & Hspec).
  { discriminate. }
  { apply NoDup_ListNoDup. repeat constructor; simpl; intuition discriminate. }
  { intros l Hl. apply list_elem_of_In in Hl. simpl in Hl.
    destruct Hl as [<- | [<- | []]].
    - exists [20; 30]%Q. split; [done|]. split; [discriminate|].
      intros c Hc. apply list_elem_of_In in Hc. simpl in Hc.
      destruct Hc as [<- | [<- | []]]; discriminate.
    - exists [50; 60]%Q. split; [done|]. split; [discriminate|].
      intros c Hc. apply list_elem_of_In in Hc. simpl in Hc.
      destruct Hc as [<- | [<- | []]]; discriminate. }
  destruct (Hspec "A") as (eA & rA & wA & HeA & (cA & HcA & HrefA) & HwA & -> & _ & _);
    [by left|].
  destruct (Hspec "B") as (eB & rB & wB & HeB & (cB & HcB & HrefB) & HwB & -> & _ & _);
    [by right; left|].
  rewrite HA in HcA. injection HcA as <-. rewrite HB in HcB. injection HcB as <-.
  apply HrA in HrefA as ->. apply HrB in HrefB as ->.
  assert (m == 20)%Q as Hm20.
  { destruct Hm as (l0 & Hl0 & (c0 & Hc0 & Href0)).
    apply Qle_antisym.
    - apply (Hmin "A" 20%Q); [by left|]. exists [20; 30]%Q. split; [done|].
      split; [by left|]. split; [done|].
      intros c Hc _. apply list_elem_of_In in Hc. simpl in Hc.
      destruct Hc as [<- | [<- | []]]; discriminate.
    - apply list_elem_of_In in Hl0. simpl in Hl0.
      destruct Hl0 as [<- | [<- | []]].
      + rewrite HA in Hc0. injection Hc0 as <-. by apply HrA in Href0 as ->.
      + rewrite HB in Hc0. injection Hc0 as <-. by apply HrB in Href0 as ->. }
  exists res, eA, eB. split; [done|].
  split. { exists [20; 30]%Q. split; [done|]. split; [by left|]. split; [done|].
    intros c Hc _. apply list_elem_of_In in Hc. simpl in Hc.
    destruct Hc as [<- | [<- | []]]; discriminate. }
  split. { exists [50; 60]%Q. split; [done|]. split; [by left|]. split; [done|].
    intros c Hc _. apply list_elem_of_In in Hc. simpl in Hc.
    destruct Hc as [<- | [<- | []]]; discriminate. }
  split; [done|]. split; [done|]. split.
  - eexists. split; [done|]. rewrite Hm20. reflexivity.
  - eexists. split; [done|]. rewrite Hm20. reflexivity.
Defined.

(** The not-enough-events error is raised exactly when some label fails
    the tail-bin check. *)
Lemma prepare_reweight_info_RuntimeError (self : Metadata) (rec : list row) :
  (∃ cat, _prepare_reweight_info self rec = Raise (RuntimeError cat)) ↔
  (∃ l counts, l ∈ self.(label_branches) ∧
     label_hist self rec l = Ok counts ∧ tail_bins_low counts).
Proof.
  split.
  - intros [cat H]. unfold _prepare_reweight_info in H.
    apply bind_Raise in H as [H | ([ce res] & _ & H)].
    + apply first_loop_RuntimeError in H as (Hin & counts & Hh & Hlow). eauto.
    + apply bind_Raise in H as [H | (m & _ & H)].
    * by apply py_min_Raise in H as [_ ?].
    * by apply second_loop_Raise in H as [? | ?].
  - intros (l & counts & Hl & Hh & Hlow).
    destruct (first_loop_low self rec self.(label_branches) (∅, ∅)) as [cat Hcat].
    + intros l' Hl'.
      destruct (label_hist_uniform self rec l l' counts Hh) as (counts' & Hh' & Hlen).
      exists counts'. split; [done|]. intros ->.
      destruct Hlow as (c & Hc & _). apply tail2_subseteq in Hc.
      destruct counts; [by apply elem_of_nil in Hc | done].
    + eauto.
    + exists cat. unfold _prepare_reweight_info. by rewrite Hcat.
Qed.

(** C3.  The calculator raises the not-enough-events error if and only if
    some label has one of the last two bins of its raw histogram below 10;
    it does so for the histogram [100, 100, 5, 3]. *)
Theorem insufficient_tail_raises :
  (∀ (self : Metadata) (rec : list row),
    (∃ cat, _prepare_reweight_info self rec = Raise (RuntimeError cat)) ↔
    (∃ l counts, l ∈ self.(label_branches) ∧
       label_hist self rec l = Ok counts ∧ tail_bins_low counts)) ∧
  label_hist unit_bins (events_in_bins "A" 0 [100; 100; 5; 3]%nat) "A"
    = Ok [100; 100; 5; 3]%Q ∧
  _prepare_reweight_info unit_bins (events_in_bins "A" 0 [100; 100; 5; 3]%nat)
    = Raise (RuntimeError "A").
Proof.
  split; [|split; vm_compute; reflexivity].
  apply prepare_reweight_info_RuntimeError.
Qed.

(** ** What [np.histogram] counts *)

Lemma count_if_nonneg p a : 0 ≤ count_if p a.
Proof. unfold count_if. lia. Qed.

Lemma count_if_cons p x a :
  count_if p (x :: a) = (if p x then 1 else 0) + count_if p a.
Proof. unfold count_if. simpl. destruct (p x); simpl length; lia. Qed.

Lemma count_if_ext p q a : (∀ x, p x = q x) → count_if p a = count_if q a.
Proof.
  intros H. induction a as [|x a IH]; [done|].
  by rewrite !count_if_cons, IH, H.
Qed.

Lemma Qle_bool_false x y : Qle_bool x y = false ↔ (y < x)%Q.
Proof.
  split.
  - intros H. apply Qnot_le_lt. intros Hle. apply Qle_bool_iff in Hle. congruence.
  - intros H. destruct (Qle_bool x y) eqn:E; [|done].
    apply Qle_bool_iff in E. lra.
Qed.

Lemma Qlt_bool_false x y : Qlt_bool x y = false ↔ (y <= x)%Q.
Proof.
  unfold Qlt_bool. rewrite negb_false_iff. apply Qle_bool_iff.
Qed.

(** The values up to [hi] that are not below [lo] are the values in
    [lo, hi]. *)
Lemma count_if_range lo hi a :
  (lo <= hi)%Q →
  count_if (λ x, Qle_bool x hi) a - count_if (λ x, Qlt_bool x lo) a
    = count_if (in_range lo hi) a.
Proof.
  intros Hle. induction a as [|x a IH]; [done|].
  rewrite !count_if_cons, <- IH. unfold in_range.
  destruct (Qle_bool x hi) eqn:E1, (Qlt_bool x lo) eqn:E2, (Qle_bool lo x) eqn:E3;
    simpl; try lia; exfalso;
    repeat match goal with
    | H : Qle_bool _ _ = true |- _ => apply Qle_bool_iff in H
    | H : Qle_bool _ _ = false |- _ => apply Qle_bool_false in H
    | H : Qlt_bool _ _ = true |- _ => apply Qlt_bool_iff in H
    | H : Qlt_bool _ _ = false |- _ => apply Qlt_bool_false in H
    end; lra.
Qed.

Lemma last_cons_default {A} (t : list A) : ∀ x y, List.last (y :: t) x = List.last t y.
Proof.
  induction t as [|z t IH]; intros x y; [done|].
  change (List.last (y :: z :: t) x) with (List.last (z :: t) x).
  by rewrite (IH x z), (IH y z).
Qed.

(** The differences of a sequence telescope. *)
Lemma zsum_np_diff x l : zsum (np_diff (x :: l)) = List.last l x - x.
Proof.
  revert x. induction l as [|y t IH]; intros x; [unfold zsum; simpl; lia|].
  change (np_diff (x :: y :: t)) with ((y - x) :: np_diff (y :: t)).
  change (zsum ((y - x) :: np_diff (y :: t))) with ((y - x) + zsum (np_diff (y :: t))).
  rewrite IH, (last_cons_default t x y). lia.
Qed.

Lemma search_sorted_inclusive_cons a e e' t :
  search_sorted_inclusive a (e :: e' :: t)
    = count_if (λ x, Qlt_bool x e) a :: search_sorted_inclusive a (e' :: t).
Proof. done. Qed.

Lemma last_search_sorted_inclusive a e t d :
  List.last (search_sorted_inclusive a (e :: t)) d
    = count_if (λ x, Qle_bool x (List.last t e)) a.
Proof.
  revert e d. induction t as [|e' t IH]; intros e d; [done|].
  by rewrite search_sorted_inclusive_cons, !last_cons_default, IH.
Qed.

Lemma monotone_cons x y t : monotone (x :: y :: t) = Qle_bool x y && monotone (y :: t).
Proof. done. Qed.

Lemma monotone_bounds x t :
  monotone (x :: t) = true →
  (x <= List.last t x)%Q ∧ ∀ y, y ∈ x :: t → (x <= y)%Q ∧ (y <= List.last t x)%Q.
Proof.
  revert x. induction t as [|z t IH]; intros x Hm.
  - simpl. split; [lra|]. intros y Hy. apply list_elem_of_In in Hy as [<- | []]. lra.
  - rewrite monotone_cons in Hm. apply andb_true_iff in Hm as [Hxz Hm].
    apply Qle_bool_iff in Hxz. destruct (IH z Hm) as [Hzl Hall].
    rewrite last_cons_default.
    split; [lra|]. intros y Hy. apply elem_of_cons in Hy as [-> | Hy]; [lra|].
    destruct (Hall y Hy). lra.
Qed.

Lemma zsum_inject_Z (h : list Z) : (qsum (inject_Z <$> h) == inject_Z (zsum h))%Q.
Proof.
  induction h as [|z h IH]; [done|].
  simpl. rewrite IH. by rewrite inject_Z_plus.
Qed.

Lemma qmax_cases x y : (qmax x y = x ∧ (y <= x)%Q) ∨ (qmax x y = y ∧ (x < y)%Q).
Proof.
  unfold qmax. destruct (Qlt_bool x y) eqn:E.
  - right. split; [done|]. by apply Qlt_bool_iff.
  - left. split; [done|]. by apply Qlt_bool_false.
Qed.

Lemma foldl_qmax_spec (t : list Q) (x : Q) :
  (foldl qmax x t = x ∨ foldl qmax x t ∈ t) ∧
  (x <= foldl qmax x t)%Q ∧
  ∀ y, y ∈ t → (y <= foldl qmax x t)%Q.
Proof.
  revert x. induction t as [|z t IH]; intros x; simpl.
  - split; [by left|]. split; [lra|]. intros y Hy. by apply elem_of_nil in Hy.
  - destruct (IH (qmax x z)) as (Hin & Hle & Hall).
    destruct (qmax_cases x z) as [[Hq Hxz] | [Hq Hzx]]; rewrite Hq in *.
    + split; [destruct Hin; [by left | right; by apply elem_of_cons; right]|].
      split; [done|].
      intros y [->|Hy]%elem_of_cons; [lra | by apply Hall].
    + split; [right; apply elem_of_cons; destruct Hin; [by left | by right]|].
      split; [lra|].
      intros y [->|Hy]%elem_of_cons; [done | by apply Hall].
Qed.

Lemma py_max_spec (l : list Q) (m : Q) :
  py_max l = Ok m → m ∈ l ∧ ∀ y, y ∈ l → (y <= m)%Q.
Proof.
  destruct l as [|x t]; [done|]. simpl. intros [= <-].
  destruct (foldl_qmax_spec t x) as (Hin & Hle & Hall).
  split.
  - apply elem_of_cons. destruct Hin as [-> | ?]; [by left | by right].
  - intros y [->|Hy]%elem_of_cons; [done | by apply Hall].
Qed.

Lemma last_elem_of {A} (t : list A) (x : A) : List.last t x ∈ x :: t.
Proof.
  revert x. induction t as [|y t IH]; intros x; [by left|].
  right. rewrite last_cons_default. apply IH.
Qed.

Lemma Qle_bool_proper x x' y y' :
  (x == x')%Q → (y == y')%Q → Qle_bool x y = Qle_bool x' y'.
Proof.
  intros Hx Hy.
  destruct (Qle_bool x y) eqn:E1, (Qle_bool x' y') eqn:E2; try done; exfalso;
    repeat match goal with
    | H : Qle_bool _ _ = true |- _ => apply Qle_bool_iff in H
    | H : Qle_bool _ _ = false |- _ => apply Qle_bool_false in H
    end; lra.
Qed.

Lemma np_histogram_total a bins h lo hi :
  np_histogram a bins = Ok h → (2 ≤ length bins)%nat →
  py_min bins = Ok lo → py_max bins = Ok hi →
  zsum h = count_if (in_range lo hi) a.
Proof.
  unfold np_histogram. destruct (monotone bins) eqn:Hm; [|done].
  intros [= <-] Hlen Hlo Hhi.
  destruct bins as [|e0 [|e1 t]]; [simpl in Hlen; lia | simpl in Hlen; lia |].
  rewrite search_sorted_inclusive_cons, zsum_np_diff, last_search_sorted_inclusive.
  destruct (monotone_bounds e0 (e1 :: t) Hm) as [Hle Hall].
  rewrite <- (last_cons_default t e0 e1).
  rewrite count_if_range by done.
  apply py_min_spec in Hlo as [Hlo_in Hlo_min].
  apply py_max_spec in Hhi as [Hhi_in Hhi_max].
  assert ((lo == e0)%Q) as Elo.
  { apply Qle_antisym; [apply Hlo_min; by left | by apply Hall]. }
  assert ((hi == List.last (e1 :: t) e0)%Q) as Ehi.
  { apply Qle_antisym; [by apply Hall | apply Hhi_max, last_elem_of]. }
  apply count_if_ext. intros x. unfold in_range.
  f_equal; apply Qle_bool_proper; lra.
Qed.

Lemma count_if_le_length p a : count_if p a ≤ Z.of_nat (length a).
Proof.
  induction a as [|x a IH]; [done|].
  rewrite count_if_cons. simpl length. destruct (p x); lia.
Qed.

(** C4 (amended).  With at least one bin, the raw histogram of a label
    counts exactly the selected rows whose reweight variable lies in
    [minimum bin edge, maximum bin edge]: the sum of the counts is the
    number of those rows, and the selected rows outside that interval are
    in no bin. *)
Theorem histogram_counts_rows_in_range (self : Metadata) (rec : list row)
    (label : string) (counts : list Q) :
  label_hist self rec label = Ok counts →
  (2 ≤ length self.(_reweight_bins))%nat →
  ∃ lo hi,
    py_min self.(_reweight_bins) = Ok lo ∧
    py_max self.(_reweight_bins) = Ok hi ∧
    (qsum counts ==
       inject_Z (count_if (in_range lo hi) (select_label rec label self.(reweight_var))))%Q ∧
    (qsum counts <=
       inject_Z (Z.of_nat (length (select_label rec label self.(reweight_var)))))%Q.
Proof.
  intros Hh Hlen.
  apply label_hist_Ok in Hh as (Hne & h & Hh & ->).
  destruct (py_min_is_Ok _ Hne) as [lo Hlo].
  destruct (py_max_is_Ok _ Hne) as [hi Hhi].
  exists lo, hi. split; [done|]. split; [done|].
  rewrite zsum_inject_Z, (np_histogram_total _ _ _ lo hi Hh Hlen Hlo Hhi).
  split; [done|].
  rewrite <- Zle_Qle. apply count_if_le_length.
Qed.

(** The hypotheses of [histogram_counts_rows_in_range] hold for the events
    with outliers: 40 of the 42 selected rows are counted. *)
Lemma histogram_counts_rows_in_range_witness :
  ∃ lo hi,
    py_min unit_bins.(_reweight_bins) = Ok lo ∧
    py_max unit_bins.(_reweight_bins) = Ok hi ∧
    (qsum [10; 10; 10; 10] ==
       inject_Z (count_if (in_range lo hi)
                   (select_label events_with_outliers "A" unit_bins.(reweight_var))))%Q ∧
    (qsum [10; 10; 10; 10] <=
       inject_Z (Z.of_nat (length
                   (select_label events_with_outliers "A" unit_bins.(reweight_var)))))%Q.
Proof.
  apply (histogram_counts_rows_in_range unit_bins events_with_outliers "A").
  - vm_compute. reflexivity.
  - simpl. lia.
Defined.

(** C4 as stated fails: a value above the last edge and a value below the
    first edge are in no bin, so the counts sum to 40 for 42 selected
    rows, in a run that returns this very histogram. *)
Lemma histogram_clipping_counterexample :
  length (select_label events_with_outliers "A" unit_bins.(reweight_var)) = 42%nat ∧
  label_hist unit_bins events_with_outliers "A" = Ok [10; 10; 10; 10]%Q ∧
  (∃ res e, _prepare_reweight_info unit_bins events_with_outliers = Ok res ∧
     res !! "A" = Some e ∧ e.(raw_hist) = [10; 10; 10; 10]%Q) ∧
  ¬ (qsum [10; 10; 10; 10] == 42)%Q.
Proof.
  split; [vm_compute; reflexivity|].
  split; [vm_compute; reflexivity|].
  split; [|vm_compute; discriminate].
  eexists _, _. split; [vm_compute; reflexivity|].
  split; [vm_compute; reflexivity | done].
Qed.

(** ** File enumerator *)

Lemma py_sum_zsum (l : list Z) : py_sum l = zsum l.
Proof.
  unfold py_sum, zsum.
  assert (∀ a, foldl Z.add a l = a + foldr Z.add 0 l) as H.
  { induction l as [|x l IH]; intros a; simpl; [lia|]. rewrite IH. lia. }
  by rewrite H.
Qed.

Section enumerator.
Context (env : collaborators) (tree_name : string).

Lemma scan_files_parallel dp filenames : ∀ acc,
  length acc.1 = length acc.2 →
  length (scan_files env tree_name dp filenames acc).1
    = length (scan_files env tree_name dp filenames acc).2.
Proof.
  induction filenames as [|f rest IH]; intros acc Hacc; [done|].
  simpl. destruct (negb (endswith ".root" f)); [by apply IH|].
  destruct (truthy _); [|by apply IH].
  apply IH. simpl. rewrite !length_app. simpl. lia.
Qed.

Lemma scan_dirs_parallel test_sample walk : ∀ acc,
  length acc.1 = length acc.2 →
  length (scan_dirs env tree_name test_sample walk acc).1
    = length (scan_dirs env tree_name test_sample walk acc).2.
Proof.
  induction walk as [|[[dp dn] filenames] rest IH]; intros acc Hacc; [done|].
  simpl.
  destruct (contains "failed" dp || contains "ignore" dp); [by apply IH|].
  destruct (negb test_sample && contains "test_sample" dp); [by apply IH|].
  destruct (test_sample && negb (contains "test_sample" dp)); [by apply IH|].
  by apply IH, scan_files_parallel.
Qed.
End enumerator.

(** C8.  After [updateFilelist], whatever the directory tree, the record
    counter and the flag, the file list and the event-count list have the
    same length and the recorded total is the sum of the event counts. *)
Theorem filelist_parallel_and_total (env : collaborators) (self : Metadata)
    (test_sample : bool) :
  ∃ files counts,
    (updateFilelist env self test_sample).(inputfiles) = Some files ∧
    (updateFilelist env self test_sample).(num_events) = Some counts ∧
    length files = length counts ∧
    (updateFilelist env self test_sample).(_total_events) = Some (zsum counts).
Proof.
  unfold updateFilelist.
  pose proof (scan_dirs_parallel env self.(treename) test_sample
                (os_walk self.(_inputdir) env.(input_tree)) ([], []) eq_refl) as H.
  destruct (scan_dirs _ _ _ _ _) as [files counts]. simpl in H.
  exists files, counts. simpl. by rewrite py_sum_zsum.
Qed.

(** ** Variable selector *)

Lemma select_branches_fst env groups branches : ∀ acc,
  (select_branches env groups branches acc).1
    = acc.1 ++ List.filter
        (λ k, match first_matching_group env k groups with Some _ => true | None => false end)
        branches.
Proof.
  induction branches as [|k rest IH]; intros acc; simpl.
  - by rewrite app_nil_r.
  - destruct (first_matching_group env k groups); rewrite IH; simpl; [|done].
    by rewrite <- app_assoc.
Qed.

Lemma NoDup_List_filter {A} (p : A → bool) (l : list A) : NoDup l → NoDup (List.filter p l).
Proof.
  induction 1 as [|x l Hx Hl IH]; simpl; [constructor|].
  destruct (p x); [|done]. constructor; [|done].
  intros Hin. apply Hx. apply list_elem_of_In, filter_In in Hin as [Hin _].
  by apply list_elem_of_In.
Qed.

Lemma List_filter_filter {A} (p q : A → bool) (l : list A) :
  List.filter q (List.filter p l) = List.filter (λ x, p x && q x) l.
Proof.
  induction l as [|x l IH]; [done|]. simpl.
  destruct (p x); simpl; [destruct (q x); by rewrite IH | done].
Qed.

Lemma List_filter_all {A} (p : A → bool) (l : list A) :
  (∀ x, x ∈ l → p x = true) → List.filter p l = l.
Proof.
  induction l as [|x l IH]; intros H; [done|]. simpl.
  rewrite (H x) by (by left). f_equal. apply IH. intros y Hy. apply H. by right.
Qed.

(** On a list without duplicates, removing the first occurrence removes
    the element. *)
Lemma remove_if_present_NoDup (l : list string) (x : string) :
  NoDup l →
  remove_if_present l x = List.filter (λ y, negb (String.eqb y x)) l.
Proof.
  unfold remove_if_present. induction 1 as [|y l Hy Hl IH]; [done|]. simpl.
  destruct (String.eqb_spec y x) as [-> | Hne]; simpl.
  - symmetry. apply List_filter_all. intros z Hz.
    apply negb_true_iff, String.eqb_neq. by intros ->.
  - destruct (list_remove x l) as [l'|e]; simpl; by rewrite <- IH.
Qed.

Lemma foldl_remove_if_present_NoDup (rm : list string) : ∀ l : list string,
  NoDup l →
  foldl remove_if_present l rm = List.filter (λ y, negb (bool_decide (y ∈ rm))) l.
Proof.
  induction rm as [|x rm IH]; intros l Hl; simpl.
  - symmetry. by apply List_filter_all.
  - rewrite (remove_if_present_NoDup l x Hl).
    rewrite IH by (by apply NoDup_List_filter).
    rewrite List_filter_filter. apply filter_ext. intros y.
    destruct (String.eqb_spec y x) as [-> | Hne]; simpl.
    + symmetry. apply negb_false_iff, bool_decide_eq_true. by left.
    + f_equal. apply bool_decide_ext. rewrite elem_of_cons. tauto.
Qed.

(** C9.  With at least one input file and distinct field names in the
    schema, the selector returns, and the final variable list consists, in
    schema order, of the fields that match a group and are neither
    blacklisted nor labels: no blacklisted field and no label field is in
    it, and entries of the blacklist or of the label list that were never
    selected raise no error. *)
Theorem blacklist_and_labels_removed (env : collaborators) (self : Metadata)
    (f : string) (rest : list string) :
  self.(inputfiles) = Some (f :: rest) →
  NoDup (env.(root2array_columns) f self.(treename)) →
  ∃ self' vars,
    _make_varlist env self = Ok self' ∧
    self'.(var_branches) = Some vars ∧
    vars = List.filter (λ k, matches_a_group env self k && kept self k)
             (env.(root2array_columns) f self.(treename)) ∧
    ∀ v, v ∈ self.(var_blacklist) ++ self.(label_branches) → v ∉ vars.
Proof.
  intros Hfiles Hnodup.
  unfold _make_varlist, first_inputfile. rewrite Hfiles, result_bind_Ok.
  pose proof (select_branches_fst env self.(var_groups)
                (env.(root2array_columns) f self.(treename)) ([], ∅)) as Hsel.
  destruct (select_branches _ _ _ _) as [vars sizes]. simpl in Hsel. subst vars.
  eexists _, _. split; [done|]. split; [done|].
  rewrite foldl_remove_if_present_NoDup by (by apply NoDup_List_filter).
  rewrite List_filter_filter. split; [done|].
  intros v Hv Hin.
  apply list_elem_of_In, filter_In in Hin as [_ Hin].
  apply andb_true_iff in Hin as [_ Hin].
  apply negb_true_iff, bool_decide_eq_false in Hin. done.
Qed.

(** The hypotheses of [blacklist_and_labels_removed] hold for the example
    configuration, where [fj_pt] and [label_b] match the group and are
    removed, and the blacklist entry [not_a_branch] is tolerated. *)
Lemma blacklist_and_labels_removed_witness :
  ∃ self',
    _make_varlist example_selector example_config = Ok self' ∧
    self'.(var_branches) = Some ["fj_eta"] ∧
    ∀ v, v ∈ example_config.(var_blacklist) ++ example_config.(label_branches) →
         v ∉ ["fj_eta"].
Proof.
  destruct (blacklist_and_labels_removed example_selector example_config
              "data/a.root" []) as (self' & vars & Hrun & Hvars & Heq & Hout).
  - reflexivity.
  - simpl. apply NoDup_ListNoDup. repeat constructor; simpl; intuition discriminate.
  - exists self'. vm_compute in Heq. subst vars. done.
Defined.

(** ** The JSON store *)

Lemma All_Forall {A} (P : A → Prop) (l : list A) : All P l ↔ Forall P l.
Proof.
  induction l as [|x l IH]; simpl.
  - split; [constructor | done].
  - rewrite IH. split; [intros [? ?]; by constructor | by inversion 1].
Qed.

Lemma mapM_result_Ok {A B} (f : A → result B) (l : list A) (ys : list B) :
  mapM_result f l = Ok ys ↔ Forall2 (λ x y, f x = Ok y) l ys.
Proof.
  revert ys. induction l as [|x l IH]; intros ys; simpl.
  - split; [intros [= <-]; constructor | by inversion 1].
  - split.
    + intros (y & Hy & H)%bind_Ok. apply bind_Ok in H as (ys' & Hys & [= <-]).
      constructor; [done | by apply IH].
    + inversion 1 as [|? y ? ys' Hy Hys]; subst.
      apply IH in Hys. by rewrite Hy, result_bind_Ok, Hys.
Qed.

(** *** Sorting by key *)

Lemma insert_by_key_Permutation {A} (k : string) (x : A) (l : list (string * A)) :
  insert_by_key k x l ≡ₚ (k, x) :: l.
Proof.
  induction l as [|[k' y] l IH]; simpl; [done|].
  destruct (String.leb k k'); [done|]. rewrite IH. apply Permutation_swap.
Qed.

Lemma sort_keys_cons {A} (k : string) (x : A) (l : list (string * A)) :
  sort_keys ((k, x) :: l) = insert_by_key k x (sort_keys l).
Proof. done. Qed.

Lemma sort_keys_Permutation {A} (l : list (string * A)) : sort_keys l ≡ₚ l.
Proof.
  induction l as [|[k x] l IH]; [done|].
  rewrite sort_keys_cons, insert_by_key_Permutation. by rewrite IH.
Qed.

Lemma insert_by_key_fmap {A B} (f : A → B) k x (l : list (string * A)) :
  insert_by_key k (f x) (prod_map id f <$> l) = prod_map id f <$> insert_by_key k x l.
Proof.
  induction l as [|[k' y] l IH]; csimpl; [done|].
  destruct (String.leb k k'); csimpl; [done|]. by rewrite IH.
Qed.

Lemma sort_keys_fmap {A B} (f : A → B) (l : list (string * A)) :
  sort_keys (prod_map id f <$> l) = prod_map id f <$> sort_keys l.
Proof.
  induction l as [|[k x] l IH]; [done|].
  rewrite fmap_cons. change (prod_map id f (k, x)) with (k, f x).
  by rewrite !sort_keys_cons, IH, insert_by_key_fmap.
Qed.

Lemma insert_by_key_Sorted {A} (k : string) (x : A) (l : list (string * A)) :
  Sorted (λ k k', String.leb k k' = true) l.*1 →
  Sorted (λ k k', String.leb k k' = true) (insert_by_key k x l).*1.
Proof.
  induction l as [|[k' y] l IH]; simpl; intros Hs.
  - by repeat constructor.
  - destruct (String.leb k k') eqn:E; simpl.
    + constructor; [done | by constructor].
    + apply Sorted_inv in Hs as [Hs Hhd]. constructor; [by apply IH|].
      destruct l as [|[k'' z] l]; simpl.
      * constructor. destruct (String.leb_total k k') as [H|H]; [congruence | done].
      * destruct (String.leb k k''); simpl; constructor.
        -- destruct (String.leb_total k k') as [H|H]; [congruence | done].
        -- by inversion Hhd.
Qed.

Lemma sort_keys_Sorted {A} (l : list (string * A)) :
  Sorted (λ k k', String.leb k k' = true) (sort_keys l).*1.
Proof.
  induction l as [|[k x] l IH]; [constructor|].
  rewrite sort_keys_cons. by apply insert_by_key_Sorted.
Qed.

(** *** Writing and reading back a value *)

Lemma dump_load (v : pyval) : ∀ j, dump v = Ok j → load j = json_image v.
Proof.
  induction v as [| | | | |l IH|l IH|d IH|] using pyval_nested_ind; intros j; simpl;
    try (by intros [= <-]).
  - intros (js & Hjs & [= <-])%bind_Ok. simpl. f_equal.
    apply mapM_result_Ok in Hjs.
    induction Hjs as [|x y l js Hxy Hjs IHl]; [done|].
    apply Forall_cons in IH as [IHx IH]. simpl. rewrite (IHx _ Hxy). f_equal. by apply IHl.
  - intros (js & Hjs & [= <-])%bind_Ok. simpl. f_equal.
    apply mapM_result_Ok in Hjs.
    induction Hjs as [|x y l js Hxy Hjs IHl]; [done|].
    apply Forall_cons in IH as [IHx IH]. simpl. rewrite (IHx _ Hxy). f_equal. by apply IHl.
  - intros (ms & Hms & [= <-])%bind_Ok. simpl. f_equal.
    rewrite <- sort_keys_fmap. f_equal.
    apply mapM_result_Ok in Hms.
    induction Hms as [|[k x] [k' y] d ms Hxy Hms IHd]; [done|].
    apply Forall_cons in IH as [IHx IH]. simpl in *.
    apply bind_Ok in Hxy as (j & Hj & [= <- <-]).
    rewrite (IHx _ Hj). f_equal. by apply IHd.
Qed.

Lemma dump_keys_sorted (v : pyval) : ∀ j, dump v = Ok j → keys_sorted j.
Proof.
  induction v as [| | | | |l IH|l IH|d IH|] using pyval_nested_ind; intros j; simpl;
    try (by intros [= <-]).
  - intros (js & Hjs & [= <-])%bind_Ok. simpl. apply All_Forall.
    apply mapM_result_Ok in Hjs.
    induction Hjs as [|x y l js Hxy Hjs IHl]; [constructor|].
    apply Forall_cons in IH as [IHx IH]. constructor; [by apply IHx | by apply IHl].
  - intros (js & Hjs & [= <-])%bind_Ok. simpl. apply All_Forall.
    apply mapM_result_Ok in Hjs.
    induction Hjs as [|x y l js Hxy Hjs IHl]; [constructor|].
    apply Forall_cons in IH as [IHx IH]. constructor; [by apply IHx | by apply IHl].
  - intros (ms & Hms & [= <-])%bind_Ok. simpl. split; [apply sort_keys_Sorted|].
    apply All_Forall. rewrite sort_keys_Permutation.
    apply mapM_result_Ok in Hms.
    induction Hms as [|[k x] [k' y] d ms Hxy Hms IHd]; [constructor|].
    apply Forall_cons in IH as [IHx IH]. simpl in *.
    apply bind_Ok in Hxy as (j & Hj & [= <- <-]).
    constructor; [by apply IHx | by apply IHd].
Qed.

(** *** Python's equality on what is read back *)

Lemma feq_refl (x : fval) : x ≠ NaN → feq x x = true.
Proof. destruct x; simpl; [intros _; by apply Qeq_bool_iff | done | done | done]. Qed.

Lemma list_eqb_fmap {A B C} (f : B → C → bool) (g : A → B) (h : A → C) (l : list A) :
  Forall (λ x, f (g x) (h x) = true) l → list_eqb f (g <$> l) (h <$> l) = true.
Proof.
  induction 1 as [|x l Hx Hl IH]; [done|]. csimpl. by rewrite Hx, IH.
Qed.

Lemma dict_get_fmap_NoDup {A B} (f : A → B) (l : list (string * A)) k x :
  NoDup l.*1 → (k, x) ∈ l → dict_get k (prod_map id f <$> l) = Some (f x).
Proof.
  induction l as [|[k' y] l IH]; csimpl; intros Hnd Hin.
  - by apply elem_of_nil in Hin.
  - apply NoDup_cons in Hnd as [Hk' Hnd].
    apply elem_of_cons in Hin as [[= -> ->] | Hin].
    + by rewrite String.eqb_refl.
    + destruct (String.eqb_spec k' k) as [-> | Hne]; [|by apply IH].
      exfalso. apply Hk'. apply list_elem_of_fmap. by exists (k, x).
Qed.

Lemma py_eq_json_image (v : pyval) :
  well_formed v → py_eq (json_image v) (untuple v) = true.
Proof.
  induction v as [|b|z|x|s|l IH|l IH|d IH|] using pyval_nested_ind; simpl; try done.
  - intros _. destruct b; by apply Qeq_bool_iff.
  - intros _. by apply Qeq_bool_iff.
  - destruct x; simpl; try done. intros _. by apply Qeq_bool_iff.
  - intros _. apply String.eqb_refl.
  - intros Hwf%All_Forall. apply list_eqb_fmap.
    rewrite Forall_forall in *. intros x Hx. by apply IH, Hwf.
  - intros Hwf%All_Forall. apply list_eqb_fmap.
    rewrite Forall_forall in *. intros x Hx. by apply IH, Hwf.
  - intros [Hnd Hwf%All_Forall]. apply andb_true_iff. split.
    + apply Nat.eqb_eq. by rewrite sort_keys_Permutation, !length_fmap.
    + apply forallb_forall. intros [k y] Hin.
      apply list_elem_of_In in Hin. rewrite sort_keys_Permutation in Hin.
      apply list_elem_of_fmap in Hin as ([k' x] & [= -> ->] & Hin). simpl.
      rewrite (dict_get_fmap_NoDup untuple d k' x Hnd Hin).
      rewrite Forall_forall in IH, Hwf.
      by apply (IH (k', x) Hin), (Hwf (k', x) Hin).
Qed.

(** *** Loading the members of a document *)

Lemma foldl_set_public_private (md : list (string * pyval)) : ∀ attrs k,
  private k = true → foldl set_public attrs md !! k = attrs !! k.
Proof.
  induction md as [|[k' v] md IH]; intros attrs k Hk; [done|].
  simpl. rewrite IH by done. unfold set_public. simpl.
  destruct (private k') eqn:E; [done|].
  apply lookup_insert_ne. intros ->. congruence.
Qed.

Lemma foldl_set_public_other (md : list (string * pyval)) : ∀ attrs k,
  k ∉ md.*1 → foldl set_public attrs md !! k = attrs !! k.
Proof.
  induction md as [|[k' v] md IH]; intros attrs k Hk; [done|].
  csimpl in *. apply not_elem_of_cons in Hk as [Hne Hk].
  rewrite IH by done. unfold set_public. simpl.
  destruct (private k'); [done|]. by apply lookup_insert_ne.
Qed.

Lemma foldl_set_public_lookup (md : list (string * pyval)) : ∀ attrs k v,
  NoDup md.*1 → (k, v) ∈ md → private k = false →
  foldl set_public attrs md !! k = Some v.
Proof.
  induction md as [|[k' v'] md IH]; intros attrs k v Hnd Hin Hk.
  - by apply elem_of_nil in Hin.
  - csimpl in *. apply NoDup_cons in Hnd as [Hk' Hnd].
    apply elem_of_cons in Hin as [[= -> ->] | Hin].
    + rewrite foldl_set_public_other by done.
      unfold set_public. simpl. rewrite Hk. apply lookup_insert_eq.
    + by apply IH.
Qed.

(** C7 (amended).  When [writeMetadata] succeeds, the written document
    has the members of every object in key order, and [loadMetadata] of it
    into any object succeeds and gives every non-private attribute the
    value that was written with its tuples replaced by lists: the loaded
    value is what [json] reads back, and it is equal, for Python, to the
    written value without tuples.  The private attributes of the loading
    object are untouched. *)
Theorem store_roundtrip (attrs target : gmap string pyval) (filepath : string)
    (fs fs' : gmap string file) :
  writeMetadata attrs filepath fs = (fs', Ok ()) →
  ∃ doc loaded,
    fs' !! filepath = Some (Document doc) ∧
    keys_sorted doc ∧
    loadMetadata target filepath fs' = Ok loaded ∧
    (∀ k v, attrs !! k = Some v → private k = false →
       loaded !! k = Some (json_image v) ∧
       (well_formed v → py_eq (json_image v) (untuple v) = true)) ∧
    (∀ k, private k = true → loaded !! k = target !! k).
Proof.
  unfold writeMetadata. destruct (dump _) as [doc|e] eqn:Hdump; [|done].
  intros [= <-]. exists doc.
  pose proof (dump_load _ _ Hdump) as Hload.
  pose proof (dump_keys_sorted _ _ Hdump) as Hsorted.
  simpl in Hload.
  eexists. split; [apply lookup_insert_eq|]. split; [done|].
  unfold loadMetadata. rewrite lookup_insert_eq, Hload.
  split; [done|]. split.
  - intros k v Hk Hpub. split; [|apply py_eq_json_image].
    apply foldl_set_public_lookup; [| |done].
    + rewrite sort_keys_Permutation, <- list_fmap_compose.
      rewrite (list_fmap_ext _ fst (map_to_list attrs)) by (by intros ? [? ?]).
      apply NoDup_fst_map_to_list.
    + rewrite sort_keys_Permutation. apply list_elem_of_fmap.
      exists (k, v). split; [done|]. by apply elem_of_map_to_list.
  - intros k Hk. by apply foldl_set_public_private.
Qed.

(** What a successful run of the pipeline went through. *)
Lemma produceMetadata_Ok env self filepath fs self' fs' :
  produceMetadata env self filepath fs = (self', fs', Ok ()) →
  ∃ s1 s2,
    _make_varlist env (updateFilelist env self false) = Ok s1 ∧
    _make_weights env s1 = (s2, Ok ()) ∧
    _make_infos env s2 = (self', Ok ()) ∧
    writeMetadata (to_dict self') filepath fs = (fs', Ok ()).
Proof.
  unfold produceMetadata.
  destruct (_make_varlist _ _) as [s1|e]; [|done].
  destruct (_make_weights env s1) as [s2 [[]|e]] eqn:Hw; [|done].
  destruct (_make_infos env s2) as [s3 [[]|e]] eqn:Hi; [|done].
  destruct (writeMetadata _ _ _) as [fs3 r] eqn:Hwr.
  intros [= <- <- ->]. by exists s1, s2.
Qed.

Lemma triple_eta {A B C} (p : A * B * C) (c : C) : p.2 = c → p = (p.1.1, p.1.2, c).
Proof. destruct p as [[a b] c']. simpl. by intros ->. Qed.

Lemma pair_eta {A B} (p : A * B) (b : B) : p.2 = b → p = (p.1, b).
Proof. destruct p as [a b']. simpl. by intros ->. Qed.

Lemma example_produced_Ok :
  example_produced = (example_produced.1.1, example_produced.1.2, Ok ()).
Proof. apply triple_eta. vm_compute. reflexivity. Qed.

(** The hypothesis of [store_roundtrip] holds for the descriptor written
    by the example run. *)
Lemma store_roundtrip_witness :
  ∃ doc loaded,
    example_produced.1.2 !! "md.json" = Some (Document doc) ∧
    keys_sorted doc ∧
    loadMetadata ∅ "md.json" example_produced.1.2 = Ok loaded ∧
    (∀ k v, to_dict example_produced.1.1 !! k = Some v → private k = false →
       loaded !! k = Some (json_image v) ∧
       (well_formed v → py_eq (json_image v) (untuple v) = true)) ∧
    (∀ k, private k = true → loaded !! k = (∅ : gmap string pyval) !! k).
Proof.
  apply (store_roundtrip (to_dict example_produced.1.1) ∅ "md.json" ∅).
  destruct (produceMetadata_Ok _ _ _ _ _ _ example_produced_Ok) as (s1 & s2 & _ & _ & _ & H).
  exact H.
Defined.

(** C7 as stated fails: the example run writes its descriptor, and the
    loaded [var_groups] holds two-element lists where the written one
    holds the tuples [(patterns, size)], which Python does not hold equal. *)
Lemma store_roundtrip_counterexample :
  example_produced.2 = Ok () ∧
  private "var_groups" = false ∧
  to_dict example_produced.1.1 !! "var_groups"
    = Some (PyDict [("fj", PyTuple [PyList [PyStr "fj_"]; PyNone]);
                    ("pfcand", PyTuple [PyList [PyStr "pfcand_"]; PyInt 2])]) ∧
  loaded_attribute ∅ "md.json" example_produced.1.2 "var_groups"
    = Some (PyDict [("fj", PyList [PyList [PyStr "fj_"]; PyNone]);
                    ("pfcand", PyList [PyList [PyStr "pfcand_"]; PyInt 2])]) ∧
  py_eq (PyDict [("fj", PyList [PyList [PyStr "fj_"]; PyNone]);
                 ("pfcand", PyList [PyList [PyStr "pfcand_"]; PyInt 2])])
        (PyDict [("fj", PyTuple [PyList [PyStr "fj_"]; PyNone]);
                 ("pfcand", PyTuple [PyList [PyStr "pfcand_"]; PyInt 2])]) = false.
Proof.
  split; [vm_compute; reflexivity|]. split; [reflexivity|].
  split; [vm_compute; reflexivity|]. split; [vm_compute; reflexivity|].
  reflexivity.
Qed.

(** ** The reweighting step inside the pipeline *)

Lemma updateFilelist_reweight_info env self test_sample :
  (updateFilelist env self test_sample).(reweight_info) = self.(reweight_info).
Proof. unfold updateFilelist. by destruct (scan_dirs _ _ _ _ _). Qed.

Lemma make_varlist_reweight_info env self self' :
  _make_varlist env self = Ok self' → self'.(reweight_info) = self.(reweight_info).
Proof.
  unfold _make_varlist. intros (f & _ & H)%bind_Ok.
  destruct (select_branches _ _ _ _). by injection H as <-.
Qed.

(** C10.  If some label fails the tail-bin check on the rows read for the
    reweighting, [_make_weights] ends with the not-enough-events error and
    leaves the object as it was, so [reweight_info] is not assigned; and
    [produceMetadata] ends with that error, with the [reweight_info] the
    object had before the call and with the file system untouched. *)
Theorem reweight_abort_assigns_nothing (env : collaborators) (self self' : Metadata)
    (rec : list row) (filepath : string) (fs : gmap string file) :
  _make_varlist env (updateFilelist env self false) = Ok self' →
  reweight_sample env self' = Ok rec →
  (∃ l counts, l ∈ self'.(label_branches) ∧
     label_hist self' rec l = Ok counts ∧ tail_bins_low counts) →
  ∃ cat,
    _prepare_reweight_info self' rec = Raise (RuntimeError cat) ∧
    _make_weights env self' = (self', Raise (RuntimeError cat)) ∧
    produceMetadata env self filepath fs = (self', fs, Raise (RuntimeError cat)) ∧
    self'.(reweight_info) = self.(reweight_info).
Proof.
  intros Hvars Hrec Hlow.
  apply prepare_reweight_info_RuntimeError in Hlow as [cat Hcat].
  exists cat. split; [done|].
  assert (_make_weights env self' = (self', Raise (RuntimeError cat))) as Hmw.
  { unfold _make_weights. by rewrite Hrec, Hcat. }
  split; [done|]. split.
  - unfold produceMetadata. by rewrite Hvars, Hmw.
  - rewrite (make_varlist_reweight_info _ _ _ Hvars).
    apply updateFilelist_reweight_info.
Qed.

Lemma example_short_selected_Ok :
  _make_varlist example_short_run (updateFilelist example_short_run example_object false)
    = Ok example_short_selected.
Proof.
  assert (is_ok (_make_varlist example_short_run
                   (updateFilelist example_short_run example_object false)) = true) as H
    by (vm_compute; reflexivity).
  unfold example_short_selected. by destruct (_make_varlist _ _).
Qed.

(** The hypotheses of [reweight_abort_assigns_nothing] hold for the run
    with six events in the last bin of [label_c]. *)
Lemma reweight_abort_assigns_nothing_witness :
  ∃ cat,
    _prepare_reweight_info example_short_selected
      (events_in_bins "label_b" 0 [20; 30]%nat ++ events_in_bins "label_c" 0 [50; 6]%nat)
      = Raise (RuntimeError cat) ∧
    _make_weights example_short_run example_short_selected
      = (example_short_selected, Raise (RuntimeError cat)) ∧
    produceMetadata example_short_run example_object "md.json" ∅
      = (example_short_selected, ∅, Raise (RuntimeError cat)) ∧
    example_short_selected.(reweight_info) = example_object.(reweight_info).
Proof.
  apply (reweight_abort_assigns_nothing example_short_run example_object
           example_short_selected
           (events_in_bins "label_b" 0 [20; 30]%nat ++ events_in_bins "label_c" 0 [50; 6]%nat)
           "md.json" ∅).
  - apply example_short_selected_Ok.
  - vm_compute. reflexivity.
  - exists "label_c", [50; 6]%Q. split; [vm_compute; by right; left|].
    split; [vm_compute; reflexivity|].
    exists 6%Q. split; [by right; left | done].
Defined.

(** ** Statistics of one branch *)

Lemma insert_sorted_Permutation x l : insert_sorted x l ≡ₚ x :: l.
Proof.
  induction l as [|y l IH]; simpl; [done|].
  destruct (fle x y); [done|]. rewrite IH. apply Permutation_swap.
Qed.

Lemma np_sort_Permutation l : np_sort l ≡ₚ l.
Proof.
  induction l as [|x l IH]; [done|].
  change (np_sort (x :: l)) with (insert_sorted x (np_sort l)).
  by rewrite insert_sorted_Permutation, IH.
Qed.

Lemma np_sort_elem_of x l : x ∈ np_sort l ↔ x ∈ l.
Proof. by rewrite np_sort_Permutation. Qed.

Lemma length_np_sort l : length (np_sort l) = length l.
Proof. by rewrite np_sort_Permutation. Qed.

Lemma existsb_is_nan_false (a : list fval) :
  Forall is_finite a → existsb is_nan a = false.
Proof.
  induction 1 as [|x l [q ->] Hl IH]; [done|]. simpl. done.
Qed.

(** The position of a percentile is inside the array. *)
Lemma percentile_index_bounds (q : Q) (n : nat) :
  (0 <= q)%Q → (q <= 100)%Q → (0 < n)%nat →
  (Z.to_nat (Qfloor (q / 100 * inject_Z (Z.of_nat (n - 1)))) < n)%nat.
Proof.
  intros Hq0 Hq100 Hn.
  set (m := inject_Z (Z.of_nat (n - 1))).
  assert (0 <= m)%Q as Hm.
  { unfold m. rewrite <- (Zle_Qle 0). lia. }
  assert (q / 100 * m <= m)%Q as Hle.
  { assert (q / 100 <= 1)%Q as H1 by (apply Qle_shift_div_r; lra).
    assert (0 <= q / 100)%Q as H0 by (apply Qle_shift_div_l; lra).
    nra. }
  apply Qfloor_resp_le in Hle. unfold m in Hle. rewrite Qfloor_Z in Hle.
  assert (0 <= q / 100 * m)%Q as Hge.
  { assert (0 <= q / 100)%Q as H0 by (apply Qle_shift_div_l; lra). nra. }
  apply Qfloor_resp_le in Hge. change (Qfloor 0) with 0 in Hge.
  unfold m in *. lia.
Qed.

(** A percentile of an array without NaN is an interpolation between two
    of its elements. *)
Lemma np_percentile_interpolates (a : list fval) (q : Q) :
  (0 <= q)%Q → (q <= 100)%Q → a ≠ [] → existsb is_nan a = false →
  ∃ x y w, x ∈ a ∧ y ∈ a ∧
    np_percentile a q = fadd (fmul x (Fin (1 - w))) (fmul y (Fin w)).
Proof.
  intros Hq0 Hq100 Hne Hnan. unfold np_percentile. rewrite Hnan.
  assert (0 < length a)%nat as Hlen by (destruct a; [done | simpl; lia]).
  destruct (Nat.eqb_spec (length a) 0) as [E|_]; [lia|]. cbn [orb].
  pose proof (percentile_index_bounds q (length a) Hq0 Hq100 Hlen) as Hb.
  eexists _, _, _. split; [|split; [|reflexivity]].
  - apply np_sort_elem_of, list_elem_of_lookup_total_2.
    by rewrite length_np_sort.
  - apply np_sort_elem_of, list_elem_of_lookup_total_2.
    rewrite length_np_sort. lia.
Qed.

Lemma np_percentile_finite (a : list fval) (q : Q) :
  (0 <= q)%Q → (q <= 100)%Q → a ≠ [] → Forall is_finite a →
  is_finite (np_percentile a q).
Proof.
  intros Hq0 Hq100 Hne Hfin.
  destruct (np_percentile_interpolates a q Hq0 Hq100 Hne (existsb_is_nan_false a Hfin))
    as (x & y & w & Hx & Hy & ->).
  rewrite Forall_forall in Hfin.
  destruct (Hfin x Hx) as [p ->], (Hfin y Hy) as [p' ->]. by eexists.
Qed.

Lemma is_zero_finite x : is_zero x → is_finite x.
Proof. intros (q & -> & _). by eexists. Qed.

Lemma np_percentile_zero (a : list fval) (q : Q) :
  (0 <= q)%Q → (q <= 100)%Q → a ≠ [] → Forall is_zero a →
  is_zero (np_percentile a q).
Proof.
  intros Hq0 Hq100 Hne Hz.
  destruct (np_percentile_interpolates a q Hq0 Hq100 Hne) as (x & y & w & Hx & Hy & ->).
  { apply existsb_is_nan_false. eapply Forall_impl; [done | apply is_zero_finite]. }
  rewrite Forall_forall in Hz.
  destruct (Hz x Hx) as (p & -> & Hp), (Hz y Hy) as (p' & -> & Hp'). simpl.
  eexists. split; [done|]. rewrite Hp, Hp'. ring.
Qed.

Lemma foldl_fmin_zero (t : list fval) : ∀ x,
  is_zero x → Forall is_zero t → is_zero (foldl fmin x t).
Proof.
  induction t as [|y t IH]; intros x Hx Ht; [done|].
  apply Forall_cons in Ht as [Hy Ht]. simpl. apply IH; [|done].
  destruct Hx as (p & -> & Hp), Hy as (p' & -> & Hp'). unfold fmin. simpl.
  destruct (Qle_bool p p'); by eexists.
Qed.

Lemma foldl_fmax_zero (t : list fval) : ∀ x,
  is_zero x → Forall is_zero t → is_zero (foldl fmax x t).
Proof.
  induction t as [|y t IH]; intros x Hx Ht; [done|].
  apply Forall_cons in Ht as [Hy Ht]. simpl. apply IH; [|done].
  destruct Hx as (p & -> & Hp), Hy as (p' & -> & Hp'). unfold fmax. simpl.
  destruct (Qle_bool p p'); by eexists.
Qed.

Lemma foldl_fadd_zero (t : list fval) : ∀ x,
  is_zero x → Forall is_zero t → is_zero (foldl fadd x t).
Proof.
  induction t as [|y t IH]; intros x Hx Ht; [done|].
  apply Forall_cons in Ht as [Hy Ht]. simpl. apply IH; [|done].
  destruct Hx as (p & -> & Hp), Hy as (p' & -> & Hp'). simpl.
  eexists. split; [done|]. rewrite Hp, Hp'. ring.
Qed.

Lemma np_mean_zero (a : list fval) : a ≠ [] → Forall is_zero a → is_zero (np_mean a).
Proof.
  intros Hne Hz. unfold np_mean.
  destruct (foldl_fadd_zero a (Fin 0)) as (s & -> & Hs); [by exists 0%Q | done |].
  destruct a as [|x a]; [done|]. simpl length. unfold fdiv_count.
  eexists. split; [done|]. rewrite Hs. unfold Qdiv. ring.
Qed.

Lemma np_std_zero (sqrt : Q → Q) (a : list fval) :
  (sqrt 0 == 0)%Q → a ≠ [] → Forall is_zero a → is_zero (np_std sqrt a).
Proof.
  intros Hsqrt Hne Hz. unfold np_std.
  destruct (np_mean_zero a Hne Hz) as (m & -> & Hm).
  set (dev := (λ x, fmul (fsub x (Fin m)) (fsub x (Fin m))) <$> a).
  assert (Forall is_zero dev) as Hdev.
  { unfold dev. apply Forall_fmap. eapply Forall_impl; [done|].
    intros x (p & -> & Hp). simpl. eexists. split; [done|]. rewrite Hp, Hm. ring. }
  destruct (np_mean_zero dev) as (v & -> & Hv); [|done|].
  { unfold dev. destruct a; [done | discriminate]. }
  unfold fsqrt.
  destruct (Qlt_bool v 0) eqn:E.
  { apply Qlt_bool_iff in E. lra. }
  eexists. split; [done|].
  assert (Qred v = 0%Q) as ->; [|done].
  change 0%Q with (Qred 0). by apply Qred_complete.
Qed.

Lemma row_lengths_finite rows : Forall is_finite (row_lengths rows).
Proof. unfold row_lengths. apply Forall_fmap, Forall_true. intros row. by eexists. Qed.



(** The size and the flattened values of a vector branch. *)
Lemma flatten_ragged_spec env var_size rows :
  rows ≠ [] →
  ∃ s, flatten_ragged env var_size rows
         = Ok (s, nan_to_num env.(float_max) <$> concat rows) ∧
       (∀ z, size_given var_size = Some z → s = z) ∧
       (size_given var_size = None →
          ∃ q, np_percentile (row_lengths rows) 95 = Fin q ∧ s = py_round q).
Proof.
  intros Hne. unfold flatten_ragged. destruct (size_given var_size) as [z|].
  - exists z. rewrite result_bind_Ok. destruct rows; [done|].
    split; [done|]. split; [by intros ? [= <-] | done].
  - fold (row_lengths rows).
    destruct (np_percentile_finite (row_lengths rows) 95) as [q Hq];
      [lra | lra | | apply row_lengths_finite |].
    { unfold row_lengths. by destruct rows. }
    exists (py_round q). rewrite Hq. simpl int_round. rewrite result_bind_Ok.
    destruct rows; [done|]. split; [done|]. split; [done | eauto].
Qed.

Lemma flatten_ragged_inv env var_size rows sv :
  flatten_ragged env var_size rows = Ok sv →
  rows ≠ [] ∧ sv.2 = nan_to_num env.(float_max) <$> concat rows ∧
  (∀ z, size_given var_size = Some z → sv.1 = z) ∧
  (size_given var_size = None →
     ∃ q, np_percentile (row_lengths rows) 95 = Fin q ∧ sv.1 = py_round q).
Proof.
  intros H. assert (rows ≠ []) as Hne.
  { intros ->. unfold flatten_ragged in H.
    apply bind_Ok in H as (? & _ & H). done. }
  destruct (flatten_ragged_spec env var_size rows Hne) as (s & Hs & H1 & H2).
  rewrite Hs in H. injection H as <-. done.
Qed.

(** The record of a branch: its size and the statistics of its values. *)
Lemma make_info_inv env var_size a info :
  make_info env var_size a = Ok info →
  ∃ values,
    np_min values = Ok info.(min) ∧ np_max values = Ok info.(max) ∧
    info.(median) = np_percentile values 50 ∧ info.(upper) = np_percentile values 84 ∧
    info.(mean) = np_mean values ∧ info.(std) = np_std env.(np_sqrt) values ∧
    match a with
    | Flat vs => values = vs ∧ info.(size) = None
    | Ragged rows =>
        values = nan_to_num env.(float_max) <$> concat rows ∧
        ∃ s, info.(size) = Some s ∧
          (∀ z, size_given var_size = Some z → s = z) ∧
          (size_given var_size = None →
             ∃ q, np_percentile (row_lengths rows) 95 = Fin q ∧ s = py_round q)
    end.
Proof.
  unfold make_info. intros (sv & Hsv & H)%bind_Ok.
  apply bind_Ok in H as (lo & Hlo & H). apply bind_Ok in H as (hi & Hhi & [= <-]).
  exists sv.2. simpl. repeat (split; [done|]).
  destruct a as [vs | rows].
  - by injection Hsv as <-.
  - apply bind_Ok in Hsv as (sv' & Hsv' & [= <-]). simpl.
    apply flatten_ragged_inv in Hsv' as (_ & Hv & H1 & H2). eauto.
Qed.

(** *** The loop over the branches *)

Lemma infos_loop_Ok env self files counts frac vars : ∀ infos self',
  infos_loop env self files counts frac infos vars = (self', Ok ()) →
  ∃ infos', self' = set_branches_info self infos' ∧
    ∀ var, (var ∈ vars →
              ∃ info, infos' !! var = Some info ∧
                branch_info_of env self files counts frac var = Ok info) ∧
           (var ∉ vars → infos' !! var = infos !! var).
Proof.
  induction vars as [|v rest IH]; intros infos self'; simpl.
  - intros [= <-]. exists infos. split; [done|]. intros var.
    split; [by intros ?%elem_of_nil | done].
  - destruct (branch_info_of env self files counts frac v) as [info|e] eqn:Hinfo; [|done].
    intros H. destruct (IH _ _ H) as (infos' & -> & Hspec).
    exists infos'. split; [done|]. intros var. destruct (Hspec var) as [Hin Hout]. split.
    + intros Hvar. destruct (decide (var ∈ rest)) as [Hr | Hr]; [by apply Hin|].
      apply elem_of_cons in Hvar as [-> | Hvar]; [|done].
      exists info. split; [|done]. rewrite (Hout Hr). apply lookup_insert_eq.
    + intros Hvar. apply not_elem_of_cons in Hvar as [Hne Hvar].
      rewrite (Hout Hvar). by apply lookup_insert_ne.
Qed.



Lemma nan_to_num_finite m x : is_finite (nan_to_num m x).
Proof. destruct x; by eexists. Qed.

Lemma nan_to_num_stream_zero m (values : list fval) :
  Forall (λ x, x = NaN) values → Forall is_zero (nan_to_num m <$> values).
Proof.
  intros H. apply Forall_fmap. eapply Forall_impl; [done|].
  intros x ->. by exists 0%Q.
Qed.

Lemma np_min_zero (a : list fval) : a ≠ [] → Forall is_zero a → ∃ x, np_min a = Ok x ∧ is_zero x.
Proof.
  destruct a as [|x t]; [done|]. intros _ [Hx Ht]%Forall_cons.
  eexists. split; [done|]. by apply foldl_fmin_zero.
Qed.

Lemma np_max_zero (a : list fval) : a ≠ [] → Forall is_zero a → ∃ x, np_max a = Ok x ∧ is_zero x.
Proof.
  destruct a as [|x t]; [done|]. intros _ [Hx Ht]%Forall_cons.
  eexists. split; [done|]. by apply foldl_fmax_zero.
Qed.

(** C5 (amended).  For a vector branch the statistics are those of the
    flattened rows in which [nan_to_num] has replaced every NaN with 0,
    every positive infinity with the largest finite float and every
    negative infinity with its opposite, so the stream is finite; and a
    branch that has at least one value and only NaN values gets a record,
    with min, max, mean, std, median and upper all zero, provided the
    square root of zero is zero. *)
Theorem nan_to_num_before_statistics :
  (∀ (env : collaborators) (var_size : option Z) (rows : list (list fval))
     (info : branch_info),
    make_info env var_size (Ragged rows) = Ok info →
    ∃ values,
      values = nan_to_num env.(float_max) <$> concat rows ∧
      Forall is_finite values ∧
      (∀ i x, concat rows !! i = Some x →
         values !! i = Some match x with
                            | NaN => Fin 0
                            | PInf => Fin env.(float_max)
                            | NInf => Fin (- env.(float_max))
                            | Fin p => Fin p
                            end) ∧
      np_min values = Ok info.(min) ∧ np_max values = Ok info.(max) ∧
      info.(median) = np_percentile values 50 ∧ info.(upper) = np_percentile values 84 ∧
      info.(mean) = np_mean values ∧ info.(std) = np_std env.(np_sqrt) values) ∧
  (∀ (env : collaborators) (var_size : option Z) (rows : list (list fval)),
    (env.(np_sqrt) 0 == 0)%Q →
    concat rows ≠ [] →
    Forall (λ x, x = NaN) (concat rows) →
    ∃ info,
      make_info env var_size (Ragged rows) = Ok info ∧
      is_zero info.(min) ∧ is_zero info.(max) ∧ is_zero info.(mean) ∧
      is_zero info.(std) ∧ is_zero info.(median) ∧ is_zero info.(upper)).
Proof.
  split.
  - intros env var_size rows info Hinfo.
    apply make_info_inv in Hinfo
      as (values & Hmin & Hmax & Hmed & Hup & Hmean & Hstd & -> & _).
    eexists. split; [done|]. split.
    { apply Forall_fmap, Forall_true. intros x. apply nan_to_num_finite. }
    split.
    { intros i x Hx. rewrite list_lookup_fmap, Hx. simpl. by destruct x. }
    done.
  - intros env var_size rows Hsqrt Hne Hnan.
    assert (rows ≠ []) as Hrows by (by intros ->).
    destruct (flatten_ragged_spec env var_size rows Hrows) as (s & Hs & _).
    set (values := nan_to_num env.(float_max) <$> concat rows) in *.
    assert (values ≠ []) as Hvne.
    { unfold values. by destruct (concat rows). }
    pose proof (nan_to_num_stream_zero env.(float_max) _ Hnan) as Hz. fold values in Hz.
    destruct (np_min_zero values Hvne Hz) as (lo & Hlo & Hlo0).
    destruct (np_max_zero values Hvne Hz) as (hi & Hhi & Hhi0).
    eexists. split.
    { unfold make_info. rewrite Hs, !result_bind_Ok. simpl.
      rewrite Hlo, result_bind_Ok, Hhi, result_bind_Ok. done. }
    simpl. split; [done|]. split; [done|].
    split; [by apply np_mean_zero|]. split; [by apply np_std_zero|].
    split; apply np_percentile_zero; (done || lra).
Qed.

(** The hypotheses of [nan_to_num_before_statistics] hold for a branch
    with three NaN values in the example run. *)
Lemma nan_to_num_before_statistics_witness :
  ∃ info,
    make_info example_run None (Ragged [[NaN]; []; [NaN; NaN]]) = Ok info ∧
    is_zero info.(min) ∧ is_zero info.(max) ∧ is_zero info.(mean) ∧
    is_zero info.(std) ∧ is_zero info.(median) ∧ is_zero info.(upper).
Proof.
  apply (proj2 nan_to_num_before_statistics example_run None [[NaN]; []; [NaN; NaN]]).
  - reflexivity.
  - discriminate.
  - simpl. repeat constructor.
Defined.

(** C5 as stated fails: an infinity is not replaced with 0 but with the
    largest finite float, so a branch whose values are all infinite gets
    the extreme floats as its minimum and maximum. *)
Lemma nan_to_num_infinity_counterexample :
  ∃ info,
    make_info example_run None (Ragged [[PInf]; [NInf]]) = Ok info ∧
    nan_to_num example_run.(float_max) <$> concat [[PInf]; [NInf]]
      = [Fin float32_max; Fin (- float32_max)] ∧
    info.(max) = Fin float32_max ∧
    info.(min) = Fin (- float32_max) ∧
    ¬ is_zero info.(max) ∧ ¬ is_zero info.(min).
Proof.
  eexists. split; [vm_compute; reflexivity|]. split; [reflexivity|].
  split; [reflexivity|]. split; [reflexivity|].
  split; intros (q & [= <-] & Hq); vm_compute in Hq; discriminate.
Qed.

(** * Further properties *)

(** ** The file enumerator lists exactly the countable data files *)

Lemma scan_files_listed env tree_name dp filenames : ∀ acc,
  scan_files env tree_name dp filenames acc
    = (acc.1 ++ (listed_files env tree_name dp filenames).*1,
       acc.2 ++ (listed_files env tree_name dp filenames).*2).
Proof.
  induction filenames as [|f rest IH]; intros [files counts]; simpl.
  - by rewrite !app_nil_r.
  - unfold listed_files. simpl.
    destruct (endswith ".root" f); simpl; [|apply IH].
    destruct (truthy _) as [n|]; simpl; [|apply IH].
    rewrite IH. simpl. by rewrite <- !app_assoc.
Qed.

Lemma scan_dirs_listed env tree_name test_sample walk : ∀ acc,
  scan_dirs env tree_name test_sample walk acc
    = (acc.1 ++ (flat_map (λ w : string * list string * list string,
                    if dir_scanned test_sample w.1.1
                    then listed_files env tree_name w.1.1 w.2 else []) walk).*1,
       acc.2 ++ (flat_map (λ w : string * list string * list string,
                    if dir_scanned test_sample w.1.1
                    then listed_files env tree_name w.1.1 w.2 else []) walk).*2).
Proof.
  induction walk as [|[[dp dn] fs] rest IH]; intros [files counts]; simpl.
  - by rewrite !app_nil_r.
  - unfold dir_scanned at 1 3. simpl.
    destruct (contains "failed" dp || contains "ignore" dp); simpl; [apply IH|].
    destruct test_sample, (contains "test_sample" dp); simpl; try apply IH.
    + rewrite IH, scan_files_listed. simpl. by rewrite !fmap_app, !app_assoc.
    + rewrite IH, scan_files_listed. simpl. by rewrite !fmap_app, !app_assoc.
Qed.

Lemma zip_fst_snd {A B} (l : list (A * B)) : zip l.*1 l.*2 = l.
Proof. induction l as [|[a b] l IH]; [done|]. csimpl. by rewrite IH. Qed.

Lemma truthy_Some o n : truthy o = Some n ↔ o = Some n ∧ n ≠ 0.
Proof.
  unfold truthy. destruct o as [z|]; [|by split; [|intros [? ?]]].
  destruct (Z.eqb_spec z 0) as [-> | Hne]; split.
  - done.
  - by intros [[= <-] ?].
  - by intros [= <-].
  - by intros [[= <-] ?].
Qed.

Lemma elem_of_listed_files env tree_name dp filenames path n :
  (path, n) ∈ listed_files env tree_name dp filenames ↔
  ∃ f, f ∈ filenames ∧ endswith ".root" f = true ∧ path = path_join dp f ∧
       env.(get_num_events) path tree_name = Some n ∧ n ≠ 0.
Proof.
  unfold listed_files. rewrite list_elem_of_omap. split.
  - intros (f & Hf & H). exists f. split; [done|].
    destruct (endswith ".root" f); [|done]. split; [done|].
    destruct (truthy _) as [m|] eqn:E; [|done]. injection H as <- <-.
    apply truthy_Some in E as [? ?]. done.
  - intros (f & Hf & Hext & -> & Hn & Hne). exists f. split; [done|].
    rewrite Hext. assert (truthy (env.(get_num_events) (path_join dp f) tree_name) = Some n)
      as -> by (by apply truthy_Some). done.
Qed.

(** *** A suffix of the file name is a suffix of the joined path *)

Lemma substring_append_r (a b : string) (n m : nat) :
  String.substring (String.length a + n) m (a ++ b) = String.substring n m b.
Proof. induction a as [|c a IH]; [done|]. simpl. apply IH. Qed.

Lemma string_length_append (a b : string) :
  String.length (a ++ b) = (String.length a + String.length b)%nat.
Proof. induction a as [|c a IH]; [done|]. simpl. by rewrite IH. Qed.

Lemma endswith_append (suffix a b : string) :
  endswith suffix b = true → endswith suffix (a ++ b) = true.
Proof.
  unfold endswith. intros [Hlen Heq]%andb_true_iff.
  apply Nat.leb_le in Hlen. apply andb_true_iff. split.
  - apply Nat.leb_le. rewrite string_length_append. lia.
  - rewrite string_length_append.
    replace (String.length a + String.length b - String.length suffix)%nat
      with (String.length a + (String.length b - String.length suffix))%nat by lia.
    by rewrite substring_append_r.
Qed.

Lemma endswith_path_join (suffix dp f : string) :
  endswith suffix f = true → endswith suffix (path_join dp f) = true.
Proof.
  intros H. unfold path_join.
  destruct (startswith "/" f); [done|].
  destruct (String.eqb dp "" || endswith "/" dp); [by apply endswith_append|].
  by apply endswith_append, endswith_append.
Qed.

(** X1.  After [updateFilelist], a path is listed with a count exactly
    when it is the join of a walked directory and one of its files, the
    directory path holds neither [failed] nor [ignore] and holds
    [test_sample] exactly in test mode, the file name ends in [.root], and
    the record counter gives a nonzero count, which is the count listed;
    every listed path ends in [.root]. *)
Theorem filelist_lists_countable_data_files (env : collaborators) (self : Metadata)
    (test_sample : bool) :
  ∃ files counts,
    (updateFilelist env self test_sample).(inputfiles) = Some files ∧
    (updateFilelist env self test_sample).(num_events) = Some counts ∧
    (∀ path n, (path, n) ∈ zip files counts ↔
       ∃ dp dn filenames f,
         (dp, dn, filenames) ∈ os_walk self.(_inputdir) env.(input_tree) ∧
         contains "failed" dp = false ∧ contains "ignore" dp = false ∧
         contains "test_sample" dp = test_sample ∧
         f ∈ filenames ∧ endswith ".root" f = true ∧ path = path_join dp f ∧
         env.(get_num_events) path self.(treename) = Some n ∧ n ≠ 0) ∧
    (∀ path, path ∈ files → endswith ".root" path = true) ∧
    (∀ n, n ∈ counts → n ≠ 0).
Proof.
  unfold updateFilelist. rewrite scan_dirs_listed. simpl.
  set (L := flat_map _ _). exists L.*1, L.*2. split; [done|]. split; [done|].
  assert (∀ path n, (path, n) ∈ L ↔
       ∃ dp dn filenames f,
         (dp, dn, filenames) ∈ os_walk self.(_inputdir) env.(input_tree) ∧
         contains "failed" dp = false ∧ contains "ignore" dp = false ∧
         contains "test_sample" dp = test_sample ∧
         f ∈ filenames ∧ endswith ".root" f = true ∧ path = path_join dp f ∧
         env.(get_num_events) path self.(treename) = Some n ∧ n ≠ 0) as HL.
  { intros path n. unfold L. rewrite list_elem_of_In, in_flat_map. split.
    - intros ([[dp dn] fs] & Hw & Hin). simpl in Hin.
      apply list_elem_of_In in Hw.
      destruct (dir_scanned test_sample dp) eqn:Hscan; [|done].
      apply list_elem_of_In, elem_of_listed_files in Hin as (f & Hf & Hext & -> & Hn & Hne).
      unfold dir_scanned in Hscan. apply andb_true_iff in Hscan as [H1 H2].
      apply negb_true_iff, orb_false_iff in H1 as [? ?]. apply Bool.eqb_prop in H2.
      exists dp, dn, fs, f. done.
    - intros (dp & dn & fs & f & Hw & Hfail & Hign & Htest & Hf & Hext & -> & Hn & Hne).
      exists (dp, dn, fs). split; [by apply list_elem_of_In|]. simpl.
      unfold dir_scanned. rewrite Hfail, Hign, Htest, Bool.eqb_reflx. simpl.
      apply list_elem_of_In, elem_of_listed_files. exists f. done. }
  rewrite zip_fst_snd. split; [done|]. split.
  - intros path ([p n] & -> & Hin)%list_elem_of_fmap. simpl.
    apply HL in Hin as (dp & dn & fs & f & _ & _ & _ & _ & _ & Hext & -> & _).
    by apply endswith_path_join.
  - intros n ([p m] & -> & Hin)%list_elem_of_fmap. simpl.
    by apply HL in Hin as (dp & dn & fs & f & _ & _ & _ & _ & _ & _ & _ & _ & ?).
Qed.

(** X2.  [updateFilelist] starts from empty lists: calling it again, with
    any flag, gives the object a single call with that flag gives. *)
Theorem filelist_rebuilt_on_each_call (env : collaborators) (self : Metadata)
    (first second : bool) :
  updateFilelist env (updateFilelist env self first) second
    = updateFilelist env self second.
Proof.
  unfold updateFilelist.
  destruct (scan_dirs env self.(treename) first _ _) as [files1 counts1]. simpl.
  by destruct (scan_dirs env self.(treename) second _ _) as [files2 counts2].
Qed.

(** ** The variable selector keeps a size for every selected variable *)

Lemma first_matching_group_Some env k groups size :
  first_matching_group env k groups = Some size ↔
  ∃ g, first_group_matching env k groups g ∧ g.2.2 = size.
Proof.
  induction groups as [|[name [regexes sz]] rest IH]; simpl.
  - split; [done|]. intros (g & (before & after & Heq & _) & _). by destruct before.
  - destruct (existsb _ regexes) eqn:E.
    + split.
      * intros [= <-]. exists (name, (regexes, sz)). split; [|done].
        exists [], rest. split; [done|]. split.
        -- apply existsb_exists in E as (regex & Hin & Hm).
           exists regex. split; [by apply list_elem_of_In | done].
        -- intros g' regex Hg'. by apply elem_of_nil in Hg'.
      * intros (g & (before & after & Heq & (regex & Hin & Hm) & Hnone) & <-).
        destruct before as [|g0 before]; simpl in Heq.
        -- by injection Heq as <-.
        -- injection Heq as <- _. exfalso.
           assert (existsb (λ regex, re_match env regex k) regexes = false) as E'.
           { apply not_true_iff_false. intros (r & Hr & Hrm)%existsb_exists.
             rewrite (Hnone (name, (regexes, sz)) r) in Hrm; [done | by left |].
             by apply list_elem_of_In. }
           congruence.
    + rewrite IH. split.
      * intros (g & (before & after & -> & Hm & Hnone) & <-).
        exists g. split; [|done]. exists ((name, (regexes, sz)) :: before), after.
        split; [done|]. split; [done|].
        intros g' regex [-> | Hg']%elem_of_cons Hr; [|by eapply Hnone].
        simpl in Hr. apply not_true_iff_false. intros Hrm.
        apply not_true_iff_false in E. apply E, existsb_exists.
        exists regex. split; [by apply list_elem_of_In | done].
      * intros (g & (before & after & Heq & (regex & Hin & Hm) & Hnone) & <-).
        destruct before as [|g0 before]; simpl in Heq.
        -- injection Heq as <- <-. simpl in Hin. exfalso.
           apply not_true_iff_false in E. apply E, existsb_exists.
           exists regex. split; [by apply list_elem_of_In | done].
        -- injection Heq as <- ->. exists g. split; [|done].
           exists before, after. split; [done|]. split; [eauto|].
           intros g' r Hg' Hr. apply (Hnone g' r); [by right | done].
Qed.

Lemma select_branches_snd env groups branches : ∀ acc k size,
  k ∈ branches → first_matching_group env k groups = Some size →
  (select_branches env groups branches acc).2 !! k = Some size.
Proof.
  induction branches as [|b rest IH]; intros acc k size Hk Hm; [by apply elem_of_nil in Hk|].
  simpl. destruct (decide (k ∈ rest)) as [Hr | Hr].
  - destruct (first_matching_group env b groups); by apply IH.
  - apply elem_of_cons in Hk as [-> | Hk]; [|done]. rewrite Hm.
    clear IH Hm. revert acc. 
    assert (∀ acc : list string * gmap string (option Z),
              b ∉ rest → (select_branches env groups rest acc).2 !! b = acc.2 !! b) as Hother.
    { clear. induction rest as [|c rest IH]; intros acc Hb; [done|]. simpl.
      apply not_elem_of_cons in Hb as [Hne Hb].
      destruct (first_matching_group env c groups); rewrite IH by done; [|done].
      simpl. by apply lookup_insert_ne. }
    intros acc. rewrite Hother by done. simpl. apply lookup_insert_eq.
Qed.

Lemma list_remove_subseteq x (l l' : list string) y :
  list_remove x l = Ok l' → y ∈ l' → y ∈ l.
Proof.
  revert l'. induction l as [|z l IH]; intros l'; simpl; [done|].
  destruct (String.eqb z x).
  - intros [= <-] Hy. by right.
  - intros (t & Ht & [= <-])%bind_Ok [-> | Hy]%elem_of_cons; [by left|].
    right. by eapply IH.
Qed.

Lemma remove_if_present_subseteq (l : list string) x y :
  y ∈ remove_if_present l x → y ∈ l.
Proof.
  unfold remove_if_present. destruct (list_remove x l) as [l'|e] eqn:E; [|done].
  by eapply list_remove_subseteq.
Qed.

Lemma foldl_remove_if_present_subseteq (rm : list string) : ∀ (l : list string) y,
  y ∈ foldl remove_if_present l rm → y ∈ l.
Proof.
  induction rm as [|x rm IH]; intros l y; simpl; [done|].
  intros Hy%IH. by eapply remove_if_present_subseteq.
Qed.

(** X3.  When [_make_varlist] returns, every variable of the final list is
    a field of the schema that matches a group, and [var_sizes] holds for
    it the size of the first group, in iteration order, with a matching
    pattern; so the lookup [self.var_sizes[var]] of [_make_infos] finds
    every selected variable. *)
Theorem selected_variable_has_first_group_size (env : collaborators)
    (self self' : Metadata) :
  _make_varlist env self = Ok self' →
  ∃ branches vars sizes,
    self'.(_all_branches) = Some branches ∧
    self'.(var_branches) = Some vars ∧
    self'.(var_sizes) = Some sizes ∧
    ∀ var, var ∈ vars →
      var ∈ branches ∧
      ∃ g, first_group_matching env var self.(var_groups) g ∧
           sizes !! var = Some g.2.2.
Proof.
  unfold _make_varlist. intros (f & Hf & H)%bind_Ok.
  pose proof (select_branches_fst env self.(var_groups)
                (env.(root2array_columns) f self.(treename)) ([], ∅)) as Hfst.
  pose proof (select_branches_snd env self.(var_groups)
                (env.(root2array_columns) f self.(treename)) ([], ∅)) as Hsnd.
  destruct (select_branches _ _ _ _) as [vars sizes]. simpl in *.
  injection H as <-. simpl. eexists _, _, _. repeat (split; [done|]).
  intros var Hvar%foldl_remove_if_present_subseteq. subst vars.
  apply list_elem_of_In, filter_In in Hvar as [Hin Hm]. apply list_elem_of_In in Hin.
  split; [done|].
  destruct (first_matching_group env var self.(var_groups)) as [size|] eqn:E; [|done].
  pose proof (Hsnd var size Hin E) as Hsize.
  apply first_matching_group_Some in E as (g & Hg & <-). eauto.
Qed.

(** The hypothesis of [selected_variable_has_first_group_size] holds for
    the short example run. *)
Lemma selected_variable_has_first_group_size_witness :
  ∃ branches vars sizes,
    example_short_selected.(_all_branches) = Some branches ∧
    example_short_selected.(var_branches) = Some vars ∧
    example_short_selected.(var_sizes) = Some sizes ∧
    ∀ var, var ∈ vars →
      var ∈ branches ∧
      ∃ g, first_group_matching example_short_run var
             (updateFilelist example_short_run example_object false).(var_groups) g ∧
           sizes !! var = Some g.2.2.
Proof.
  exact (selected_variable_has_first_group_size _ _ _ example_short_selected_Ok).
Defined.

(** X4.  Variable selection is idempotent: run on the object it returned,
    [_make_varlist] returns that object again. *)
Theorem make_varlist_idempotent (env : collaborators) (self self' : Metadata) :
  _make_varlist env self = Ok self' → _make_varlist env self' = Ok self'.
Proof.
  unfold _make_varlist, first_inputfile. intros (f & Hf & H)%bind_Ok.
  destruct (select_branches env self.(var_groups) _ _) as [vars sizes] eqn:Hsel.
  injection H as <-. simpl.
  destruct self.(inputfiles) as [[|f' files]|]; try done. injection Hf as ->.
  rewrite result_bind_Ok. by rewrite Hsel.
Qed.

(** The hypothesis of [make_varlist_idempotent] holds for the short
    example run. *)
Lemma make_varlist_idempotent_witness :
  _make_varlist example_short_run example_short_selected = Ok example_short_selected.
Proof. exact (make_varlist_idempotent _ _ _ example_short_selected_Ok). Defined.

(** X5.  When the enumerator lists no file, [produceMetadata] ends with
    [IndexError] in the variable selector: nothing is written, and the
    object is the one [updateFilelist] left, with empty lists and a total
    of zero events. *)
Theorem produce_without_files_raises (env : collaborators) (self : Metadata)
    (filepath : string) (fs : gmap string file) :
  (updateFilelist env self false).(inputfiles) = Some [] →
  produceMetadata env self filepath fs
    = (updateFilelist env self false, fs, Raise IndexError) ∧
  (updateFilelist env self false).(num_events) = Some [] ∧
  (updateFilelist env self false).(_total_events) = Some 0.
Proof.
  intros Hfiles. split.
  - unfold produceMetadata, _make_varlist, first_inputfile. by rewrite Hfiles.
  - revert Hfiles. unfold updateFilelist.
    pose proof (scan_dirs_parallel env self.(treename) false
                  (os_walk self.(_inputdir) env.(input_tree)) ([], []) eq_refl) as Hlen.
    destruct (scan_dirs _ _ _ _ _) as [files counts]. simpl in *.
    intros [= ->]. by destruct counts.
Qed.

(** The hypothesis of [produce_without_files_raises] holds for a directory
    whose only data file is under [ignore]. *)
Lemma produce_without_files_raises_witness :
  produceMetadata example_no_data example_object "md.json" ∅
    = (updateFilelist example_no_data example_object false, ∅, Raise IndexError) ∧
  (updateFilelist example_no_data example_object false).(num_events) = Some [] ∧
  (updateFilelist example_no_data example_object false).(_total_events) = Some 0.
Proof. apply produce_without_files_raises. reflexivity. Defined.

(** ** When the reweighting calculator returns *)

Section reweight_returns.
Context (self : Metadata) (rec : list row).

Lemma reweight_label_Ok_inv st st' label :
  reweight_label self rec st label = Ok st' → passes_tail_check self rec label.
Proof.
  destruct st as [ce res]. unfold reweight_label.
  intros (counts & Hh & H)%bind_Ok. apply bind_Ok in H as (m & Hm & H).
  destruct (Qlt_bool m 10) eqn:E; [done|].
  exists counts. split; [done|]. split.
  - intros ->. by cbv in Hm.
  - intros c Hc. apply py_min_spec in Hm as [_ Hmin]. specialize (Hmin c Hc).
    apply Qlt_bool_false in E. lra.
Qed.

Lemma first_loop_Ok_inv labels : ∀ st st',
  foldlM (reweight_label self rec) st labels = Ok st' →
  ∀ l, l ∈ labels → passes_tail_check self rec l.
Proof.
  induction labels as [|l0 t IH]; intros st st' H l Hl; [by apply elem_of_nil in Hl|].
  rewrite foldlM_cons in H. apply bind_Ok in H as (st1 & H1 & H).
  apply elem_of_cons in Hl as [-> | Hl]; [by eapply reweight_label_Ok_inv | by eapply IH].
Qed.

Lemma class_weight_AttributeError min_nevt (ce : gmap string Q)
    (res : gmap string reweight_entry) label n e w :
  ce !! label = Some n → res !! label = Some e → e.(class_wgt) = Some w →
  class_weight min_nevt ce res label = Raise AttributeError.
Proof. unfold class_weight. by intros -> -> ->. Qed.

(** A label listed twice stops the second loop. *)
Lemma second_loop_AttributeError min_nevt ce labels : ∀ res : gmap string reweight_entry,
  (∀ l, l ∈ labels → is_Some (ce !! l) ∧ is_Some (res !! l)) →
  (¬ NoDup labels ∨
   ∃ l e, l ∈ labels ∧ res !! l = Some e ∧ is_Some e.(class_wgt)) →
  foldlM (class_weight min_nevt ce) res labels = Raise AttributeError.
Proof.
  induction labels as [|l0 t IH]; intros res Hall Hdup.
  { destruct Hdup as [Hnd | (l & e & Hl & _)]; [destruct Hnd; constructor|].
    by apply elem_of_nil in Hl. }
  destruct (Hall l0) as [[n0 Hn0] [e0 He0]]; [by left|].
  rewrite foldlM_cons.
  destruct e0.(class_wgt) as [w|] eqn:Hw.
  { by rewrite (class_weight_AttributeError _ _ _ _ _ _ _ Hn0 He0 Hw). }
  rewrite (class_weight_Ok _ _ _ _ _ _ Hn0 He0 Hw), result_bind_Ok. apply IH.
  - intros l Hl. destruct (Hall l) as [? ?]; [by right|]. split; [done|].
    destruct (decide (l0 = l)) as [-> | Hne].
    + rewrite lookup_insert_eq. eauto.
    + by rewrite lookup_insert_ne.
  - destruct (decide (l0 ∈ t)) as [Hin | Hout].
    { right. eexists l0, _. split; [done|]. split; [apply lookup_insert_eq|]. simpl. eauto. }
    destruct Hdup as [Hnd | (l & e & Hl & He & Hsome)].
    + left. intros Hnd'. apply Hnd. by constructor.
    + apply elem_of_cons in Hl as [-> | Hl].
      * rewrite He0 in He. injection He as <-. rewrite Hw in Hsome. by destruct Hsome.
      * right. exists l, e. split; [done|]. split; [|done].
        rewrite lookup_insert_ne; [done|]. by intros ->.
Qed.

Lemma prepare_reweight_info_duplicate :
  ¬ NoDup self.(label_branches) →
  (∀ l, l ∈ self.(label_branches) → passes_tail_check self rec l) →
  _prepare_reweight_info self rec = Raise AttributeError.
Proof.
  intros Hdup Hall.
  destruct (first_loop_Ok self rec _ ∅ ∅ Hall) as (ce & res1 & Hloop & Hspec).
  assert (self.(label_branches) ≠ []) as Hne.
  { intros E. apply Hdup. rewrite E. constructor. }
  unfold _prepare_reweight_info. rewrite Hloop, result_bind_Ok.
  destruct (py_min_is_Ok ((map_to_list ce).*2)) as [m Hm].
  { destruct self.(label_branches) as [|l0 t] eqn:E; [done|].
    destruct (Hspec l0) as [Hin _].
    destruct Hin as (c & r & _ & _ & Hce & _); [by left|].
    intros Hnil. apply fmap_nil_inv in Hnil.
    apply map_to_list_empty_iff in Hnil. by rewrite Hnil in Hce. }
  rewrite Hm, result_bind_Ok. apply second_loop_AttributeError; [|by left].
  intros l Hl. destruct (Hspec l) as [Hin _].
  destruct (Hin Hl) as (c & r & _ & _ & -> & ->). eauto.
Qed.

Lemma prepare_reweight_info_Ok_inv res :
  _prepare_reweight_info self rec = Ok res →
  self.(label_branches) ≠ [] ∧ NoDup self.(label_branches) ∧
  ∀ l, l ∈ self.(label_branches) → passes_tail_check self rec l.
Proof.
  intros H.
  assert (∀ l, l ∈ self.(label_branches) → passes_tail_check self rec l) as Hall.
  { unfold _prepare_reweight_info in H. apply bind_Ok in H as ([ce res1] & Hloop & _).
    by eapply first_loop_Ok_inv. }
  split; [|split; [|done]].
  - intros E. unfold _prepare_reweight_info in H. rewrite E in H. by cbv in H.
  - destruct (decide (NoDup self.(label_branches))) as [?|Hdup]; [done|].
    by rewrite (prepare_reweight_info_duplicate Hdup Hall) in H.
Qed.
End reweight_returns.

(** X6.  [_prepare_reweight_info] returns exactly when there is at least
    one label, no label is listed twice and every label passes the
    tail-bin check. *)
Theorem reweight_info_returns_iff (self : Metadata) (rec : list row) :
  (∃ res, _prepare_reweight_info self rec = Ok res) ↔
  self.(label_branches) ≠ [] ∧ NoDup self.(label_branches) ∧
  ∀ l, l ∈ self.(label_branches) → passes_tail_check self rec l.
Proof.
  split.
  - intros [res H]. by eapply prepare_reweight_info_Ok_inv.
  - intros (Hne & Hnd & Hall).
    destruct (prepare_reweight_info_Ok self rec Hne Hnd Hall) as (res & _ & H & _). eauto.
Qed.

(** X7.  A label listed twice makes the second loop call [tolist] on a
    list: when every label passes the tail-bin check and some label is
    repeated, [_prepare_reweight_info] raises [AttributeError]. *)
Theorem repeated_label_raises (self : Metadata) (rec : list row) :
  ¬ NoDup self.(label_branches) →
  (∀ l, l ∈ self.(label_branches) → passes_tail_check self rec l) →
  _prepare_reweight_info self rec = Raise AttributeError.
Proof. apply prepare_reweight_info_duplicate. Qed.

(** The hypotheses of [repeated_label_raises] hold for the label [A] listed
    twice. *)
Lemma repeated_label_raises_witness :
  _prepare_reweight_info (init "data" [0; 1; 2]%Q [] [] ["A"; "A"])
    (events_in_bins "A" 0 [20; 30]%nat) = Raise AttributeError.
Proof.
  apply repeated_label_raises.
  - simpl. intros Hnd. apply NoDup_cons in Hnd as [Hin _]. apply Hin. by left.
  - intros l Hl. exists [20; 30]%Q.
    assert (l = "A") as ->.
    { apply list_elem_of_In in Hl. simpl in Hl. by destruct Hl as [<- | [<- | []]]. }
    split; [vm_compute; reflexivity|]. split; [discriminate|].
    intros c Hc. apply list_elem_of_In in Hc. simpl in Hc.
    destruct Hc as [<- | [<- | []]]; discriminate.
Defined.

Lemma reweight_label_few_bins (self : Metadata) (rec : list row) st label :
  (length self.(_reweight_bins) < 2)%nat →
  reweight_label self rec st label = Raise ValueError.
Proof.
  intros Hb. destruct st as [ce res]. unfold reweight_label, label_hist.
  destruct self.(_reweight_bins) as [|e [|e' bins]];
    [reflexivity | reflexivity | simpl in Hb; lia].
Qed.

(** X8.  Without labels, or with fewer than two bin edges, the calculator
    raises [ValueError]: from [min] of no class count, of no bin edge or of
    no bin. *)
Theorem reweight_info_needs_labels_and_bins (self : Metadata) (rec : list row) :
  self.(label_branches) = [] ∨ (length self.(_reweight_bins) < 2)%nat →
  _prepare_reweight_info self rec = Raise ValueError.
Proof.
  intros [Hl | Hb]; unfold _prepare_reweight_info.
  - by rewrite Hl.
  - destruct self.(label_branches) as [|l0 t] eqn:El; [done|].
    by rewrite foldlM_cons, reweight_label_few_bins.
Qed.

(** The hypothesis of [reweight_info_needs_labels_and_bins] holds for a
    single bin edge. *)
Lemma reweight_info_needs_labels_and_bins_witness :
  _prepare_reweight_info (init "data" [200]%Q [] [] ["A"])
    (events_in_bins "A" 0 [20; 30]%nat) = Raise ValueError.
Proof. apply reweight_info_needs_labels_and_bins. right. simpl. lia. Defined.

(** ** What the reweighting calculator returns *)

Lemma count_if_mono p q a :
  (∀ x, p x = true → q x = true) → count_if p a ≤ count_if q a.
Proof.
  intros H. induction a as [|x a IH]; [done|].
  rewrite !count_if_cons. destruct (p x) eqn:E; [rewrite (H x E); lia|].
  destruct (q x); lia.
Qed.

Lemma np_histogram_nonneg a bins h z :
  np_histogram a bins = Ok h → z ∈ h → 0 ≤ z.
Proof.
  unfold np_histogram. destruct (monotone bins) eqn:Hm; [|done]. intros [= <-].
  revert Hm z. induction bins as [|e0 [|e1 t] IH]; intros Hm z;
    [cbn; by intros ?%elem_of_nil | cbn; by intros ?%elem_of_nil |].
  rewrite monotone_cons in Hm. apply andb_true_iff in Hm as [Hle Hm].
  apply Qle_bool_iff in Hle.
  rewrite search_sorted_inclusive_cons.
  destruct t as [|e2 t].
  - cbn. intros [-> | []%elem_of_nil]%elem_of_cons.
    assert (count_if (λ x, Qlt_bool x e0) a ≤ count_if (λ x, Qle_bool x e1) a); [|lia].
    apply count_if_mono. intros x Hx%Qlt_bool_iff. apply Qle_bool_iff. lra.
  - rewrite search_sorted_inclusive_cons.
    change (np_diff (?x :: ?y :: ?l)) with ((y - x) :: np_diff (y :: l)).
    intros [-> | Hz]%elem_of_cons.
    + assert (count_if (λ x, Qlt_bool x e0) a ≤ count_if (λ x, Qlt_bool x e1) a); [|lia].
      apply count_if_mono. intros x Hx%Qlt_bool_iff. apply Qlt_bool_iff. lra.
    + apply (IH Hm). by rewrite search_sorted_inclusive_cons.
Qed.

Lemma label_hist_nonneg self rec label counts c :
  label_hist self rec label = Ok counts → c ∈ counts → (0 <= c)%Q.
Proof.
  intros (_ & h & Hh & ->)%label_hist_Ok (z & -> & Hz)%list_elem_of_fmap.
  rewrite <- (Zle_Qle 0). by eapply np_histogram_nonneg.
Qed.

(** The entries of a returned result. *)
Lemma prepare_reweight_info_spec self rec res :
  _prepare_reweight_info self rec = Ok res →
  ∃ min_nevt, (0 < min_nevt)%Q ∧
    (∀ l, l ∈ self.(label_branches) →
       ∃ counts r, label_hist self rec l = Ok counts ∧ ref_of counts = Ok r ∧
         (min_nevt <= r)%Q ∧
         res !! l = Some (with_class_wgt (min_nevt / r) (flat_entry self counts r))) ∧
    (∀ l, l ∉ self.(label_branches) → res !! l = None).
Proof.
  intros H.
  destruct (prepare_reweight_info_Ok_inv self rec res H) as (Hne & Hnd & Hall).
  destruct (first_loop_Ok self rec _ ∅ ∅ Hall) as (ce & res1 & Hloop & Hspec).
  unfold _prepare_reweight_info in H. rewrite Hloop, result_bind_Ok in H.
  apply bind_Ok in H as (m & Hm & H).
  destruct (second_loop_Ok m ce self.(label_branches) res1 Hnd) as (res2 & Hloop2 & Hspec2).
  { intros l Hl. destruct (Hspec l) as [Hin _].
    destruct (Hin Hl) as (c & r & _ & _ & -> & ->). eauto. }
  rewrite Hloop2 in H. injection H as <-.
  apply py_min_spec in Hm as [Hmin Hmle].
  exists m. split; [|split].
  - apply list_elem_of_fmap in Hmin as ([l0 v] & -> & Hl0).
    apply elem_of_map_to_list in Hl0. simpl.
    destruct (decide (l0 ∈ self.(label_branches))) as [Hin | Hout].
    + destruct (Hspec l0) as [Hs _].
      destruct (Hs Hin) as (c0 & r0 & Hh & Hr & Hce & _).
      rewrite Hl0 in Hce. injection Hce as ->.
      by apply ref_of_spec in Hr as (_ & ? & _).
    + destruct (Hspec l0) as [_ Hs]. destruct (Hs Hout) as [Hce _].
      by rewrite Hl0 in Hce.
  - intros l Hl. destruct (Hspec l) as [Hs _].
    destruct (Hs Hl) as (counts & r & Hh & Hr & Hce & Hres).
    exists counts, r. split; [done|]. split; [done|]. split.
    + apply Hmle. apply list_elem_of_fmap. exists (l, r). split; [done|].
      by apply elem_of_map_to_list.
    + destruct (Hspec2 l) as [H2 _]. by apply H2.
  - intros l Hl. destruct (Hspec2 l) as [_ H2]. rewrite (H2 Hl).
    destruct (Hspec l) as [_ Hs]. by destruct (Hs Hl) as [_ ->].
Qed.

(** X9.  A returned result has one entry for each label and no other
    key; every entry carries the configured bin edges, one raw count and
    one weight for each bin, and a class weight. *)
Theorem reweight_info_has_an_entry_per_label (self : Metadata) (rec : list row)
    (res : gmap string reweight_entry) :
  _prepare_reweight_info self rec = Ok res →
  (∀ l, l ∈ self.(label_branches) ↔ is_Some (res !! l)) ∧
  ∀ l e, res !! l = Some e →
    e.(bin_edges) = self.(_reweight_bins) ∧
    label_hist self rec l = Ok e.(raw_hist) ∧
    length e.(raw_hist) = (length self.(_reweight_bins) - 1)%nat ∧
    length e.(hist) = (length self.(_reweight_bins) - 1)%nat ∧
    is_Some e.(class_wgt).
Proof.
  intros H. destruct (prepare_reweight_info_spec self rec res H) as (m & _ & Hin & Hout).
  split.
  - intros l. split.
    + intros Hl. destruct (Hin l Hl) as (c & r & _ & _ & _ & ->). eauto.
    + intros [e He]. destruct (decide (l ∈ self.(label_branches))) as [?|Hl]; [done|].
      by rewrite (Hout l Hl) in He.
  - intros l e He.
    destruct (decide (l ∈ self.(label_branches))) as [Hl|Hl];
      [|by rewrite (Hout l Hl) in He].
    destruct (Hin l Hl) as (c & r & Hh & _ & _ & He'). rewrite He in He'.
    injection He' as ->. simpl.
    pose proof (label_hist_length self rec l c Hh) as Hlen.
    split; [done|]. split; [done|]. split; [done|].
    split; [by rewrite reweight_loop_fmap, length_fmap | eauto].
Qed.

(** The hypothesis of [reweight_info_has_an_entry_per_label] holds for the
    two-class example. *)
Lemma reweight_info_has_an_entry_per_label_witness :
  ∃ res,
    _prepare_reweight_info two_classes
      (events_in_bins "A" 0 [20; 30]%nat ++ events_in_bins "B" 0 [50; 60]%nat) = Ok res ∧
    (∀ l, l ∈ two_classes.(label_branches) ↔ is_Some (res !! l)).
Proof.
  destruct (_prepare_reweight_info two_classes
      (events_in_bins "A" 0 [20; 30]%nat ++ events_in_bins "B" 0 [50; 60]%nat))
    as [res|e] eqn:E.
  - exists res. split; [done|].
    by destruct (reweight_info_has_an_entry_per_label _ _ _ E) as [? _].
  - exfalso.
    assert (is_ok (_prepare_reweight_info two_classes
      (events_in_bins "A" 0 [20; 30]%nat ++ events_in_bins "B" 0 [50; 60]%nat)) = true) as H
      by (vm_compute; reflexivity).
    by rewrite E in H.
Defined.

Lemma bin_weight_bounds (ref_val c : Q) :
  (0 < ref_val)%Q → (0 <= c)%Q → ((0 < c)%Q → (ref_val <= c)%Q) →
  (0 <= bin_weight ref_val c <= 1)%Q ∧
  ((bin_weight ref_val c == 0)%Q ↔ (c == 0)%Q).
Proof.
  intros Hr Hc Hle. unfold bin_weight.
  destruct (Qeq_bool c 0) eqn:E.
  - apply Qeq_bool_iff in E. split; [lra | done].
  - assert (¬ (c == 0)%Q) as Hne by (intros ?%Qeq_bool_iff; congruence).
    assert (0 < c)%Q as Hpos by lra.
    specialize (Hle Hpos).
    assert (0 < ref_val / c)%Q as Hw.
    { apply Qlt_shift_div_l; lra. }
    split; [split; [lra | apply Qle_shift_div_r; lra]|].
    split; [lra | done].
Qed.

(** X10.  In a returned result every per-bin weight lies between 0 and 1,
    a bin has weight 0 exactly when it is empty, some bin of every label
    has weight 1, and every class weight is positive. *)
Theorem reweight_weights_are_fractions (self : Metadata) (rec : list row)
    (res : gmap string reweight_entry) (l : string) (e : reweight_entry) :
  _prepare_reweight_info self rec = Ok res →
  res !! l = Some e →
  (∀ i w c, e.(hist) !! i = Some w → e.(raw_hist) !! i = Some c →
     (0 <= w <= 1)%Q ∧ ((w == 0)%Q ↔ (c == 0)%Q)) ∧
  (∃ i w, e.(hist) !! i = Some w ∧ (w == 1)%Q) ∧
  (∃ w, e.(class_wgt) = Some w ∧ (0 < w)%Q).
Proof.
  intros H He. destruct (prepare_reweight_info_spec self rec res H) as (m & Hm & Hin & Hout).
  destruct (decide (l ∈ self.(label_branches))) as [Hl|Hl];
    [|by rewrite (Hout l Hl) in He].
  destruct (Hin l Hl) as (counts & r & Hh & Hr & Hmr & He'). rewrite He in He'.
  injection He' as ->. simpl. rewrite reweight_loop_fmap.
  apply ref_of_spec in Hr as (Hrin & Hrpos & Hrmin).
  split; [|split].
  - intros i w c Hw Hc. rewrite list_lookup_fmap, Hc in Hw. injection Hw as <-.
    apply list_elem_of_lookup_2 in Hc.
    apply bin_weight_bounds; [done | by eapply label_hist_nonneg | by apply Hrmin].
  - apply list_elem_of_lookup_1 in Hrin as [i Hi].
    exists i, (bin_weight r r). split; [by rewrite list_lookup_fmap, Hi|].
    unfold bin_weight. destruct (Qeq_bool r 0) eqn:E.
    + apply Qeq_bool_iff in E. lra.
    + field. lra.
  - eexists. split; [done|]. apply Qlt_shift_div_l; lra.
Qed.

(** The hypotheses of [reweight_weights_are_fractions] hold for the class
    with the histogram [50, 0, 100, 20]. *)
Lemma reweight_weights_are_fractions_witness :
  ∃ res e,
    _prepare_reweight_info unit_bins (events_in_bins "A" 0 [50; 0; 100; 20]%nat) = Ok res ∧
    res !! "A" = Some e ∧
    (∃ i w, e.(hist) !! i = Some w ∧ (w == 1)%Q) ∧
    (∃ w, e.(class_wgt) = Some w ∧ (0 < w)%Q).
Proof.
  destruct (_prepare_reweight_info unit_bins (events_in_bins "A" 0 [50; 0; 100; 20]%nat))
    as [res|err] eqn:E.
  - destruct (res !! "A") as [e|] eqn:He.
    + exists res, e. split; [done|]. split; [done|].
      by destruct (reweight_weights_are_fractions _ _ _ _ _ E He) as (_ & ? & ?).
    + exfalso.
      assert (match _prepare_reweight_info unit_bins
                      (events_in_bins "A" 0 [50; 0; 100; 20]%nat) with
              | Ok r => bool_decide (is_Some (r !! "A")) | Raise _ => false end = true) as H
        by (vm_compute; reflexivity).
      rewrite E, He in H. by apply bool_decide_eq_true in H as [? ?].
  - exfalso.
    assert (is_ok (_prepare_reweight_info unit_bins
                     (events_in_bins "A" 0 [50; 0; 100; 20]%nat)) = true) as H
      by (vm_compute; reflexivity).
    by rewrite E in H.
Defined.

(** ** The sample of the statistics calculator *)

Lemma py_int_small (q : Q) : (0 <= q)%Q → (q < 1)%Q → py_int q = 0.
Proof.
  destruct q as [n d]. unfold py_int, Qle, Qlt. simpl. intros H0 H1.
  apply Z.quot_small. lia.
Qed.

(** X11.  When fewer files than one are drawn, that is when five times
    the requested events times the number of files is below the total,
    the sampled counts are empty and their sum divides the requested
    events: [_make_infos] raises [ZeroDivisionError] and leaves the object
    as it was. *)
Theorem infos_sample_of_no_file_raises (env : collaborators) (self : Metadata)
    (total : Z) (files : list string) :
  0 < self.(_metadata_events) →
  self.(_total_events) = Some total →
  self.(inputfiles) = Some files →
  5 * self.(_metadata_events) * Z.of_nat (length files) < total →
  _make_infos env self = (self, Raise ZeroDivisionError).
Proof.
  intros Hme Htotal Hfiles Hlt.
  assert (0 < total) as Hpos by lia.
  unfold _make_infos, infos_sample.
  destruct (Z.ltb_spec 0 self.(_metadata_events)) as [_|?]; [|lia].
  rewrite Htotal. simpl attribute. rewrite result_bind_Ok.
  destruct (Z.eqb_spec total 0) as [?|_]; [lia|].
  rewrite Hfiles. simpl sequence. rewrite result_bind_Ok.
  rewrite py_int_small.
  - done.
  - assert (0 <= inject_Z self.(_metadata_events))%Q by (rewrite <- (Zle_Qle 0); lia).
    assert (0 < inject_Z total)%Q by (rewrite <- (Zlt_Qlt 0); lia).
    assert (0 <= inject_Z (Z.of_nat (length files)))%Q by (rewrite <- (Zle_Qle 0); lia).
    apply Qmult_le_0_compat; [|done].
    apply Qle_shift_div_l; [done|]. lra.
  - assert (0 < inject_Z total)%Q as Ht by (rewrite <- (Zlt_Qlt 0); lia).
    assert (5 * inject_Z self.(_metadata_events) * inject_Z (Z.of_nat (length files))
            < inject_Z total)%Q as Hq.
    { change 5%Q with (inject_Z 5). rewrite <- !inject_Z_mult, <- Zlt_Qlt. done. }
    assert (5 * inject_Z self.(_metadata_events) / inject_Z total
              * inject_Z (Z.of_nat (length files))
            == 5 * inject_Z self.(_metadata_events) * inject_Z (Z.of_nat (length files))
               / inject_Z total)%Q as -> by (field; lra).
    apply Qlt_shift_div_r; lra.
Qed.

(** The hypotheses of [infos_sample_of_no_file_raises] hold for one file
    of a million events and the default 100000 requested events. *)
Lemma infos_sample_of_no_file_raises_witness :
  _make_infos example_run example_big_file = (example_big_file, Raise ZeroDivisionError).
Proof.
  apply (infos_sample_of_no_file_raises example_run example_big_file
           1000000 ["data/big.root"]); [done | done | done | simpl; lia].
Defined.

(** ** The records of the statistics calculator *)

Lemma infos_loop_Raise env self files counts frac vars : ∀ infos self' e,
  infos_loop env self files counts frac infos vars = (self', Raise e) →
  ∃ infos', self' = set_branches_info self infos' ∧
    ∀ var info, infos' !! var = Some info →
      infos !! var = Some info ∨
      (var ∈ vars ∧ branch_info_of env self files counts frac var = Ok info).
Proof.
  induction vars as [|v rest IH]; intros infos self' e; simpl; [done|].
  destruct (branch_info_of env self files counts frac v) as [info|e'] eqn:Hinfo.
  - intros H. destruct (IH _ _ _ H) as (infos' & -> & Hspec).
    exists infos'. split; [done|]. intros var info' Hlook.
    destruct (Hspec var info' Hlook) as [Hold | [Hin Hok]].
    + destruct (decide (v = var)) as [-> | Hne].
      * rewrite lookup_insert_eq in Hold. injection Hold as <-. right. split; [by left | done].
      * rewrite lookup_insert_ne in Hold by done. by left.
    + right. split; [by right | done].
  - intros [= <- <-]. exists infos. split; [done|]. intros var info' ?. by left.
Qed.

(** X12.  When [_make_infos] returns, the object differs from the one it
    was called on in [branches_info] only, and [branches_info] has a record
    for each selected variable and no other key.  When it raises, the
    object is unchanged or has a [branches_info] that holds records of
    selected variables only, each the record of its variable. *)
Theorem infos_records_selected_variables (env : collaborators) (self self' : Metadata)
    (r : result unit) :
  _make_infos env self = (self', r) →
  match r with
  | Ok _ =>
      ∃ vars infos,
        self.(var_branches) = Some vars ∧
        self' = set_branches_info self infos ∧
        ∀ var, var ∈ vars ↔ is_Some (infos !! var)
  | Raise _ =>
      self' = self ∨
      ∃ files counts frac infos,
        infos_sample env self = Ok (files, counts, frac) ∧
        self' = set_branches_info self infos ∧
        ∀ var info, infos !! var = Some info →
          (∃ vars, self.(var_branches) = Some vars ∧ var ∈ vars) ∧
          branch_info_of env self files counts frac var = Ok info
  end.
Proof.
  unfold _make_infos.
  destruct (infos_sample env self) as [[[files counts] frac]|e] eqn:Hsample.
  2: { intros [= <- <-]. by left. }
  destruct self.(var_branches) as [vars|] eqn:Hvars; simpl.
  2: { intros [= <- <-]. right. exists files, counts, frac, ∅.
       split; [done|]. split; [done|]. intros var info. by rewrite lookup_empty. }
  destruct r as [[]|e].
  - intros H. apply infos_loop_Ok in H as (infos & -> & Hspec).
    exists vars, infos. split; [done|]. split; [done|]. intros var. split.
    + intros Hvar. destruct (Hspec var) as [Hin _].
      destruct (Hin Hvar) as (info & -> & _). eauto.
    + intros [info Hinfo]. destruct (decide (var ∈ vars)) as [?|Hout]; [done|].
      destruct (Hspec var) as [_ Hnone]. rewrite (Hnone Hout), lookup_empty in Hinfo. done.
  - intros H. apply infos_loop_Raise in H as (infos & -> & Hspec).
    right. exists files, counts, frac, infos. split; [done|]. split; [done|].
    intros var info Hlook. destruct (Hspec var info Hlook) as [Hold | [Hin Hok]].
    + by rewrite lookup_empty in Hold.
    + split; [eauto | done].
Qed.

(** The hypothesis of [infos_records_selected_variables] holds for the
    example run. *)
Lemma infos_records_selected_variables_witness :
  ∃ vars infos,
    example_weighted.(var_branches) = Some vars ∧
    (_make_infos example_run example_weighted).1 = set_branches_info example_weighted infos ∧
    ∀ var, var ∈ vars ↔ is_Some (infos !! var).
Proof.
  apply (infos_records_selected_variables example_run example_weighted _ (Ok ())).
  apply pair_eta. vm_compute. reflexivity.
Defined.

(** ** The order of the statistics *)





















(** X14.  A record is returned exactly for a branch with at least one
    value: an empty array, a vector branch without rows and one whose rows
    are all empty make [make_info] raise. *)
Theorem branch_record_needs_a_value (env : collaborators) (var_size : option Z)
    (a : ndarray) :
  (∃ info, make_info env var_size a = Ok info) ↔ values_read a ≠ [].
Proof.
  split.
  - intros [info Hinfo].
    apply make_info_inv in Hinfo as (values & Hlo & _ & _ & _ & _ & _ & Harr).
    destruct a as [vs | rows]; simpl.
    + destruct Harr as [-> _]. by destruct vs.
    + destruct Harr as [-> _]. intros E. by rewrite E in Hlo.
  - intros Hne. unfold make_info.
    assert (∃ s values, values ≠ [] ∧
              match a with
              | Flat values => Ok (None, values)
              | Ragged rows => sv ← flatten_ragged env var_size rows; Ok (Some sv.1, sv.2)
              end = Ok (s, values)) as (s & values & Hv & ->).
    { destruct a as [vs | rows]; simpl in Hne.
      - by exists None, vs.
      - destruct (flatten_ragged_spec env var_size rows) as (s & -> & _).
        { intros ->. done. }
        rewrite result_bind_Ok. eexists _, _. split; [|done]. simpl.
        by destruct (concat rows). }
    rewrite result_bind_Ok. destruct values as [|x t]; [done|].
    simpl. eauto.
Qed.

(** ** What the store can write *)














(** ** Reading back what was read back *)

Lemma sort_keys_sorted {A} (l : list (string * A)) :
  Sorted (λ k k', String.leb k k' = true) l.*1 → sort_keys l = l.
Proof.
  induction l as [|[k x] l IH]; [done|]. intros Hs. rewrite sort_keys_cons.
  rewrite fmap_cons in Hs. apply Sorted_inv in Hs as [Hs Hhd]. rewrite IH by done.
  destruct l as [|[k' y] l]; [done|]. rewrite fmap_cons in Hhd.
  apply HdRel_inv in Hhd. simpl in *. by rewrite Hhd.
Qed.

Lemma sort_keys_idemp {A} (l : list (string * A)) : sort_keys (sort_keys l) = sort_keys l.
Proof. apply sort_keys_sorted, sort_keys_Sorted. Qed.

(** What is read back is read back as itself. *)
Lemma json_image_idemp (v : pyval) : json_image (json_image v) = json_image v.
Proof.
  induction v as [| | | | |l IH|l IH|d IH|] using pyval_nested_ind; simpl; try done.
  - f_equal. rewrite <- list_fmap_compose. apply list_fmap_ext.
    rewrite Forall_forall in IH. intros i x Hx. apply IH. by eapply list_elem_of_lookup_2.
  - f_equal. rewrite <- list_fmap_compose. apply list_fmap_ext.
    rewrite Forall_forall in IH. intros i x Hx. apply IH. by eapply list_elem_of_lookup_2.
  - f_equal. rewrite <- sort_keys_fmap, sort_keys_idemp. f_equal.
    rewrite <- list_fmap_compose. apply list_fmap_ext.
    rewrite Forall_forall in IH. intros i [k x] Hx. unfold prod_map. simpl. f_equal.
    apply (IH (k, x)). by eapply list_elem_of_lookup_2.
Qed.

(** The object [loadMetadata] leaves after a successful write. *)
Lemma load_after_write attrs target filepath fs fs' :
  writeMetadata attrs filepath fs = (fs', Ok ()) →
  loadMetadata target filepath fs'
    = Ok (foldl set_public target (sort_keys (prod_map id json_image <$> map_to_list attrs))).
Proof.
  unfold writeMetadata. destruct (dump _) as [doc|e] eqn:Hdump; [|done].
  intros [= <-]. unfold loadMetadata. rewrite lookup_insert_eq.
  by rewrite (dump_load _ _ Hdump).
Qed.

Lemma loaded_lookup attrs target k :
  private k = false →
  foldl set_public target (sort_keys (prod_map id json_image <$> map_to_list attrs)) !! k
    = match attrs !! k with
      | Some v => Some (json_image v)
      | None => target !! k
      end.
Proof.
  intros Hk.
  assert ((sort_keys (prod_map id json_image <$> map_to_list attrs)).*1
            ≡ₚ (map_to_list attrs).*1) as Hkeys.
  { rewrite sort_keys_Permutation, <- list_fmap_compose.
    by rewrite (list_fmap_ext _ fst (map_to_list attrs)) by (by intros ? [? ?]). }
  destruct (attrs !! k) as [v|] eqn:Hv.
  - apply foldl_set_public_lookup; [| |done].
    + rewrite Hkeys. apply NoDup_fst_map_to_list.
    + rewrite sort_keys_Permutation. apply list_elem_of_fmap.
      exists (k, v). split; [done|]. by apply elem_of_map_to_list.
  - apply foldl_set_public_other. rewrite Hkeys.
    intros ([k' v] & -> & Hin%elem_of_map_to_list)%list_elem_of_fmap. simpl in Hv. congruence.
Qed.

(** X17.  A descriptor that was read back is stable: written again and
    read again, into any object, every public attribute of the first
    document has exactly the value the first reading gave it. *)
Theorem reloaded_descriptor_is_stable (attrs target target' : gmap string pyval)
    (filepath filepath' : string) (fs fs1 fs2 : gmap string file)
    (loaded : gmap string pyval) :
  writeMetadata attrs filepath fs = (fs1, Ok ()) →
  loadMetadata target filepath fs1 = Ok loaded →
  writeMetadata loaded filepath' fs1 = (fs2, Ok ()) →
  ∃ loaded',
    loadMetadata target' filepath' fs2 = Ok loaded' ∧
    ∀ k, private k = false → is_Some (attrs !! k) →
      is_Some (loaded !! k) ∧ loaded' !! k = loaded !! k.
Proof.
  intros Hw1 Hl1 Hw2.
  rewrite (load_after_write _ target _ _ _ Hw1) in Hl1. injection Hl1 as <-.
  eexists. split; [by eapply load_after_write|].
  intros k Hk [v Hv].
  rewrite (loaded_lookup _ target' k Hk), (loaded_lookup attrs target k Hk), Hv.
  by rewrite json_image_idemp.
Qed.

Lemma reload_Ok target filepath fs :
  is_ok (loadMetadata target filepath fs) = true →
  loadMetadata target filepath fs = Ok (reload target filepath fs).
Proof. unfold reload. by destruct (loadMetadata target filepath fs). Qed.

(** The hypotheses of [reloaded_descriptor_is_stable] hold for the
    descriptor of the example run. *)
Lemma reloaded_descriptor_is_stable_witness :
  ∃ loaded',
    loadMetadata ∅ "copy.json"
      (writeMetadata example_reloaded "copy.json" example_produced.1.2).1 = Ok loaded' ∧
    ∀ k, private k = false → is_Some (to_dict example_produced.1.1 !! k) →
      is_Some (example_reloaded !! k) ∧ loaded' !! k = example_reloaded !! k.
Proof.
  apply (reloaded_descriptor_is_stable _ ∅ _ "md.json" _ ∅ example_produced.1.2).
  - destruct (produceMetadata_Ok _ _ _ _ _ _ example_produced_Ok)
      as (s1 & s2 & _ & _ & _ & H).
    exact H.
  - unfold example_reloaded. apply reload_Ok. vm_compute. reflexivity.
  - apply pair_eta. vm_compute. reflexivity.
Defined.

(** ** The rows the calculators ask for *)











(** ** The descriptor of a successful run *)

Lemma make_varlist_Ok_inv env self self' :
  _make_varlist env self = Ok self' →
  ∃ f rest branches vars sizes,
    self.(inputfiles) = Some (f :: rest) ∧
    self' = set_varlist self branches vars sizes ∧
    ∀ var, var ∈ vars → is_Some (sizes !! var).
Proof.
  unfold _make_varlist. intros (f & Hf & H)%bind_Ok.
  pose proof (select_branches_fst env self.(var_groups)
                (env.(root2array_columns) f self.(treename)) ([], ∅)) as Hfst.
  pose proof (select_branches_snd env self.(var_groups)
                (env.(root2array_columns) f self.(treename)) ([], ∅)) as Hsnd.
  destruct (select_branches _ _ _ _) as [vars sizes]. simpl in *.
  injection H as <-.
  unfold first_inputfile in Hf. destruct self.(inputfiles) as [[|f' rest]|]; try done.
  injection Hf as ->. eexists f, rest, _, _, _. split; [done|]. split; [done|].
  intros var Hvar%foldl_remove_if_present_subseteq. subst vars.
  apply list_elem_of_In, filter_In in Hvar as [Hin Hm]. apply list_elem_of_In in Hin.
  destruct (first_matching_group env var self.(var_groups)) as [size|] eqn:E; [|done].
  rewrite (Hsnd var size Hin E). eauto.
Qed.

Lemma make_weights_Ok_inv env self self' :
  _make_weights env self = (self', Ok ()) →
  ∃ rec info,
    reweight_sample env self = Ok rec ∧ _prepare_reweight_info self rec = Ok info ∧
    self' = set_reweight_info self info.
Proof.
  unfold _make_weights. destruct (reweight_sample env self) as [rec|e]; [|done].
  destruct (_prepare_reweight_info self rec) as [info|e] eqn:Hinfo; [|done].
  intros [= <-]. by exists rec, info.
Qed.

Lemma make_infos_Ok_inv env self self' :
  _make_infos env self = (self', Ok ()) →
  ∃ vars infos,
    self.(var_branches) = Some vars ∧ self' = set_branches_info self infos ∧
    ∀ var, var ∈ vars ↔ is_Some (infos !! var).
Proof.
  unfold _make_infos.
  destruct (infos_sample env self) as [[[files counts] frac]|e]; [|done].
  destruct self.(var_branches) as [vars|]; [|done]. simpl.
  intros H. apply infos_loop_Ok in H as (infos & -> & Hspec).
  exists vars, infos. split; [done|]. split; [done|]. intros var. split.
  - intros Hvar. destruct (Hspec var) as [Hin _].
    destruct (Hin Hvar) as (info & -> & _). eauto.
  - intros [info Hinfo]. destruct (decide (var ∈ vars)) as [?|Hout]; [done|].
    destruct (Hspec var) as [_ Hnone]. rewrite (Hnone Hout), lookup_empty in Hinfo. done.
Qed.

Lemma reweight_loop_length ref_val counts :
  length (reweight_loop ref_val counts) = length counts.
Proof. by rewrite reweight_loop_fmap, length_fmap. Qed.

(** X20.  When [produceMetadata] returns, the object it leaves has the
    configuration it was called with and is a complete descriptor: the
    file and count lists are parallel and not empty and the total is their
    sum, every selected variable has a declared size and a statistics
    record and no other variable has a record, and every label, and
    nothing else, has a reweighting entry with the configured bin edges,
    one weight for each raw count and a class weight. *)
Theorem produced_descriptor_is_complete (env : collaborators) (self self' : Metadata)
    (filepath : string) (fs fs' : gmap string file) :
  produceMetadata env self filepath fs = (self', fs', Ok ()) →
  configuration self' = configuration self ∧ complete_descriptor self'.
Proof.
  intros (s1 & s2 & Hvars & Hweights & Hinfos & _)%produceMetadata_Ok.
  apply make_varlist_Ok_inv in Hvars as (f & rest & branches & vars & sizes & Hfiles & -> & Hsizes).
  apply make_weights_Ok_inv in Hweights as (rec & weights & _ & Hprep & ->).
  apply make_infos_Ok_inv in Hinfos as (vars' & infos & [= <-] & -> & Hrecords).
  unfold updateFilelist in *.
  pose proof (scan_dirs_parallel env self.(treename) false
                (os_walk self.(_inputdir) env.(input_tree)) ([], []) eq_refl) as Hpar.
  destruct (scan_dirs _ _ _ _ _) as [files counts]. simpl in *.
  injection Hfiles as ->.
  split; [done|].
  exists (f :: rest), counts, vars, sizes, weights, infos. simpl.
  repeat (split; [done|]).
  destruct (prepare_reweight_info_spec _ _ _ Hprep) as (min_nevt & _ & Hin & Hout).
  simpl in Hin, Hout. split.
  - intros l. split.
    + intros Hl. destruct (Hin l Hl) as (cs & r & _ & _ & _ & ->). eauto.
    + intros [e He]. destruct (decide (l ∈ self.(label_branches))) as [?|Hl]; [done|].
      rewrite (Hout l Hl) in He. done.
  - intros l e He. destruct (decide (l ∈ self.(label_branches))) as [Hl|Hl].
    + destruct (Hin l Hl) as (cs & r & _ & _ & _ & He'). rewrite He' in He.
      injection He as <-. simpl. split; [eauto|]. split; [done|].
      by rewrite reweight_loop_length.
    + rewrite (Hout l Hl) in He. done.
Qed.

(** The hypothesis of [produced_descriptor_is_complete] holds for the
    example run. *)
Lemma produced_descriptor_is_complete_witness :
  configuration example_produced.1.1 = configuration example_object ∧
  complete_descriptor example_produced.1.1.
Proof.
  exact (produced_descriptor_is_complete _ _ _ _ _ _ example_produced_Ok).
Defined.
